(** * CryptDiary: the cryptographic identity core, embedded and verified

    The development follows [key_manager.py] and [crypto_manager.py]:

    - Python values, exceptions and the [result] monad;
    - the shared revocation ledger ([revoked_certificates.json]) and the
      three KeyManager methods that touch it;
    - the interface of the [cryptography], [base64] and [json] libraries
      the two classes call (class [Backend]) with the contracts the
      proofs rely on ([BackendLaws]);
    - [KeyManager] and [CryptoManager], method by method;
    - an executable reference backend ([Mock]) on which every contract is
      proved and on which the methods can be run;
    - the keystore writer and the PEM exports, [import_entry] on any dict
      read from a file, the accounts of [user_manager.py] and the entries
      of [diary_storage.py];
    - the properties, and their instances on sample data. *)

From Stdlib Require Import ZArith List Lia Ascii String DecimalString.
From Stdlib Require Import Sorted.
From stdpp Require Import base option list gmap strings.

(** ** Python values *)

Abbreviation bytes := (list Byte.byte).

#[global] Instance byte_eq_dec : EqDecision Byte.byte := Byte.byte_eq_dec.

(** The values that travel in envelopes, ledger entries and metadata:
    [None], integers, [str] and [bytes]. *)
Inductive value : Type :=
  | VNone
  | VInt (z : Z)
  | VStr (s : string)
  | VBytes (b : bytes).

#[global] Instance value_eq_dec : EqDecision value.
Proof. solve_decision. Defined.

(** [a == b] on these values. *)
Definition py_eq (a b : value) : bool := bool_decide (a = b).

(** Truthiness, as in [if cert_serial:] or [username if username else ...]. *)
Definition truthy (v : value) : bool :=
  match v with
  | VNone => false
  | VInt z => negb (z =? 0)%Z
  | VStr s => negb (String.eqb s "")
  | VBytes b => match b with [] => false | _ => true end
  end.

(** [str(n)] on an integer: decimal digits, [-] in front of a negative. *)
Definition str_of_int (n : Z) : string :=
  DecimalString.NilZero.string_of_int (Z.to_int n).

(** ** Exceptions *)

Inductive exn : Type :=
  | KeyError (key : string)
  | IndexError (msg : string)
  | TypeError (msg : string)
  | ValueError (msg : string)
  | AttributeError (msg : string)
  | UnicodeDecodeError (msg : string)
  | JSONDecodeError (msg : string)
  | InvalidSignature
  | Exception (msg : string)
  | OSError (msg : string).

(** [str(e)]: a [KeyError] prints the repr of the missing key, an exception
    built without arguments prints as the empty string. [OSError] stands
    for the errors of the operating system ([FileNotFoundError],
    [FileExistsError], [IsADirectoryError], ...) with their text. *)
Definition exn_str (e : exn) : string :=
  match e with
  | KeyError k => "'" +:+ k +:+ "'"
  | IndexError m | TypeError m | ValueError m | AttributeError m
  | UnicodeDecodeError m | JSONDecodeError m | Exception m | OSError m => m
  | InvalidSignature => ""
  end.

Inductive result (A : Type) : Type :=
  | Ok (a : A)
  | Raise (e : exn).
Arguments Ok {A} a.
Arguments Raise {A} e.

Definition bind {A B} (r : result A) (k : A -> result B) : result B :=
  match r with
  | Ok a => k a
  | Raise e => Raise e
  end.

Declare Scope py_scope.
Delimit Scope py_scope with py.
Notation "x <- c ;; k" := (bind c (fun x => k))
  (at level 100, c at next level, right associativity) : py_scope.
Open Scope py_scope.

(** [d[k]] on a dict. *)
Definition getitem (d : gmap string value) (k : string) : result value :=
  match d !! k with
  | Some v => Ok v
  | None => Raise (KeyError k)
  end.

(** ** Files *)

(** What a JSON file on disk can be: not there, there but rejected by
    [json.load], or holding a document. *)
Inductive file (A : Type) : Type :=
  | Missing
  | Garbled
  | Stored (doc : A).
Arguments Missing {A}.
Arguments Garbled {A}.
Arguments Stored {A} doc.

(** ** The revocation ledger (key_manager.py, "Global Revocation methods") *)

Module Ledger.

(** One element of the ['revoked'] list. *)
Abbreviation entry := (gmap string value).

(** The shared file [revoked_certificates.json], as the list under its
    ['revoked'] key. *)
Abbreviation t := (file (list entry)).

Definition _load_global_revoked (f : t) : result (list entry) :=
  match f with
  | Missing => Ok []
  | Garbled => Raise (JSONDecodeError "Expecting value")
  | Stored revoked => Ok revoked
  end.

(** What [json.dump] accepts: [None], integers and [str], not [bytes]. *)
Definition jsonable (v : value) : Prop :=
  match v with
  | VBytes _ => False
  | _ => True
  end.

#[global] Instance jsonable_dec v : Decision (jsonable v).
Proof. destruct v; cbn; apply _. Defined.

Definition entry_jsonable (e : entry) : Prop := map_Forall (fun _ v => jsonable v) e.

(** [_save_global_revoked(revoked_data)]: [open(path, 'w')] empties the
    file, then [json.dump] writes it, or raises [TypeError] part-way on a
    value it cannot serialise and leaves a file that no longer parses. *)
Definition _save_global_revoked (revoked : list entry) : result unit * t :=
  if bool_decide (Forall entry_jsonable revoked)
  then (Ok tt, Stored revoked)
  else (Raise (TypeError "Object of type bytes is not JSON serializable"), Garbled).

(** The loop shared by [revoke_certificate] and [is_revoked]:
    [for entry in revoked['revoked']: if entry['serial'] == serial_number: return ...]. *)
Fixpoint listed (revoked : list entry) (serial_number : value) : result bool :=
  match revoked with
  | [] => Ok false
  | e :: rest =>
      s <- getitem e "serial";;
      if py_eq s serial_number then Ok true else listed rest serial_number
  end.

Definition new_entry (serial_number username : value) (now : string) : entry :=
  {[ "serial" := serial_number;
     "revoked_by" := if truthy username then username else VStr "unknown";
     "timestamp" := VStr (now +:+ "Z") ]}.

(** [revoke_certificate(serial_number, username)]; [now] is
    [datetime.utcnow().isoformat()]. Returns the method's result and the
    file afterwards. *)
Definition revoke_certificate (f : t) (serial_number username : value)
    (now : string) : result bool * t :=
  match _load_global_revoked f with
  | Raise e => (Raise e, f)
  | Ok revoked =>
      match listed revoked serial_number with
      | Raise e => (Raise e, f)
      | Ok true => (Ok false, f)
      | Ok false =>
          match _save_global_revoked
                  (revoked ++ [new_entry serial_number username now]) with
          | (Ok _, f') => (Ok true, f')
          | (Raise e, f') => (Raise e, f')
          end
      end
  end.

Definition is_revoked (f : t) (serial_number : value) : result bool :=
  revoked <- _load_global_revoked f;;
  listed revoked serial_number.

Definition get_revoked_certificates (f : t) : result (list entry) :=
  _load_global_revoked f.

(** *** The operations that reach the ledger *)

Inductive op : Type :=
  | Revoke (serial_number username : value) (now : string)
  | IsRevoked (serial_number : value)
  | GetRevoked.

Definition step (f : t) (o : op) : t :=
  match o with
  | Revoke s u now => snd (revoke_certificate f s u now)
  | IsRevoked _ | GetRevoked => f
  end.

Definition run (ops : list op) (f : t) : t := fold_left step ops f.

(** Serial numbers and user names are [str] (or [None]) in every caller;
    at least they are values a JSON file can hold. *)
Definition op_ok (o : op) : Prop :=
  match o with
  | Revoke s u _ => jsonable s /\ jsonable u
  | _ => True
  end.

(** A ledger the program itself produced, starting with no file. *)
Definition reachable (f : t) : Prop :=
  exists ops, Forall op_ok ops /\ f = run ops Missing.

Definition entries (f : t) : list entry :=
  match f with
  | Stored l => l
  | _ => []
  end.

(** The entries recorded for one serial. *)
Definition for_serial (serial_number : value) (l : list entry) : list entry :=
  filter (fun e => e !! "serial" = Some serial_number) l.

Definition entries_for (serial_number : value) (f : t) : list entry :=
  for_serial serial_number (entries f).

(** Every entry carries a ['serial']. *)
Definition well_formed (l : list entry) : Prop :=
  Forall (fun e => is_Some (e !! "serial")) l.

(** What the program maintains about the file it writes: it parses,
    every entry has a serial, and no serial is entered twice. *)
Definition invariant (f : t) : Prop :=
  f <> Garbled /\ well_formed (entries f) /\
  Forall entry_jsonable (entries f) /\
  forall s, length (entries_for s f) <= 1.

End Ledger.

(** ** The libraries behind the two classes *)

(** What [key_manager.py] and [crypto_manager.py] import from
    [cryptography], [base64], [json] and the [str]/[bytes] codecs. Random
    bytes ([os.urandom], the OAEP seed, the PSS salt, the key generator's
    entropy) are explicit arguments. A [string] stands for a Python [str]
    that is text, one UTF-8 can encode, so [s.encode()] is total;
    [b.decode()] is not. *)
Class Backend : Type := {
  PrivKey : Type;
  PubKey : Type;
  Cert : Type;
  (** [rsa.generate_private_key(public_exponent, key_size)] *)
  rsa_generate_private_key : Z -> Z -> bytes -> result PrivKey;
  (** [private_key.public_key()] and [public_key.key_size] *)
  public_key_of : PrivKey -> PubKey;
  key_size : PubKey -> Z;
  (** [public_key.encrypt(m, OAEP(MGF1(SHA256), SHA256, None))] and
      [private_key.decrypt(c, OAEP(...))] *)
  oaep_encrypt : PubKey -> bytes -> bytes -> result bytes;
  oaep_decrypt : PrivKey -> bytes -> result bytes;
  (** [private_key.sign(m, PSS(MGF1(SHA256), MAX_LENGTH), SHA256)] and
      [public_key.verify(sig, m, PSS(...), SHA256)] *)
  pss_sign : PrivKey -> bytes -> bytes -> result bytes;
  pss_verify : PubKey -> bytes -> bytes -> result unit;
  (** [Cipher(AES(key), CBC(iv)).encryptor()/decryptor()], [update] then
      [finalize] *)
  aes_cbc_encrypt : bytes -> bytes -> bytes -> result bytes;
  aes_cbc_decrypt : bytes -> bytes -> bytes -> result bytes;
  (** [PBKDF2HMAC(SHA256, length=32, salt, iterations=100000).derive(pw)] *)
  pbkdf2_derive : bytes -> bytes -> bytes;
  (** [base64.b64encode(b).decode()] and [base64.b64decode(v)] *)
  b64encode : bytes -> string;
  b64decode : value -> result bytes;
  (** [s.encode()] and [b.decode()] *)
  str_encode : string -> bytes;
  bytes_decode : bytes -> result string;
  (** [json.dumps(d, sort_keys=True)] on the items of [d] in key order, and
      [json.loads(s)] *)
  json_dumps : list (string * value) -> result string;
  json_loads : string -> result (gmap string value);
  (** [serialization.load_pem_private_key] and [load_pem_public_key] *)
  load_pem_private_key : bytes -> result PrivKey;
  load_pem_public_key : bytes -> result PubKey;
  (** [x509]: the certificate builder of [generate_self_signed_certificate]
      (subject, public key, entropy of [random_serial_number], [utcnow],
      signing key), the accessors and the PEM codec *)
  x509_self_signed : string -> PubKey -> bytes -> string -> PrivKey -> result Cert;
  cert_public_key : Cert -> PubKey;
  cert_serial_number : Cert -> Z;
  cert_common_names : Cert -> list string;
  cert_public_bytes : Cert -> bytes;
  load_pem_x509_certificate : bytes -> result Cert
}.

(** The contracts of those libraries that the proofs use. *)
Class BackendLaws (B : Backend) : Prop := {
  (** Key generation accepts every size from 1024 to 4096 bits and yields
      a key of that size. *)
  rsa_generate_ok : forall size r,
    (1024 <= size <= 4096)%Z ->
    exists sk, rsa_generate_private_key 65537 size r = Ok sk /\
               key_size (public_key_of sk) = size;
  (** OAEP with SHA-256 takes messages up to [k - 66] bytes for a [k]-byte
      modulus; at 1024 bits that is 62 bytes. *)
  oaep_encrypt_ok : forall pk r m,
    (1024 <= key_size pk)%Z -> length m <= 62 ->
    exists c, oaep_encrypt pk r m = Ok c;
  oaep_decrypt_encrypt : forall sk r m c,
    oaep_encrypt (public_key_of sk) r m = Ok c -> oaep_decrypt sk c = Ok m;
  pss_verify_sign : forall sk r m s,
    pss_sign sk r m = Ok s -> pss_verify (public_key_of sk) s m = Ok tt;
  (** CBC works on whole blocks with a 256-bit key and a 128-bit IV. *)
  aes_cbc_encrypt_ok : forall k iv d,
    length k = 32 -> length iv = 16 -> length d mod 16 = 0 ->
    exists c, aes_cbc_encrypt k iv d = Ok c;
  aes_cbc_decrypt_encrypt : forall k iv d c,
    aes_cbc_encrypt k iv d = Ok c -> aes_cbc_decrypt k iv c = Ok d;
  b64decode_encode : forall b, b64decode (VStr (b64encode b)) = Ok b;
  bytes_decode_encode : forall s, bytes_decode (str_encode s) = Ok s;
  str_encode_decode : forall b s, bytes_decode b = Ok s -> str_encode s = b;
  json_loads_dumps : forall items s,
    NoDup items.*1 ->
    json_dumps items = Ok s -> json_loads s = Ok (list_to_map items);
  (** A certificate's PEM is ASCII text and parses back to the certificate. *)
  cert_pem_text : forall c,
    exists s, bytes_decode (cert_public_bytes c) = Ok s /\ s <> "";
  load_cert_public_bytes : forall c,
    load_pem_x509_certificate (cert_public_bytes c) = Ok c;
  (** A certificate is built for every common name of 1 to 64 bytes, the
      length X.509 allows a common name. *)
  x509_self_signed_ok : forall cn pk r now sk,
    cn <> "" -> length (str_encode cn) <= 64 ->
    exists c, x509_self_signed cn pk r now sk = Ok c;
  x509_self_signed_fields : forall cn pk r now sk c,
    x509_self_signed cn pk r now sk = Ok c ->
    cert_public_key c = pk /\ cert_common_names c = [cn]
}.

(** ** Byte-string helpers *)

(** [bytes(ints)]: every element must be in [range(256)]. *)
Fixpoint py_bytes (ints : list nat) : result bytes :=
  match ints with
  | [] => Ok []
  | n :: rest =>
      match Byte.of_nat n with
      | None => Raise (ValueError "bytes must be in range(0, 256)")
      | Some b => bs <- py_bytes rest;; Ok (b :: bs)
      end
  end.

(** [b[-1]] *)
Definition last_byte (b : bytes) : result nat :=
  match last b with
  | None => Raise (IndexError "index out of range")
  | Some x => Ok (Byte.to_nat x)
  end.

(** [b[:-n]] for [n >= 0]: [-0] is [0], so [b[:-0]] is empty. *)
Definition drop_tail (b : bytes) (n : nat) : bytes :=
  match n with
  | 0 => []
  | _ => take (length b - n) b
  end.

(** [plaintext_bytes + bytes([padding_length] * padding_length)] with
    [padding_length = 16 - (len(plaintext_bytes) % 16)]. *)
Definition pad16 (data : bytes) : result bytes :=
  let padding_length := 16 - (length data mod 16) in
  tail <- py_bytes (repeat padding_length padding_length);;
  Ok (data ++ tail).

(** [padding_length = padded[-1]; padded[:-padding_length]] *)
Definition unpad (padded : bytes) : result bytes :=
  padding_length <- last_byte padded;;
  Ok (drop_tail padded padding_length).

Section Program.

Context {B : Backend}.

(** ** KeyManager (key_manager.py) *)

(** The three attributes [__init__] sets to [None]. *)
Record KeyManager : Type := {
  private_key : option PrivKey;
  public_key : option PubKey;
  certificate : option Cert
}.

Definition new_key_manager : KeyManager :=
  {| private_key := None; public_key := None; certificate := None |}.

(** Methods that assign to [self]: the method's outcome and [self]
    afterwards. An exception keeps the assignments made before it. *)
Definition M (A : Type) : Type := KeyManager -> result A * KeyManager.

Definition ret {A} (a : A) : M A := fun self => (Ok a, self).

Definition mbind {A C} (m : M A) (k : A -> M C) : M C :=
  fun self =>
    match m self with
    | (Ok a, self') => k a self'
    | (Raise e, self') => (Raise e, self')
    end.

Definition lift {A} (r : result A) : M A := fun self => (r, self).

Definition set_private_key (sk : PrivKey) : M unit :=
  fun self => (Ok tt, {| private_key := Some sk;
                         public_key := public_key self;
                         certificate := certificate self |}).

Definition set_public_key (pk : PubKey) : M unit :=
  fun self => (Ok tt, {| private_key := private_key self;
                         public_key := Some pk;
                         certificate := certificate self |}).

Definition set_certificate (c : option Cert) : M unit :=
  fun self => (Ok tt, {| private_key := private_key self;
                         public_key := public_key self;
                         certificate := c |}).

Notation "x <~ c ;; k" := (mbind c (fun x => k))
  (at level 100, c at next level, right associativity).

(** [generate_key_pair(key_size=2048)] *)
Definition generate_key_pair (key_size : Z) (entropy : bytes) : M unit :=
  sk <~ lift (rsa_generate_private_key 65537 key_size entropy);;
  _ <~ set_private_key sk;;
  set_public_key (public_key_of sk).

(** [generate_self_signed_certificate(subject_name)] *)
Definition generate_self_signed_certificate (subject_name : string)
    (entropy : bytes) (now : string) : M unit :=
  fun self =>
    match private_key self with
    | None => (Raise (ValueError "Generate key pair first."), self)
    | Some sk =>
        match public_key self with
        | None => (Raise (TypeError "Expecting one of DSAPublicKey, RSAPublicKey, EllipticCurvePublicKey, Ed25519PublicKey, Ed448PublicKey, X25519PublicKey, or X448PublicKey."), self)
        | Some pk =>
            (c <~ lift (x509_self_signed subject_name pk entropy now sk);;
             set_certificate (Some c)) self
        end
    end.

(** [_derive_key_from_password(password, salt)] *)
Definition _derive_key_from_password (password : string) (salt : bytes) : bytes :=
  pbkdf2_derive (str_encode password) salt.

(** The part of [load_keystore] between reading the file and the first
    assignment: down to [keystore_data = json.loads(...)]. *)
Definition read_keystore (keystore : gmap string value) (password : string)
    : result (gmap string value) :=
  salt <- (v <- getitem keystore "salt";; b64decode v);;
  iv <- (v <- getitem keystore "iv";; b64decode v);;
  encrypted_data <- (v <- getitem keystore "data";; b64decode v);;
  let key := _derive_key_from_password password salt in
  decrypted_padded <- aes_cbc_decrypt key iv encrypted_data;;
  decrypted_data <- unpad decrypted_padded;;
  text <- bytes_decode decrypted_data;;
  json_loads text.

(** The body of the [try] in [load_keystore]. *)
Definition load_keystore_try (f : file (gmap string value)) (password : string)
    : M unit :=
  keystore <~ lift (match f with
                    | Stored keystore => Ok keystore
                    | Garbled => Raise (JSONDecodeError "Expecting value")
                    | Missing => Raise (Exception "No such file or directory")
                    end);;
  keystore_data <~ lift (read_keystore keystore password);;
  sk <~ lift (v <- getitem keystore_data "private_key";;
              private_pem <- b64decode v;;
              load_pem_private_key private_pem);;
  _ <~ set_private_key sk;;
  pk <~ lift (v <- getitem keystore_data "public_key";;
              public_pem <- b64decode v;;
              load_pem_public_key public_pem);;
  _ <~ set_public_key pk;;
  match keystore_data !! "certificate" with
  | Some v =>
      c <~ lift (cert_pem <- b64decode v;; load_pem_x509_certificate cert_pem);;
      set_certificate (Some c)
  | None => set_certificate None
  end.

(** [load_keystore(password)] on the keystore file [f]: [False] when the
    file does not exist, otherwise [True] if the [try] body completes and
    [False] if anything in it raises. *)
Definition load_keystore (f : file (gmap string value)) (password : string)
    (self : KeyManager) : bool * KeyManager :=
  match f with
  | Missing => (false, self)
  | _ =>
      match load_keystore_try f password self with
      | (Ok _, self') => (true, self')
      | (Raise _, self') => (false, self')
      end
  end.

Definition get_public_key (self : KeyManager) : option PubKey := public_key self.
Definition get_private_key (self : KeyManager) : option PrivKey := private_key self.
Definition get_certificate (self : KeyManager) : option Cert := certificate self.

(** [get_certificate_serial()]: [str(serial_number)] or [None]. *)
Definition get_certificate_serial (self : KeyManager) : value :=
  match certificate self with
  | Some c => VStr (str_of_int (cert_serial_number c))
  | None => VNone
  end.

(** [export_certificate_pem()]: the PEM text or [None]. *)
Definition export_certificate_pem (self : KeyManager) : result (option string) :=
  match certificate self with
  | None => Ok None
  | Some c => pem <- bytes_decode (cert_public_bytes c);; Ok (Some pem)
  end.

End Program.

Section Protocol.

Context {B : Backend}.

(** ** CryptoManager (crypto_manager.py) *)

(** A CryptoManager holds only [self.key_manager]; its methods take the
    KeyManager [km] and, where they consult revocation, the ledger file. *)

(** [self.key_manager.get_private_key().<method>(...)] on a manager that
    holds no key. *)
Definition need_private (km : KeyManager) (method : string) : result PrivKey :=
  match get_private_key km with
  | Some sk => Ok sk
  | None =>
      Raise (AttributeError ("'NoneType' object has no attribute '" +:+ method +:+ "'"))
  end.

Definition need_public (o : option PubKey) (method : string) : result PubKey :=
  match o with
  | Some pk => Ok pk
  | None =>
      Raise (AttributeError ("'NoneType' object has no attribute '" +:+ method +:+ "'"))
  end.

(** [encrypt_entry(plaintext)]; [aes_key] and [iv] are the two
    [os.urandom] draws, [seed] the OAEP randomness, [now] the clock. *)
Definition encrypt_entry (km : KeyManager) (plaintext : string)
    (aes_key iv seed : bytes) (now : string) : result (gmap string value) :=
  let plaintext_bytes := str_encode plaintext in
  padded_plaintext <- pad16 plaintext_bytes;;
  ciphertext <- aes_cbc_encrypt aes_key iv padded_plaintext;;
  public_key <- need_public (get_public_key km) "encrypt";;
  encrypted_aes_key <- oaep_encrypt public_key seed aes_key;;
  Ok ({[ "encrypted_key" := VStr (b64encode encrypted_aes_key);
         "iv" := VStr (b64encode iv);
         "ciphertext" := VStr (b64encode ciphertext);
         "timestamp" := VStr (now +:+ "Z") ]} : gmap string value).

(** The body of the [try] in [decrypt_entry]. *)
Definition decrypt_entry_try (km : KeyManager) (encrypted_data : gmap string value)
    : result string :=
  encrypted_aes_key <- (v <- getitem encrypted_data "encrypted_key";; b64decode v);;
  iv <- (v <- getitem encrypted_data "iv";; b64decode v);;
  ciphertext <- (v <- getitem encrypted_data "ciphertext";; b64decode v);;
  private_key <- need_private km "decrypt";;
  aes_key <- oaep_decrypt private_key encrypted_aes_key;;
  padded_plaintext <- aes_cbc_decrypt aes_key iv ciphertext;;
  plaintext <- unpad padded_plaintext;;
  bytes_decode plaintext.

(** [decrypt_entry(encrypted_data)]:
    [except Exception as e: raise Exception(f"Decryption failed: {str(e)}")]. *)
Definition decrypt_entry (km : KeyManager) (encrypted_data : gmap string value)
    : result string :=
  match decrypt_entry_try km encrypted_data with
  | Ok plaintext => Ok plaintext
  | Raise e => Raise (Exception ("Decryption failed: " +:+ exn_str e))
  end.

(** The signed structure of [_prepare_signed_data] and [verify_signature]:
    a [str] is encoded, [bytes] are base64-encoded, anything else is
    passed to [json.dumps] as it is. *)
Definition signed_structure (data timestamp : value) : list (string * value) :=
  let data := match data with VStr s => VBytes (str_encode s) | _ => data end in
  [ ("data", match data with VBytes b => VStr (b64encode b) | _ => data end);
    ("timestamp", timestamp) ].

Definition _prepare_signed_data (data : value) (now : string) : result bytes :=
  text <- json_dumps (signed_structure data (VStr (now +:+ "Z")));;
  Ok (str_encode text).

(** [sign_entry(data)]; [salt] is the PSS randomness. *)
Definition sign_entry (km : KeyManager) (data : value) (salt : bytes)
    (now : string) : result (gmap string value) :=
  prepared <- _prepare_signed_data data now;;
  private_key <- need_private km "sign";;
  signature <- pss_sign private_key salt prepared;;
  text <- bytes_decode prepared;;
  signed_structure <- json_loads text;;
  signed_timestamp <- getitem signed_structure "timestamp";;
  let cert_serial := get_certificate_serial km in
  Ok ({[ "signature" := VStr (b64encode signature);
         "signed_timestamp" := signed_timestamp;
         "cert_serial" := cert_serial ]} : gmap string value).

(** The body of the [try] in [verify_signature]. The freshness check at
    its end only prints, inside a [try] of its own that swallows
    everything, so it does not show in the result. *)
Definition verify_signature_try (km : KeyManager) (ledger : Ledger.t)
    (data signature_b64 timestamp cert_serial : value)
    (public_key : option PubKey) (certificate : option Cert)
    : result (bool * bool) :=
  is_revoked <- (if truthy cert_serial
                 then Ledger.is_revoked ledger cert_serial
                 else Ok false);;
  text <- json_dumps (signed_structure data timestamp);;
  let prepared := str_encode text in
  signature <- b64decode signature_b64;;
  pub_key <- need_public
               match certificate with
               | Some c => Some (cert_public_key c)
               | None =>
                   match public_key with
                   | Some pk => Some pk
                   | None => get_public_key km
                   end
               end "verify";;
  _ <- pss_verify pub_key signature prepared;;
  Ok (true, is_revoked).

(** [verify_signature(data, signature_b64, timestamp, cert_serial=None,
    public_key=None, certificate=None)] with its two handlers. *)
Definition verify_signature (km : KeyManager) (ledger : Ledger.t)
    (data signature_b64 timestamp cert_serial : value)
    (public_key : option PubKey) (certificate : option Cert) : bool * bool :=
  match verify_signature_try km ledger data signature_b64 timestamp
          cert_serial public_key certificate with
  | Ok verdict => verdict
  | Raise InvalidSignature => (false, false)
  | Raise _ => (false, false)
  end.

(** [encrypt_and_sign(plaintext)] *)
Definition encrypt_and_sign (km : KeyManager) (plaintext : string)
    (aes_key iv seed salt : bytes) (now1 now2 : string)
    : result (gmap string value) :=
  encrypted <- encrypt_entry km plaintext aes_key iv seed now1;;
  ciphertext <- getitem encrypted "ciphertext";;
  signature_info <- sign_entry km ciphertext salt now2;;
  signature <- getitem signature_info "signature";;
  signed_timestamp <- getitem signature_info "signed_timestamp";;
  cert_serial <- getitem signature_info "cert_serial";;
  Ok (<["cert_serial" := cert_serial]>
        (<["signed_timestamp" := signed_timestamp]>
           (<["signature" := signature]> encrypted))).

(** [key in d] *)
Definition contains (d : gmap string value) (k : string) : bool :=
  bool_decide (is_Some (d !! k)).

(** [verify_and_decrypt(encrypted_data)] *)
Definition verify_and_decrypt (km : KeyManager) (ledger : Ledger.t)
    (encrypted_data : gmap string value) : result (string * bool * bool) :=
  verdict <- (if contains encrypted_data "signature"
                 && contains encrypted_data "signed_timestamp"
              then
                let cert_serial := default VNone (encrypted_data !! "cert_serial") in
                ciphertext <- getitem encrypted_data "ciphertext";;
                signature <- getitem encrypted_data "signature";;
                signed_timestamp <- getitem encrypted_data "signed_timestamp";;
                Ok (verify_signature km ledger ciphertext signature
                      signed_timestamp cert_serial None None)
              else Ok (false, false));;
  plaintext <- decrypt_entry km encrypted_data;;
  Ok (plaintext, verdict.1, verdict.2).

(** *** Export and import *)

(** The dict [export_entry] builds. *)
Record package : Type := {
  entry_id : value;
  title : value;
  created : value;
  encrypted_data : gmap string value;
  signer_certificate : string
}.

(** [export_entry(entry_id, metadata, encrypted_data)] *)
Definition export_entry (km : KeyManager) (entry_id : value)
    (metadata encrypted_data : gmap string value) : result package :=
  cert_pem <- export_certificate_pem km;;
  match cert_pem with
  | None => Raise (ValueError "No certificate available to export.")
  | Some pem =>
      if String.eqb pem ""
      then Raise (ValueError "No certificate available to export.")
      else
        title <- getitem metadata "title";;
        created <- getitem metadata "created";;
        Ok {| entry_id := entry_id;
              title := title;
              created := created;
              encrypted_data := encrypted_data;
              signer_certificate := pem |}
  end.

(** [import_entry(package)], run by the importer's CryptoManager over the
    importer's KeyManager [km]. *)
Definition import_entry (km : KeyManager) (ledger : Ledger.t) (p : package)
    : result (gmap string value * gmap string value * bool * bool * Cert) :=
  let cert_pem := str_encode (signer_certificate p) in
  cert <- load_pem_x509_certificate cert_pem;;
  let cert_serial := VStr (str_of_int (cert_serial_number cert)) in
  is_revoked <- Ledger.is_revoked ledger cert_serial;;
  let enc_data := encrypted_data p in
  ciphertext <- getitem enc_data "ciphertext";;
  signature <- getitem enc_data "signature";;
  signed_timestamp <- getitem enc_data "signed_timestamp";;
  let '(sig_valid, _) :=
    verify_signature km ledger ciphertext signature signed_timestamp
      cert_serial None (Some cert) in
  imported_from <- match cert_common_names cert with
                   | cn :: _ => Ok cn
                   | [] => Raise (IndexError "list index out of range")
                   end;;
  let metadata : gmap string value :=
    {[ "title" := title p;
       "created" := created p;
       "imported_from" := VStr imported_from ]} in
  Ok (metadata, encrypted_data p, sig_valid, is_revoked, cert).

End Protocol.

(** ** Vocabulary of the statements *)

Section Vocabulary.

Context {B : Backend}.

(** The state [generate_key_pair] leaves: a private key and the public
    key derived from it. *)
Definition holds_key_pair (km : KeyManager) (sk : PrivKey) : Prop :=
  private_key km = Some sk /\ public_key km = Some (public_key_of sk).

(** The state enrollment leaves ([generate_key_pair] then
    [generate_self_signed_certificate]): the key pair and a certificate
    issued for its public key. *)
Definition holds_identity (km : KeyManager) (sk : PrivKey) (c : Cert) : Prop :=
  holds_key_pair km sk /\ certificate km = Some c /\
  cert_public_key c = public_key_of sk /\
  cert_common_names c <> [].

(** Where a failing [decrypt_entry] failed: at
    [private_key.decrypt(encrypted_aes_key, OAEP)], the fields having
    decoded, ... *)
Definition fails_at_unwrap (km : KeyManager) (env : gmap string value) : Prop :=
  exists ek iv ct sk e,
    (v <- getitem env "encrypted_key";; b64decode v) = Ok ek /\
    (v <- getitem env "iv";; b64decode v) = Ok iv /\
    (v <- getitem env "ciphertext";; b64decode v) = Ok ct /\
    private_key km = Some sk /\
    oaep_decrypt sk ek = Raise e.

(** ... or at the two lines that strip the padding, the key having been
    unwrapped and the ciphertext decrypted. *)
Definition fails_at_unpad (km : KeyManager) (env : gmap string value) : Prop :=
  exists ek iv ct sk aes_key padded e,
    (v <- getitem env "encrypted_key";; b64decode v) = Ok ek /\
    (v <- getitem env "iv";; b64decode v) = Ok iv /\
    (v <- getitem env "ciphertext";; b64decode v) = Ok ct /\
    private_key km = Some sk /\
    oaep_decrypt sk ek = Ok aes_key /\
    aes_cbc_decrypt aes_key iv ct = Ok padded /\
    unpad padded = Raise e.

(** The two failures raise exceptions with the same text. *)
Definition same_failure_text (km : KeyManager) : Prop :=
  forall env1 env2 e1 e2,
    fails_at_unwrap km env1 ->
    fails_at_unpad km env2 ->
    decrypt_entry km env1 = Raise e1 ->
    decrypt_entry km env2 = Raise e2 ->
    exn_str e1 = exn_str e2.

(** A key size under 2048 bits makes [generate_key_pair] raise. *)
Definition rejects_weak_keys : Prop :=
  forall (size : Z) entropy km,
    (size < 2048)%Z ->
    exists e km', generate_key_pair size entropy km = (Raise e, km').

End Vocabulary.

(** ** A reference backend *)

(** An executable stand-in for the libraries: keys are numbered, a
    ciphertext or a signature names the key that made it, and the codecs
    are simple enough to run and to invert. It shows the contracts of
    [BackendLaws] can be met together and lets the methods above be
    evaluated. *)
Module Mock.

Record key : Type := { kid : nat; kbits : nat }.

Record cert : Type := { c_serial : nat; c_key : key; c_cn : string }.

(** *** Numbers in unary, on bytes and on characters *)

Definition unary (n : nat) : bytes := repeat Byte.x01 n ++ [Byte.x00].

Fixpoint take_unary (b : bytes) : option (nat * bytes) :=
  match b with
  | Byte.x00 :: rest => Some (0, rest)
  | Byte.x01 :: rest =>
      match take_unary rest with
      | Some (n, r) => Some (S n, r)
      | None => None
      end
  | _ => None
  end.

Definition tally (n : nat) : list ascii := repeat "1"%char n ++ ["|"%char].

Fixpoint take_tally (s : list ascii) : option (nat * list ascii) :=
  match s with
  | [] => None
  | a :: rest =>
      if Ascii.eqb a "|" then Some (0, rest)
      else if Ascii.eqb a "1" then
        match take_tally rest with
        | Some (n, r) => Some (S n, r)
        | None => None
        end
      else None
  end.

(** *** The text codec standing in for JSON: length-prefixed fields *)

Definition put_str (s : string) : list ascii :=
  let l := list_ascii_of_string s in tally (length l) ++ l.

Definition take_str (s : list ascii) : option (string * list ascii) :=
  match take_tally s with
  | Some (n, r) =>
      if n <=? length r then Some (string_of_list_ascii (take n r), drop n r)
      else None
  | None => None
  end.

Definition put_value (v : value) : result (list ascii) :=
  match v with
  | VNone => Ok ["n"%char]
  | VInt z => Ok ((if (z <? 0)%Z then "-"%char else "+"%char) :: tally (Z.abs_nat z))
  | VStr s => Ok ("s"%char :: put_str s)
  | VBytes _ => Raise (TypeError "Object of type bytes is not JSON serializable")
  end.

Definition take_value (s : list ascii) : option (value * list ascii) :=
  match s with
  | [] => None
  | a :: r =>
      if Ascii.eqb a "n" then Some (VNone, r)
      else if Ascii.eqb a "s" then
        match take_str r with
        | Some (x, r') => Some (VStr x, r')
        | None => None
        end
      else if Ascii.eqb a "+" then
        match take_tally r with
        | Some (n, r') => Some (VInt (Z.of_nat n), r')
        | None => None
        end
      else if Ascii.eqb a "-" then
        match take_tally r with
        | Some (n, r') => Some (VInt (- Z.of_nat n), r')
        | None => None
        end
      else None
  end.

Fixpoint put_items (items : list (string * value)) : result (list ascii) :=
  match items with
  | [] => Ok []
  | (k, v) :: rest =>
      x <- put_value v;;
      xs <- put_items rest;;
      Ok (put_str k ++ x ++ xs)
  end.

Fixpoint take_items (fuel : nat) (s : list ascii) : option (list (string * value)) :=
  match s with
  | [] => Some []
  | _ =>
      match fuel with
      | 0 => None
      | S fuel' =>
          match take_str s with
          | None => None
          | Some (k, r) =>
              match take_value r with
              | None => None
              | Some (v, r') =>
                  match take_items fuel' r' with
                  | None => None
                  | Some rest => Some ((k, v) :: rest)
                  end
              end
          end
      end
  end.

Definition dumps (items : list (string * value)) : result string :=
  l <- put_items items;; Ok (string_of_list_ascii l).

Definition loads (s : string) : result (gmap string value) :=
  let l := list_ascii_of_string s in
  match take_items (length l) l with
  | Some items => Ok (list_to_map items)
  | None => Raise (JSONDecodeError "Expecting value")
  end.

(** *** Keys and certificates *)

Definition generate (e size : Z) (entropy : bytes) : result key :=
  if (size <? 512)%Z
  then Raise (ValueError "key_size must be at least 512-bits.")
  else Ok {| kid := length entropy; kbits := Z.to_nat size |}.

Definition encrypt (pk : key) (seed m : bytes) : result bytes :=
  if 8 * (length m + 66) <=? kbits pk
  then Ok (unary (kid pk) ++ m)
  else Raise (ValueError "Encryption failed").

Definition decrypt (sk : key) (c : bytes) : result bytes :=
  match take_unary c with
  | Some (k, m) =>
      if k =? kid sk then Ok m else Raise (ValueError "Decryption failed")
  | None => Raise (ValueError "Ciphertext length must be equal to key size.")
  end.

Definition sign (sk : key) (salt m : bytes) : result bytes :=
  Ok (unary (kid sk) ++ m).

Definition verify (pk : key) (s m : bytes) : result unit :=
  if bool_decide (s = unary (kid pk) ++ m) then Ok tt else Raise InvalidSignature.

Definition key_pem (k : key) : bytes := unary (kid k) ++ unary (kbits k).

Definition load_key (b : bytes) : result key :=
  match take_unary b with
  | Some (i, r) =>
      match take_unary r with
      | Some (n, []) => Ok {| kid := i; kbits := n |}
      | _ => Raise (ValueError "Could not deserialize key data.")
      end
  | None => Raise (ValueError "Could not deserialize key data.")
  end.

Definition cert_pem (c : cert) : bytes :=
  unary (c_serial c) ++ unary (kid (c_key c)) ++ unary (kbits (c_key c))
    ++ list_byte_of_string (c_cn c).

Definition load_cert (b : bytes) : result cert :=
  match take_unary b with
  | Some (s, r) =>
      match take_unary r with
      | Some (i, r') =>
          match take_unary r' with
          | Some (n, cn) =>
              Ok {| c_serial := s;
                    c_key := {| kid := i; kbits := n |};
                    c_cn := string_of_list_byte cn |}
          | None => Raise (ValueError "Unable to load PEM file.")
          end
      | None => Raise (ValueError "Unable to load PEM file.")
      end
  | None => Raise (ValueError "Unable to load PEM file.")
  end.

Definition self_signed (cn : string) (pk : key) (entropy : bytes)
    (now : string) (sk : key) : result cert :=
  let n := length (list_byte_of_string cn) in
  if (1 <=? n) && (n <=? 64)
  then Ok {| c_serial := S (length entropy); c_key := pk; c_cn := cn |}
  else Raise (ValueError "Attribute's length must be >= 1 and <= 64").

(** *** The block cipher mode: whole blocks, tagged with the key *)

Definition key_len_ok (k : bytes) : bool :=
  (length k =? 16) || (length k =? 24) || (length k =? 32).

Definition cbc_encrypt (k iv d : bytes) : result bytes :=
  if negb (key_len_ok k) then Raise (ValueError "Invalid key size for AES.")
  else if negb (length iv =? 16) then Raise (ValueError "Invalid IV size for CBC.")
  else if negb (length d mod 16 =? 0)
  then Raise (ValueError "The length of the provided data is not a multiple of the block length.")
  else Ok (take 16 k ++ d).

Definition cbc_decrypt (k iv c : bytes) : result bytes :=
  if negb (key_len_ok k) then Raise (ValueError "Invalid key size for AES.")
  else if negb (length iv =? 16) then Raise (ValueError "Invalid IV size for CBC.")
  else if negb (length c mod 16 =? 0)
  then Raise (ValueError "The length of the provided data is not a multiple of the block length.")
  else if bool_decide (take 16 c = take 16 k) then Ok (drop 16 c)
  else Ok c.

Definition derive (password salt : bytes) : bytes :=
  take 32 (password ++ salt ++ repeat Byte.x00 32).

Definition b64dec (v : value) : result bytes :=
  match v with
  | VStr s => Ok (list_byte_of_string s)
  | _ => Raise (TypeError "argument should be a bytes-like object or ASCII string")
  end.

Definition backend : Backend := {|
  PrivKey := key;
  PubKey := key;
  Cert := cert;
  rsa_generate_private_key := generate;
  public_key_of := fun sk => sk;
  key_size := fun pk => Z.of_nat (kbits pk);
  oaep_encrypt := encrypt;
  oaep_decrypt := decrypt;
  pss_sign := sign;
  pss_verify := verify;
  aes_cbc_encrypt := cbc_encrypt;
  aes_cbc_decrypt := cbc_decrypt;
  pbkdf2_derive := derive;
  b64encode := string_of_list_byte;
  b64decode := b64dec;
  str_encode := list_byte_of_string;
  bytes_decode := fun b => Ok (string_of_list_byte b);
  json_dumps := dumps;
  json_loads := loads;
  load_pem_private_key := load_key;
  load_pem_public_key := load_key;
  x509_self_signed := self_signed;
  cert_public_key := c_key;
  cert_serial_number := fun c => Z.of_nat (c_serial c);
  cert_common_names := fun c => [c_cn c];
  cert_public_bytes := cert_pem;
  load_pem_x509_certificate := load_cert
|}.

End Mock.

(** ** Sample data on the reference backend *)

Module Sample.
Import Mock.

Abbreviation KM := (@KeyManager backend).

Definition alice_key : key := {| kid := 3; kbits := 2048 |}.

Definition alice_cert : cert :=
  {| c_serial := 41; c_key := alice_key; c_cn := "alice" |}.

(** Alice after enrollment. *)
Definition alice : KM :=
  @Build_KeyManager backend (Some alice_key) (Some alice_key) (Some alice_cert).

(** Bob holds another key pair and no certificate. *)
Definition bob_key : key := {| kid := 8; kbits := 2048 |}.

Definition bob : KM :=
  @Build_KeyManager backend (Some bob_key) (Some bob_key) None.

Definition key32 : bytes := repeat Byte.x6b 32.
Definition iv16 : bytes := repeat Byte.x69 16.
Definition clock : string := "2024-05-01T10:00:00".

Definition meta : gmap string value :=
  {[ "title" := VStr "Monday"; "created" := VStr "2024-05-01T09:59:00Z" ]}.

(** A ledger with one earlier revocation, by someone else. *)
Definition ledger : Ledger.t :=
  Ledger.run [Ledger.Revoke (VStr "7") (VStr "carol") "2024-04-01T08:00:00"] Missing.

Definition or_empty (r : result (gmap string value)) : gmap string value :=
  match r with
  | Ok d => d
  | Raise _ => ∅
  end.

(** What [sign_entry] gives Alice for "hello". *)
Definition alices_signature : gmap string value :=
  or_empty (sign_entry alice (VStr "hello") [] clock).

(** What Alice encrypted and signed. *)
Definition alices_signed_envelope : gmap string value :=
  or_empty (encrypt_and_sign alice "hello world" key32 iv16 [] [] clock clock).

(** An envelope Alice encrypted for herself, unsigned. *)
Definition alices_envelope : gmap string value :=
  or_empty (encrypt_entry alice "hello world" key32 iv16 [] clock).

(** An envelope encrypted for Bob: Alice cannot unwrap its key. *)
Definition bobs_envelope : gmap string value :=
  or_empty (encrypt_entry bob "hello world" key32 iv16 [] clock).

(** Alice's envelope with the ciphertext cut down to nothing: the key
    unwraps, the cipher returns no bytes, and there is no last byte to
    read the padding length from. *)
Definition emptied_envelope : gmap string value :=
  <["ciphertext" := VStr ""]> alices_envelope.

(** A keystore file for the password ["pw"] whose encrypted payload holds
    Bob's private key and nothing else. *)
Definition payload_without_public_key : list (string * value) :=
  [ ("private_key", VStr (string_of_list_byte (key_pem bob_key))) ].

Definition broken_keystore : gmap string value :=
  or_empty
    (text <- dumps payload_without_public_key;;
     padded <- pad16 (list_byte_of_string text);;
     let salt := "salt" in
     let iv := "iviviviviviviviv" in
     let key := derive (list_byte_of_string "pw") (list_byte_of_string salt) in
     data <- cbc_encrypt key (list_byte_of_string iv) padded;;
     Ok ({[ "salt" := VStr salt;
            "iv" := VStr iv;
            "data" := VStr (string_of_list_byte data) ]} : gmap string value)).

End Sample.

(** ** Saving the keystore, exporting keys (key_manager.py) *)

(** The PEM writers [save_keystore] and the export methods call, beside
    the readers of [Backend]. *)
Class PemBackend (B : Backend) : Type := {
  (** [private_key.private_bytes(PEM, PKCS8, NoEncryption())] *)
  private_bytes : PrivKey -> bytes;
  (** [private_key.private_bytes(PEM, PKCS8, BestAvailableEncryption(pw))];
      the last argument is the encryption's randomness *)
  private_bytes_encrypted : PrivKey -> bytes -> bytes -> bytes;
  (** [public_key.public_bytes(PEM, SubjectPublicKeyInfo)] *)
  public_bytes : PubKey -> bytes
}.

Class PemLaws (B : Backend) (P : PemBackend B) : Prop := {
  load_private_bytes : forall sk, load_pem_private_key (private_bytes sk) = Ok sk;
  load_public_bytes : forall pk, load_pem_public_key (public_bytes pk) = Ok pk;
  (** PEM is ASCII text, and never empty. *)
  private_pem_text : forall sk, exists s, bytes_decode (private_bytes sk) = Ok s;
  private_pem_encrypted_text : forall sk pw r,
    exists s, bytes_decode (private_bytes_encrypted sk pw r) = Ok s;
  public_pem_text : forall pk, exists s, bytes_decode (public_bytes pk) = Ok s;
  cert_pem_nonempty : forall c, cert_public_bytes c <> [];
  (** PBKDF2 is asked for 32 bytes. *)
  pbkdf2_length : forall pw salt, length (pbkdf2_derive pw salt) = 32;
  (** [json.dumps] accepts every dict whose values are strings. *)
  json_dumps_strings : forall items,
    Forall (fun kv => exists s, kv.2 = VStr s) items ->
    exists text, json_dumps items = Ok text
}.

Section Keystore_save.

Context {B : Backend} {P : PemBackend B}.

(** The two files a KeyManager writes: [keystore_path] and [cert_path]. *)
Record key_files : Type := {
  keystore_file : file (gmap string value);
  cert_file : option bytes
}.

(** The items of [keystore_data], in insertion order. *)
Definition keystore_items (private_pem public_pem : bytes)
    (cert_pem : option bytes) : list (string * value) :=
  [ ("private_key", VStr (b64encode private_pem));
    ("public_key", VStr (b64encode public_pem)) ]
  ++ match cert_pem with
     | Some (x :: pem) => [ ("certificate", VStr (b64encode (x :: pem))) ]
     | _ => []
     end.

(** [save_keystore(password)]; [salt] and [iv] are the two [os.urandom]
    draws. Returns the method's outcome and the files afterwards. *)
Definition save_keystore (password : string) (salt iv : bytes)
    (self : KeyManager) (disk : key_files) : result unit * key_files :=
  match private_key self with
  | None => (Raise (ValueError "No keys to save. Generate keys first."), disk)
  | Some sk =>
      let private_pem := private_bytes sk in
      match public_key self with
      | None =>
          (Raise (AttributeError "'NoneType' object has no attribute 'public_bytes'"),
           disk)
      | Some pk =>
          let public_pem := public_bytes pk in
          let cert_pem :=
            match certificate self with
            | Some c => Some (cert_public_bytes c)
            | None => None
            end in
          let keystore_data := keystore_items private_pem public_pem cert_pem in
          let key := _derive_key_from_password password salt in
          match (text <- json_dumps keystore_data;;
                 padded_data <- pad16 (str_encode text);;
                 aes_cbc_encrypt key iv padded_data) with
          | Raise e => (Raise e, disk)
          | Ok encrypted_data =>
              let keystore : gmap string value :=
                {[ "salt" := VStr (b64encode salt);
                   "iv" := VStr (b64encode iv);
                   "data" := VStr (b64encode encrypted_data) ]} in
              (Ok tt,
               {| keystore_file := Stored keystore;
                  cert_file := match cert_pem with
                               | Some pem => Some pem
                               | None => cert_file disk
                               end |})
          end
      end
  end.

(** [export_public_key_pem()] *)
Definition export_public_key_pem (self : KeyManager) : result (option string) :=
  match public_key self with
  | None => Ok None
  | Some pk => pem <- bytes_decode (public_bytes pk);; Ok (Some pem)
  end.

(** [export_private_key_pem(password=None)]; [entropy] is what the
    password encryption draws. *)
Definition export_private_key_pem (self : KeyManager) (password : value)
    (entropy : bytes) : result (option string) :=
  match private_key self with
  | None => Ok None
  | Some sk =>
      if truthy password then
        match password with
        | VStr pw =>
            pem <- bytes_decode (private_bytes_encrypted sk (str_encode pw) entropy);;
            Ok (Some pem)
        | VInt _ => Raise (AttributeError "'int' object has no attribute 'encode'")
        | _ => Raise (AttributeError "'bytes' object has no attribute 'encode'")
        end
      else
        pem <- bytes_decode (private_bytes sk);; Ok (Some pem)
  end.

End Keystore_save.

(** ** Importing what was read from a file (crypto_manager.py, main.py) *)

(** [import_entry_dialog] hands [import_entry] whatever [json.load] made
    of the chosen file. A member of such a dict is taken to be [None], a
    number, a string, or an object of those (the envelope). *)
Inductive member : Type :=
  | Scalar (v : value)
  | Object (d : gmap string value).

Section Import_dict.

Context {B : Backend}.

(** [package[k]] *)
Definition member_of (package : gmap string member) (k : string) : result member :=
  match package !! k with
  | Some m => Ok m
  | None => Raise (KeyError k)
  end.

(** [m.encode()]: a method of [str] only. *)
Definition encode_member (m : member) : result bytes :=
  match m with
  | Scalar (VStr s) => Ok (str_encode s)
  | Scalar VNone =>
      Raise (AttributeError "'NoneType' object has no attribute 'encode'")
  | Scalar (VInt _) =>
      Raise (AttributeError "'int' object has no attribute 'encode'")
  | Scalar (VBytes _) =>
      Raise (AttributeError "'bytes' object has no attribute 'encode'")
  | Object _ =>
      Raise (AttributeError "'dict' object has no attribute 'encode'")
  end.

(** What [m['...']] needs of [m]: only a dict takes a string key. *)
Definition as_dict (m : member) : result (gmap string value) :=
  match m with
  | Object d => Ok d
  | Scalar (VStr _) => Raise (TypeError "string indices must be integers")
  | Scalar VNone => Raise (TypeError "'NoneType' object is not subscriptable")
  | Scalar (VInt _) => Raise (TypeError "'int' object is not subscriptable")
  | Scalar (VBytes _) => Raise (TypeError "byte indices must be integers or slices, not str")
  end.

(** [import_entry(package)] on any such dict, line by line: every
    look-up can raise [KeyError], in the order the code makes them.
    [import_entry] above is this method on the packages [export_entry]
    builds. *)
Definition import_entry_dict (km : KeyManager) (ledger : Ledger.t)
    (package : gmap string member)
    : result (gmap string member * gmap string value * bool * bool * Cert) :=
  cert_pem <- (m <- member_of package "signer_certificate";; encode_member m);;
  cert <- load_pem_x509_certificate cert_pem;;
  let cert_serial := VStr (str_of_int (cert_serial_number cert)) in
  is_revoked <- Ledger.is_revoked ledger cert_serial;;
  enc_data <- member_of package "encrypted_data";;
  ciphertext <- (d <- as_dict enc_data;; getitem d "ciphertext");;
  signature <- (d <- as_dict enc_data;; getitem d "signature");;
  signed_timestamp <- (d <- as_dict enc_data;; getitem d "signed_timestamp");;
  let '(sig_valid, _) :=
    verify_signature km ledger ciphertext signature signed_timestamp
      cert_serial None (Some cert) in
  title <- member_of package "title";;
  created <- member_of package "created";;
  imported_from <- match cert_common_names cert with
                   | cn :: _ => Ok cn
                   | [] => Raise (IndexError "list index out of range")
                   end;;
  let metadata : gmap string member :=
    {[ "title" := title;
       "created" := created;
       "imported_from" := Scalar (VStr imported_from) ]} in
  encrypted_data <- (m <- member_of package "encrypted_data";; as_dict m);;
  Ok (metadata, encrypted_data, sig_valid, is_revoked, cert).

(** The dict [export_entry] returns, as [json.dump] writes it and
    [json.load] reads it back. *)
Definition package_dict (p : package) : gmap string member :=
  {[ "entry_id" := Scalar (entry_id p);
     "title" := Scalar (title p);
     "created" := Scalar (created p);
     "encrypted_data" := Object (encrypted_data p);
     "signer_certificate" := Scalar (VStr (signer_certificate p)) ]}.

End Import_dict.

(** ** UserManager (user_manager.py) *)

(** [str.lower()], which the account look-ups compare by. *)
Class TextBackend : Type := {
  str_lower : string -> string
}.

(** [str(Path(dir) / name)], pathlib's join: [name] may hold separators,
    [.] and [..], or be absolute. *)
Class PathBackend : Type := {
  path_under : string -> string -> string
}.

Section Users.

Context {B : Backend} {P : PemBackend B} {T : TextBackend} {F : PathBackend}.

(** One element of [users_db['users']]. *)
Record user : Type := {
  username : string;
  full_name : string;
  password_hash : string;
  salt : string;
  user_dir : string;
  created_at : string
}.

(** [self.users_db['users']] and the file [users.json] that [_save_users]
    rewrites. *)
Record UserManager : Type := {
  users_db : list user;
  users_file : file (list user)
}.

(** The directories under [users/], by name, each with a KeyManager's two
    files. A user name is taken to be a single path component. *)
Definition files_of (disk : gmap string key_files) (dir : string) : key_files :=
  default {| keystore_file := Missing; cert_file := None |} (disk !! dir).

(** [__init__] with [_load_users]. *)
Definition open_user_manager (f : file (list user)) : result UserManager :=
  match f with
  | Missing => Ok {| users_db := []; users_file := f |}
  | Garbled => Raise (JSONDecodeError "Expecting value")
  | Stored users => Ok {| users_db := users; users_file := f |}
  end.

Definition _save_users (users : list user) : UserManager :=
  {| users_db := users; users_file := Stored users |}.

Definition _hash_password (password : string) (salt : bytes) : bytes :=
  pbkdf2_derive (str_encode password) salt.

(** [user['username'].lower() == username.lower()] *)
Definition same_name (u : user) (name : string) : bool :=
  bool_decide (str_lower (username u) = str_lower name).

Definition username_exists (self : UserManager) (name : string) : bool :=
  existsb (fun u => same_name u name) (users_db self).

(** What a method that returns [True] or a message returns. *)
Inductive answer : Type :=
  | Yes
  | No (msg : string).

(** What [register_user] takes from outside, in the order the code asks
    for it: the random draws, the clock readings, and what the file system
    answers to [user_dir.mkdir(exist_ok=True)] and to
    [open(self.users_file, 'w')] in [_save_users]. The code does not look
    at what [users_dir / username] is: with a separator in the name it
    lies deeper or elsewhere and [mkdir] may find no parent, and under the
    name of [users.json] the directory takes the place of the file, which
    then cannot be opened. So whether these two calls succeed is the file
    system's answer, given here. *)
Record draws : Type := {
  d_salt : bytes;
  d_mkdir : result unit;
  d_key : bytes;
  d_serial : bytes;
  d_now : string;
  d_keystore_salt : bytes;
  d_keystore_iv : bytes;
  d_created : string;
  d_save_users : result unit
}.

(** [register_user(username, password, full_name)]. [here] holds the two
    key files in the directory that [users_dir / username] denotes,
    whichever that is; the method touches no other key file. When
    [_save_users] cannot open [users.json] the exception leaves the method
    with the key files written and the record appended in memory. *)
Definition register_user (self : UserManager) (here : key_files)
    (name password fullname : string) (d : draws)
    : result answer * UserManager * key_files :=
  if String.length name <? 3
  then (Ok (No "Username must be at least 3 characters"), self, here)
  else if username_exists self name
  then (Ok (No "Username already exists"), self, here)
  else if String.length password <? 6
  then (Ok (No "Password must be at least 6 characters"), self, here)
  else
    let computed_hash := _hash_password password (d_salt d) in
    match d_mkdir d with
    | Raise e => (Raise e, self, here)
    | Ok _ =>
        match generate_key_pair 2048 (d_key d) new_key_manager with
        | (Raise e, _) => (Raise e, self, here)
        | (Ok _, km1) =>
            match generate_self_signed_certificate name (d_serial d) (d_now d) km1 with
            | (Raise e, _) => (Raise e, self, here)
            | (Ok _, km2) =>
                match save_keystore password (d_keystore_salt d) (d_keystore_iv d)
                        km2 here with
                | (Raise e, files) => (Raise e, self, files)
                | (Ok _, files) =>
                    let user_record :=
                      {| username := name;
                         full_name := fullname;
                         password_hash := b64encode computed_hash;
                         salt := b64encode (d_salt d);
                         user_dir := path_under "users" name;
                         created_at := d_created d |} in
                    let users := users_db self ++ [user_record] in
                    match d_save_users d with
                    | Ok _ => (Ok Yes, _save_users users, files)
                    | Raise e =>
                        (Raise e,
                         {| users_db := users; users_file := users_file self |},
                         files)
                    end
                end
            end
        end
    end.

(** The loop of [authenticate_user]. *)
Fixpoint authenticate_in (users : list user) (name password : string)
    : result (option user) :=
  match users with
  | [] => Ok None
  | u :: rest =>
      if same_name u name then
        salt_bytes <- b64decode (VStr (salt u));;
        let computed_hash := _hash_password password salt_bytes in
        stored_hash <- b64decode (VStr (password_hash u));;
        if bool_decide (computed_hash = stored_hash)
        then Ok (Some u)
        else authenticate_in rest name password
      else authenticate_in rest name password
  end.

Definition authenticate_user (self : UserManager) (name password : string)
    : result (option user) :=
  authenticate_in (users_db self) name password.

Definition list_users (self : UserManager) : list string :=
  map username (users_db self).

(** [get_user_info]: the record without ['password_hash'] and ['salt']. *)
Definition get_user_info (self : UserManager) (name : string)
    : option (string * string * string * string) :=
  match List.find (fun u => same_name u name) (users_db self) with
  | Some u => Some (username u, full_name u, user_dir u, created_at u)
  | None => None
  end.

(** The first record with the name, rewritten by [f]. *)
Fixpoint update_first (users : list user) (name : string) (f : user -> user)
    : option (list user) :=
  match users with
  | [] => None
  | u :: rest =>
      if same_name u name then Some (f u :: rest)
      else match update_first rest name f with
           | Some rest' => Some (u :: rest')
           | None => None
           end
  end.

(** [update_user_info(username, full_name=None)] *)
Definition update_user_info (self : UserManager) (name : string)
    (fullname : option string) : bool * UserManager :=
  let set_name u :=
    match fullname with
    | Some n => {| username := username u; full_name := n;
                   password_hash := password_hash u; salt := salt u;
                   user_dir := user_dir u; created_at := created_at u |}
    | None => u
    end in
  match update_first (users_db self) name set_name with
  | Some users => (true, _save_users users)
  | None => (false, self)
  end.

(** [change_password(username, old_password, new_password)]; [new_salt] is
    the [os.urandom] draw, [ks_salt] and [ks_iv] those of [save_keystore]. *)
Definition change_password (self : UserManager) (disk : gmap string key_files)
    (name old_password new_password : string) (new_salt ks_salt ks_iv : bytes)
    : result answer * UserManager * gmap string key_files :=
  match authenticate_user self name old_password with
  | Raise e => (Raise e, self, disk)
  | Ok None => (Ok (No "Current password is incorrect"), self, disk)
  | Ok (Some _) =>
      if String.length new_password <? 6
      then (Ok (No "New password must be at least 6 characters"), self, disk)
      else
        let new_hash := _hash_password new_password new_salt in
        let set_password u :=
          {| username := username u; full_name := full_name u;
             password_hash := b64encode new_hash; salt := b64encode new_salt;
             user_dir := user_dir u; created_at := created_at u |} in
        match update_first (users_db self) name set_password with
        | None => (Ok (No "User not found"), self, disk)
        | Some users =>
            let self' := _save_users users in
            match load_keystore (keystore_file (files_of disk name)) old_password
                    new_key_manager with
            | (true, km) =>
                match save_keystore new_password ks_salt ks_iv km (files_of disk name) with
                | (Ok _, files) => (Ok Yes, self', <[name := files]> disk)
                | (Raise e, _) => (Raise e, self', disk)
                end
            | (false, _) => (Ok Yes, self', disk)
            end
        end
  end.

(** [delete_user(username, password)] *)
Definition delete_user (self : UserManager) (name password : string)
    : result answer * UserManager :=
  match authenticate_user self name password with
  | Raise e => (Raise e, self)
  | Ok None => (Ok (No "Authentication failed"), self)
  | Ok (Some _) =>
      (Ok Yes,
       _save_users (List.filter (fun u => negb (same_name u name)) (users_db self)))
  end.

End Users.

Section UsersVocabulary.

Context {T : TextBackend}.

(** No two records share a name, letter case aside. *)
Definition unique_names (users : list user) : Prop :=
  NoDup (map (fun u => str_lower (username u)) users).

End UsersVocabulary.

(** ** DiaryStorage (diary_storage.py) *)

Module Diary.

(** One element of [index['entries']]. *)
Record meta : Type := {
  id : string;
  title : string;
  created : string;
  modified : string;
  tags : list string;
  filename : string
}.

(** [self.index['entries']], the file [index.json] that [_save_index]
    rewrites, and the entry files of the storage directory by name. *)
Record DiaryStorage : Type := {
  index : list meta;
  index_file : file (list meta);
  entry_files : gmap string (file (gmap string value))
}.

(** [__init__] with [_load_index], on a directory holding [f] as
    [index.json] and [files]. *)
Definition open_storage (f : file (list meta))
    (files : gmap string (file (gmap string value))) : result DiaryStorage :=
  match f with
  | Missing => Ok {| index := []; index_file := f; entry_files := files |}
  | Garbled => Raise (JSONDecodeError "Expecting value")
  | Stored entries => Ok {| index := entries; index_file := f; entry_files := files |}
  end.

(** [with open(entry_file, 'w') as f: json.dump(encrypted_data, f)]: the
    file holds the data, or is left unparsable when a value cannot be
    serialised, and then [TypeError] comes out. *)
Definition write_entry (files : gmap string (file (gmap string value)))
    (name : string) (encrypted_data : gmap string value)
    : result unit * gmap string (file (gmap string value)) :=
  if bool_decide (Ledger.entry_jsonable encrypted_data)
  then (Ok tt, <[name := Stored encrypted_data]> files)
  else (Raise (TypeError "Object of type bytes is not JSON serializable"),
        <[name := Garbled]> files).

(** [save_entry(title, encrypted_data, tags=None)]; [stamp], [created] and
    [modified] are the three readings of [datetime.now()], the first
    formatted by [strftime("%Y%m%d_%H%M%S_%f")]. *)
Definition save_entry (self : DiaryStorage) (title : string)
    (encrypted_data : gmap string value) (tags : option (list string))
    (stamp created modified : string) : result string * DiaryStorage :=
  let entry_id := stamp in
  let entry_metadata :=
    {| id := entry_id;
       title := title;
       created := created;
       modified := modified;
       tags := default [] tags;
       filename := entry_id +:+ ".json" |} in
  match write_entry (entry_files self) (filename entry_metadata) encrypted_data with
  | (Raise e, files) =>
      (Raise e, {| index := index self; index_file := index_file self;
                   entry_files := files |})
  | (Ok _, files) =>
      let entries := index self ++ [entry_metadata] in
      (Ok entry_id, {| index := entries; index_file := Stored entries;
                       entry_files := files |})
  end.

(** The first entry with the id, rewritten by [f]. *)
Fixpoint update_first (entries : list meta) (entry_id : string) (f : meta -> meta)
    : option (meta * list meta) :=
  match entries with
  | [] => None
  | e :: rest =>
      if String.eqb (id e) entry_id then Some (f e, f e :: rest)
      else match update_first rest entry_id f with
           | Some (m, rest') => Some (m, e :: rest')
           | None => None
           end
  end.

(** [update_entry(entry_id, title=None, encrypted_data=None, tags=None)];
    [now] is [datetime.now().isoformat()]. *)
Definition update_entry (self : DiaryStorage) (entry_id : string)
    (new_title : option string) (encrypted_data : option (gmap string value))
    (new_tags : option (list string)) (now : string) : result bool * DiaryStorage :=
  let change e :=
    {| id := id e;
       title := default (title e) new_title;
       created := created e;
       modified := now;
       tags := default (tags e) new_tags;
       filename := filename e |} in
  match update_first (index self) entry_id change with
  | None => (Ok false, self)
  | Some (entry_metadata, entries) =>
      match encrypted_data with
      | Some data =>
          match write_entry (entry_files self) (filename entry_metadata) data with
          | (Raise e, files) =>
              (Raise e, {| index := entries; index_file := index_file self;
                           entry_files := files |})
          | (Ok _, files) =>
              (Ok true, {| index := entries; index_file := Stored entries;
                           entry_files := files |})
          end
      | None =>
          (Ok true, {| index := entries; index_file := Stored entries;
                       entry_files := entry_files self |})
      end
  end.

(** [load_entry(entry_id)]: [None] stands for [(None, None)]. *)
Definition load_entry (self : DiaryStorage) (entry_id : string)
    : result (option (meta * gmap string value)) :=
  match List.find (fun e => String.eqb (id e) entry_id) (index self) with
  | None => Ok None
  | Some entry_metadata =>
      match entry_files self !! filename entry_metadata with
      | None | Some Missing => Ok None
      | Some Garbled => Raise (JSONDecodeError "Expecting value")
      | Some (Stored encrypted_data) => Ok (Some (entry_metadata, encrypted_data))
      end
  end.

(** The first entry with the id, taken out. *)
Fixpoint pop_first (entries : list meta) (entry_id : string)
    : option (meta * list meta) :=
  match entries with
  | [] => None
  | e :: rest =>
      if String.eqb (id e) entry_id then Some (e, rest)
      else match pop_first rest entry_id with
           | Some (m, rest') => Some (m, e :: rest')
           | None => None
           end
  end.

(** [delete_entry(entry_id)] *)
Definition delete_entry (self : DiaryStorage) (entry_id : string)
    : bool * DiaryStorage :=
  match pop_first (index self) entry_id with
  | None => (false, self)
  | Some (entry_metadata, entries) =>
      (true, {| index := entries; index_file := Stored entries;
                entry_files := delete (filename entry_metadata) (entry_files self) |})
  end.

(** [sorted(entries, key=lambda x: x['created'], reverse=True)]: newest
    first, entries created at the same instant in their given order. *)
Fixpoint insert_newest (e : meta) (sorted : list meta) : list meta :=
  match sorted with
  | [] => [e]
  | x :: rest =>
      if String.ltb (created e) (created x)
      then x :: insert_newest e rest
      else e :: x :: rest
  end.

Definition newest_first (entries : list meta) : list meta :=
  foldr insert_newest [] entries.

Definition list_entries (self : DiaryStorage) : list meta :=
  newest_first (index self).

(** The file names follow the ids, as [save_entry] makes them. *)
Definition well_named (entries : list meta) : Prop :=
  Forall (fun e => filename e = id e +:+ ".json") entries.

(** [a] is at least as new as [b]. *)
Definition not_older (a b : meta) : Prop := String.ltb (created a) (created b) = false.

End Diary.

(** *** Searching the diary *)

Section DiarySearch.

Context {T : TextBackend}.

(** [hay.startswith(needle)] *)
Fixpoint starts_with (needle hay : string) : bool :=
  match needle, hay with
  | "", _ => true
  | String _ _, "" => false
  | String a needle', String b hay' => Ascii.eqb a b && starts_with needle' hay'
  end.

(** [needle in hay] on strings: [hay] has it at some position. *)
Fixpoint is_infix (needle hay : string) : bool :=
  starts_with needle hay ||
  match hay with
  | "" => false
  | String _ rest => is_infix needle rest
  end.

(** The inner loop of [search_entries]: the first tag that contains the
    query ends it. *)
Fixpoint some_tag_matches (query_lower : string) (tags : list string) : bool :=
  match tags with
  | [] => false
  | tag :: rest =>
      if is_infix query_lower (str_lower tag) then true
      else some_tag_matches query_lower rest
  end.

(** The outer loop of [search_entries]. *)
Fixpoint matching_entries (query_lower : string) (entries : list Diary.meta)
    : list Diary.meta :=
  match entries with
  | [] => []
  | entry :: rest =>
      if is_infix query_lower (str_lower (Diary.title entry))
      then entry :: matching_entries query_lower rest
      else if some_tag_matches query_lower (Diary.tags entry)
      then entry :: matching_entries query_lower rest
      else matching_entries query_lower rest
  end.

(** [search_entries(query)] *)
Definition search_entries (self : Diary.DiaryStorage) (query : string)
    : list Diary.meta :=
  let query_lower := str_lower query in
  Diary.newest_first (matching_entries query_lower (Diary.index self)).

(** [hay] contains [needle]. *)
Definition contains_text (needle hay : string) : Prop :=
  exists before after, hay = before +:+ needle +:+ after.

End DiarySearch.

(** ** The reference backend, continued *)

Module MockMore.

Definition private_pem_wrapped (sk : Mock.key) (password entropy : bytes) : bytes :=
  Mock.key_pem sk ++ password ++ entropy.

Definition pem : PemBackend Mock.backend :=
  @Build_PemBackend Mock.backend Mock.key_pem private_pem_wrapped Mock.key_pem.

(** Lower case of the 26 letters. *)
Definition lower_char (c : ascii) : ascii :=
  let n := nat_of_ascii c in
  if (65 <=? n) && (n <=? 90) then ascii_of_nat (n + 32) else c.

Fixpoint lower (s : string) : string :=
  match s with
  | "" => ""
  | String c rest => String (lower_char c) (lower rest)
  end.

Definition text : TextBackend := {| str_lower := lower |}.

(** The join for a name that is one path component. *)
Definition paths : PathBackend :=
  {| path_under := fun dir name => dir +:+ "/" +:+ name |}.

End MockMore.

(** ** More sample data *)

Module Scenario.
Import Sample.

#[local] Existing Instance Mock.backend.
#[local] Existing Instance MockMore.pem.
#[local] Existing Instance MockMore.text.
#[local] Existing Instance MockMore.paths.

Definition no_files : key_files :=
  {| keystore_file := Missing; cert_file := None |}.

Definition salt16 : bytes := repeat Byte.x74 16.

(** Alice's two files after [save_keystore("secret")]. *)
Definition alices_files : key_files :=
  (save_keystore "secret" salt16 iv16 alice no_files).2.

(** Bob has no certificate; his files after [save_keystore("hunter22")]. *)
Definition bobs_files : key_files :=
  (save_keystore "hunter22" salt16 iv16 bob no_files).2.

(** Bob after [generate_self_signed_certificate("bob")]. *)
Definition bob_certified : KM :=
  (generate_self_signed_certificate "bob" [] clock bob).2.

(** What [export_entry] makes of Alice's signed envelope. *)
Definition alices_package : package :=
  {| entry_id := VInt 1;
     title := VStr "Monday";
     created := VStr "2024-05-01T09:59:00Z";
     encrypted_data := alices_signed_envelope;
     signer_certificate := string_of_list_byte (Mock.cert_pem alice_cert) |}.

(** The draws of one registration. *)
Definition first_draws : draws :=
  {| d_salt := repeat Byte.x73 16;
     d_mkdir := Ok tt;
     d_key := repeat Byte.x6b 3;
     d_serial := repeat Byte.x6e 4;
     d_now := clock;
     d_keystore_salt := repeat Byte.x74 16;
     d_keystore_iv := iv16;
     d_created := clock;
     d_save_users := Ok tt |}.

(** The same draws on a file system where [users.json] cannot be opened
    for writing: a directory of that name is in its place. *)
Definition draws_no_users_file : draws :=
  {| d_salt := d_salt first_draws;
     d_mkdir := Ok tt;
     d_key := d_key first_draws;
     d_serial := d_serial first_draws;
     d_now := d_now first_draws;
     d_keystore_salt := d_keystore_salt first_draws;
     d_keystore_iv := d_keystore_iv first_draws;
     d_created := d_created first_draws;
     d_save_users := Raise (OSError "[Errno 21] Is a directory: 'users/users.json'") |}.

(** The same draws where [mkdir] finds no parent directory. *)
Definition draws_no_parent : draws :=
  {| d_salt := d_salt first_draws;
     d_mkdir := Raise (OSError "[Errno 2] No such file or directory: 'users/bob/by'");
     d_key := d_key first_draws;
     d_serial := d_serial first_draws;
     d_now := d_now first_draws;
     d_keystore_salt := d_keystore_salt first_draws;
     d_keystore_iv := d_keystore_iv first_draws;
     d_created := d_created first_draws;
     d_save_users := Ok tt |}.

Definition no_users : UserManager :=
  {| users_db := []; users_file := Missing |}.

(** The accounts and the key files after "alice" registered. *)
Definition registered : result answer * UserManager * key_files :=
  register_user no_users no_files "alice" "secret1" "Alice A." first_draws.

Definition alices_accounts : UserManager := registered.1.2.

Definition alices_disk : gmap string key_files := {[ "alice" := registered.2 ]}.

Definition alices_record : user :=
  {| username := "alice";
     full_name := "Alice A.";
     password_hash := b64encode (_hash_password "secret1" (d_salt first_draws));
     salt := b64encode (d_salt first_draws);
     user_dir := path_under "users" "alice";
     created_at := clock |}.

(** A diary with two entries, the older one first. *)
Definition monday : Diary.meta :=
  {| Diary.id := "20240501_100000_000001";
     Diary.title := "Monday";
     Diary.created := "2024-05-01T10:00:00.000001";
     Diary.modified := "2024-05-01T10:00:00.000002";
     Diary.tags := ["Work"];
     Diary.filename := "20240501_100000_000001.json" |}.

Definition tuesday : Diary.meta :=
  {| Diary.id := "20240502_080000_000001";
     Diary.title := "Tuesday";
     Diary.created := "2024-05-02T08:00:00.000001";
     Diary.modified := "2024-05-02T08:00:00.000002";
     Diary.tags := ["home"; "garden"];
     Diary.filename := "20240502_080000_000001.json" |}.

Definition diary : Diary.DiaryStorage :=
  {| Diary.index := [monday; tuesday];
     Diary.index_file := Stored [monday; tuesday];
     Diary.entry_files :=
       {[ "20240501_100000_000001.json" := Stored alices_envelope;
          "20240502_080000_000001.json" := Stored alices_signed_envelope ]} |}.

End Scenario.

(** * Properties *)

(** ** The result monad *)

Lemma bind_Ok {A C} (r : result A) (k : A -> result C) (c : C) :
  bind r k = Ok c -> exists a, r = Ok a /\ k a = Ok c.
Proof. destruct r as [a|e]; simpl; [eauto | discriminate]. Qed.

Lemma getitem_Ok (d : gmap string value) k v :
  getitem d k = Ok v <-> d !! k = Some v.
Proof. unfold getitem. destruct (d !! k); split; congruence. Qed.

Tactic Notation "inv_bind" hyp(H) "as" ident(a) ident(Ha) :=
  apply bind_Ok in H; destruct H as (a & Ha & H).

(** ** Padding *)

Lemma py_bytes_repeat n k b :
  Byte.of_nat n = Some b -> py_bytes (repeat n k) = Ok (repeat b k).
Proof.
  intros Hb. induction k as [|k IH]; simpl; [reflexivity|].
  rewrite Hb, IH. reflexivity.
Qed.

Lemma small_byte n : n <= 255 -> exists b, Byte.of_nat n = Some b /\ Byte.to_nat b = n.
Proof.
  intros Hn. destruct (Byte.of_nat n) as [b|] eqn:E.
  - exists b. split; [reflexivity | by apply Byte.to_of_nat].
  - apply Byte.of_nat_None_iff in E. lia.
Qed.

Lemma last_byte_snoc (d : bytes) b : last_byte (d ++ [b]) = Ok (Byte.to_nat b).
Proof. unfold last_byte. by rewrite last_snoc. Qed.

(** [pad16] always succeeds, fills to a whole number of 16-byte blocks
    with between 1 and 16 bytes, and [unpad] takes exactly those off. *)
Lemma pad16_spec (data : bytes) :
  exists tail,
    pad16 data = Ok (data ++ tail) /\
    1 <= length tail <= 16 /\
    length (data ++ tail) mod 16 = 0 /\
    unpad (data ++ tail) = Ok data.
Proof.
  unfold pad16.
  set (p := 16 - length data mod 16).
  assert (Hr : length data mod 16 < 16) by (apply Nat.mod_upper_bound; lia).
  assert (Hp : 1 <= p <= 16) by (unfold p; lia).
  destruct (small_byte p) as (b & Hb & Hto); [lia|].
  exists (repeat b p).
  rewrite (py_bytes_repeat _ _ _ Hb). cbn [bind].
  split; [reflexivity|]. rewrite repeat_length. split; [lia|]. split.
  - rewrite length_app, repeat_length.
    rewrite (Nat.div_mod_eq (length data) 16) at 1.
    replace (16 * (length data / 16) + length data mod 16 + p)
      with ((1 + length data / 16) * 16) by (unfold p; lia).
    apply Nat.Div0.mod_mul.
  - unfold unpad.
    destruct p as [|q] eqn:Ep; [lia|].
    replace (repeat b (S q)) with (repeat b q ++ [b])
      by (rewrite <- repeat_cons; reflexivity).
    rewrite app_assoc, last_byte_snoc, Hto. cbn [bind drop_tail].
    f_equal. rewrite <- app_assoc.
    rewrite !length_app, repeat_length. cbn [length].
    replace (length data + (q + 1) - S q) with (length data) by lia.
    by rewrite take_app_length.
Qed.

(** ** Hybrid encryption *)

Section Encryption.

Context {B : Backend} (L : BackendLaws B).

Ltac lookup_literal :=
  unfold getitem;
  repeat (rewrite lookup_insert_ne by done);
  try rewrite lookup_insert_eq.

(** What [encrypt_entry] returns once its library calls have succeeded. *)
Lemma encrypt_entry_Ok km plaintext aes_key iv seed now env :
  encrypt_entry km plaintext aes_key iv seed now = Ok env ->
  exists padded c pk ek,
    pad16 (str_encode plaintext) = Ok padded /\
    aes_cbc_encrypt aes_key iv padded = Ok c /\
    public_key km = Some pk /\
    oaep_encrypt pk seed aes_key = Ok ek /\
    env = {[ "encrypted_key" := VStr (b64encode ek);
             "iv" := VStr (b64encode iv);
             "ciphertext" := VStr (b64encode c);
             "timestamp" := VStr (now +:+ "Z") ]}.
Proof.
  unfold encrypt_entry. intros H.
  inv_bind H as padded Hpad. inv_bind H as c Hc.
  inv_bind H as pk Hpk. inv_bind H as ek Hek.
  unfold need_public, get_public_key in Hpk.
  destruct (public_key km) as [pk'|] eqn:Epk; [|discriminate].
  injection Hpk as ->. injection H as <-.
  eexists _, _, _, _. repeat split; eauto.
Qed.

(** Decrypting what was encrypted for the manager's own key pair. *)
Lemma decrypt_encrypted km sk plaintext aes_key iv seed now env :
  holds_key_pair km sk ->
  encrypt_entry km plaintext aes_key iv seed now = Ok env ->
  decrypt_entry km env = Ok plaintext.
Proof.
  intros [Hsk Hpk] H.
  apply encrypt_entry_Ok in H as (padded & c & pk & ek & Hpad & Hc & Hpk' & Hek & ->).
  rewrite Hpk in Hpk'. injection Hpk' as <-.
  destruct (pad16_spec (str_encode plaintext)) as (tl & Hpad' & _ & _ & Hun).
  rewrite Hpad in Hpad'. injection Hpad' as ->.
  unfold decrypt_entry, decrypt_entry_try.
  lookup_literal. cbn [bind]. rewrite b64decode_encode. cbn [bind].
  lookup_literal. cbn [bind]. rewrite b64decode_encode. cbn [bind].
  lookup_literal. cbn [bind]. rewrite b64decode_encode. cbn [bind].
  unfold need_private, get_private_key. rewrite Hsk. cbn [bind].
  rewrite (oaep_decrypt_encrypt _ _ _ _ Hek). cbn [bind].
  rewrite (aes_cbc_decrypt_encrypt _ _ _ _ Hc). cbn [bind].
  rewrite Hun. cbn [bind].
  by rewrite bytes_decode_encode.
Qed.

(** C1. Round trip: with a key pair of at least 1024 bits in the
    KeyManager, [encrypt_entry] succeeds on every plaintext [P] (whatever
    its length: empty, a whole number of 16-byte blocks, or straddling a
    block boundary) for every fresh 32-byte key and 16-byte IV, and
    [decrypt_entry] on the envelope returns [P]. *)
Theorem decrypt_encrypt_roundtrip km sk P aes_key iv seed now :
  holds_key_pair km sk ->
  (1024 <= key_size (public_key_of sk))%Z ->
  length aes_key = 32 ->
  length iv = 16 ->
  exists env,
    encrypt_entry km P aes_key iv seed now = Ok env /\
    decrypt_entry km env = Ok P.
Proof.
  intros Hkm Hsize Hk Hiv.
  destruct (pad16_spec (str_encode P)) as (tl & Hpad & _ & Hblocks & _).
  destruct (aes_cbc_encrypt_ok aes_key iv _ Hk Hiv Hblocks) as (c & Hc).
  destruct (oaep_encrypt_ok (public_key_of sk) seed aes_key Hsize) as (ek & Hek);
    [lia|].
  assert (Henc : exists env, encrypt_entry km P aes_key iv seed now = Ok env).
  { unfold encrypt_entry. rewrite Hpad. cbn [bind]. rewrite Hc. cbn [bind].
    unfold need_public, get_public_key. destruct Hkm as [_ ->]. cbn [bind].
    rewrite Hek. cbn [bind]. eauto. }
  destruct Henc as (env & Henc). exists env. split; [assumption|].
  eapply decrypt_encrypted; eauto.
Qed.

End Encryption.

(** ** The revocation ledger *)

Module LedgerFacts.
Import Ledger.

Lemma new_entry_serial s u now : new_entry s u now !! "serial" = Some s.
Proof. unfold new_entry. apply lookup_insert_eq. Qed.

Lemma new_entry_jsonable s u now :
  jsonable s -> jsonable u -> entry_jsonable (new_entry s u now).
Proof.
  intros Hs Hu. unfold entry_jsonable, new_entry.
  repeat apply map_Forall_insert_2; try done.
  by destruct (truthy u).
Qed.

Lemma for_serial_snoc_same s u now l :
  for_serial s (l ++ [new_entry s u now]) = for_serial s l ++ [new_entry s u now].
Proof.
  unfold for_serial. rewrite filter_app. f_equal.
  rewrite filter_cons_True by apply new_entry_serial. reflexivity.
Qed.

Lemma for_serial_snoc_other s s' u now l :
  s <> s' -> for_serial s' (l ++ [new_entry s u now]) = for_serial s' l.
Proof.
  intros Hne. unfold for_serial. rewrite filter_app.
  rewrite filter_cons_False; [by rewrite filter_nil, app_nil_r|].
  rewrite new_entry_serial. congruence.
Qed.

(** On a well-formed list the loop never raises and answers whether an
    entry for the serial is there. *)
Lemma listed_well_formed l s :
  well_formed l ->
  listed l s = Ok (bool_decide (for_serial s l <> [])).
Proof.
  unfold well_formed, for_serial.
  induction 1 as [|e l [v Hv] _ IH]; [reflexivity|].
  cbn [listed]. unfold getitem. rewrite Hv. cbn [bind]. unfold py_eq.
  destruct (decide (v = s)) as [->|Hne].
  - rewrite bool_decide_eq_true_2 by reflexivity.
    rewrite filter_cons_True by done.
    by rewrite bool_decide_eq_true_2.
  - rewrite bool_decide_eq_false_2 by done.
    rewrite filter_cons_False by congruence. apply IH.
Qed.

Lemma load_entries f : f <> Garbled -> _load_global_revoked f = Ok (entries f).
Proof. by destruct f. Qed.

(** [revoke_certificate] on a ledger satisfying the invariant. *)
Lemma revoke_certificate_spec f s u now :
  invariant f -> jsonable s -> jsonable u ->
  revoke_certificate f s u now =
    if bool_decide (entries_for s f <> [])
    then (Ok false, f)
    else (Ok true, Stored (entries f ++ [new_entry s u now])).
Proof.
  intros (Hg & Hwf & Hjs & _) Hs Hu. unfold revoke_certificate.
  rewrite (load_entries _ Hg), (listed_well_formed _ _ Hwf).
  unfold entries_for. destruct (bool_decide _); [done|].
  unfold _save_global_revoked. rewrite bool_decide_eq_true_2; [done|].
  apply Forall_app. split; [done|].
  apply Forall_singleton. by apply new_entry_jsonable.
Qed.

Lemma invariant_revoke f s u now :
  invariant f -> jsonable s -> jsonable u ->
  invariant (revoke_certificate f s u now).2.
Proof.
  intros Hinv Hs Hu. rewrite (revoke_certificate_spec _ _ _ _ Hinv Hs Hu).
  destruct Hinv as (Hg & Hwf & Hjs & Hone).
  case_bool_decide as Hpresent; [by repeat split|].
  unfold invariant, entries_for in *. cbn [snd entries].
  split; [done|]. split; [|split].
  - apply Forall_app. split; [done|].
    apply Forall_singleton. rewrite new_entry_serial. by eexists.
  - apply Forall_app. split; [done|].
    apply Forall_singleton. by apply new_entry_jsonable.
  - intros s'. destruct (decide (s = s')) as [<-|Hne].
    + rewrite for_serial_snoc_same, Hpresent. cbn. lia.
    + rewrite for_serial_snoc_other by done. apply Hone.
Qed.

Lemma invariant_step f o : invariant f -> op_ok o -> invariant (step f o).
Proof.
  destruct o; cbn [step op_ok]; [|done..].
  intros Hinv [Hs Hu]. by apply invariant_revoke.
Qed.

Lemma invariant_run ops f :
  invariant f -> Forall op_ok ops -> invariant (run ops f).
Proof.
  intros Hf Hops. revert f Hf.
  induction Hops as [|o ops Ho _ IH]; intros f Hf; [done|].
  cbn. by apply IH, invariant_step.
Qed.

Lemma invariant_reachable f : reachable f -> invariant f.
Proof.
  intros (ops & Hops & ->). apply invariant_run; [|done].
  repeat split; [done | by constructor | by constructor | intros; cbn; lia].
Qed.

(** A ledger that is reachable stays so under further well-typed
    operations. *)
Lemma reachable_step f o : reachable f -> op_ok o -> reachable (step f o).
Proof.
  intros (ops & Hops & ->) Ho. exists (ops ++ [o]). split.
  - apply Forall_app. by split; [|apply Forall_singleton].
  - unfold run. by rewrite fold_left_app.
Qed.

(** No well-typed operation shortens the list of a parsing file: the old
    entries stay, in place. *)
Lemma step_keeps f o :
  op_ok o -> Forall entry_jsonable (entries f) ->
  entries f `prefix_of` entries (step f o).
Proof.
  destruct o as [s u now| |]; cbn [step op_ok]; [|done..].
  intros [Hs Hu] Hjs. unfold revoke_certificate.
  destruct (_load_global_revoked f) as [l|] eqn:El; [|done].
  destruct (listed l s) as [[]|]; cbn [snd]; [done| |done].
  assert (Hl : l = entries f) by (destruct f; cbn in *; congruence).
  subst l. unfold _save_global_revoked.
  rewrite bool_decide_eq_true_2.
  - cbn. by apply prefix_app_r.
  - apply Forall_app. split; [done|].
    apply Forall_singleton. by apply new_entry_jsonable.
Qed.

Lemma run_keeps ops f :
  invariant f -> Forall op_ok ops ->
  entries f `prefix_of` entries (run ops f).
Proof.
  intros Hf Hops. revert f Hf.
  induction Hops as [|o ops Ho _ IH]; intros f Hf; [done|].
  cbn. etrans; [apply step_keeps; [done | apply Hf]|].
  by apply IH, invariant_step.
Qed.

(** C8. On a ledger the program produced, revoking a serial twice
    succeeds both times, the second call returns [False] ("already
    revoked") and leaves the file as the first call left it, the file
    then holds exactly one entry for that serial, and whatever
    revocations and queries follow, the entries present stay present
    (each run only extends the list). Serials and user names are values a
    JSON file can hold ([str], [None], integers). *)
Theorem revoke_twice_one_entry f serial u1 now1 u2 now2 :
  reachable f ->
  jsonable serial -> jsonable u1 -> jsonable u2 ->
  exists b f1,
    revoke_certificate f serial u1 now1 = (Ok b, f1) /\
    revoke_certificate f1 serial u2 now2 = (Ok false, f1) /\
    length (entries_for serial f1) = 1 /\
    entries f `prefix_of` entries f1 /\
    forall ops, Forall op_ok ops -> entries f1 `prefix_of` entries (run ops f1).
Proof.
  intros Hreach Hs Hu1 Hu2.
  pose proof (invariant_reachable _ Hreach) as Hinv.
  pose proof (invariant_revoke f serial u1 now1 Hinv Hs Hu1) as Hinv1.
  assert (Hkeep : entries f `prefix_of`
                    entries (revoke_certificate f serial u1 now1).2).
  { apply (step_keeps f (Revoke serial u1 now1)); [done | apply Hinv]. }
  assert (Hlen : forall g, invariant g -> entries_for serial g <> [] ->
                           length (entries_for serial g) = 1).
  { intros g (_ & _ & _ & Hone) Hne. specialize (Hone serial).
    destruct (entries_for serial g); [done | cbn in *; lia]. }
  rewrite (revoke_certificate_spec _ _ _ _ Hinv Hs Hu1) in Hinv1, Hkeep |- *.
  case_bool_decide as Hpresent; cbn [snd] in *.
  - exists false, f. rewrite (revoke_certificate_spec _ _ _ _ Hinv Hs Hu2).
    rewrite bool_decide_eq_true_2 by done.
    repeat split; auto using run_keeps.
  - eexists true, _. split; [reflexivity|].
    assert (Hnow : entries_for serial
              (Stored (entries f ++ [new_entry serial u1 now1])) <> []).
    { unfold entries_for in *. cbn [entries].
      rewrite for_serial_snoc_same. by destruct (for_serial _ _). }
    rewrite (revoke_certificate_spec _ _ _ _ Hinv1 Hs Hu2).
    rewrite bool_decide_eq_true_2 by done.
    repeat split; auto using run_keeps.
Qed.

End LedgerFacts.

(** [is_revoked] on a ledger the program maintains: it does not raise and
    answers whether the serial has an entry. *)
Lemma is_revoked_invariant (f : Ledger.t) (s : value) :
  Ledger.invariant f ->
  Ledger.is_revoked f s = Ok (bool_decide (Ledger.entries_for s f <> [])).
Proof.
  intros (Hg & Hwf & _). unfold Ledger.is_revoked.
  rewrite (LedgerFacts.load_entries _ Hg). cbn [bind].
  apply LedgerFacts.listed_well_formed, Hwf.
Qed.

Lemma is_revoked_after_revoke (f : Ledger.t) (s u : value) now :
  Ledger.invariant f -> Ledger.jsonable s -> Ledger.jsonable u ->
  Ledger.is_revoked (Ledger.revoke_certificate f s u now).2 s = Ok true.
Proof.
  intros Hinv Hjs Hju.
  rewrite (is_revoked_invariant _ _
             (LedgerFacts.invariant_revoke _ s u now Hinv Hjs Hju)).
  f_equal. apply bool_decide_eq_true_2.
  rewrite (LedgerFacts.revoke_certificate_spec _ _ _ _ Hinv Hjs Hju).
  case_bool_decide as Hs; cbn [snd]; [done|].
  unfold Ledger.entries_for. cbn [Ledger.entries].
  rewrite LedgerFacts.for_serial_snoc_same. by destruct (Ledger.for_serial _ _).
Qed.

Lemma str_of_int_nonempty n : str_of_int n <> "".
Proof.
  unfold str_of_int. destruct (Z.to_int n) as [d|d]; cbn; [|done].
  destruct d; done.
Qed.

(** ** Signatures *)

Section Signatures.

Context {B : Backend} (L : BackendLaws B).

Lemma serial_truthy km c :
  certificate km = Some c -> truthy (get_certificate_serial km) = true.
Proof.
  intros Hc. unfold get_certificate_serial. rewrite Hc. cbn.
  apply negb_true_iff, String.eqb_neq, str_of_int_nonempty.
Qed.

Lemma signed_structure_keys data ts : NoDup (signed_structure data ts).*1.
Proof.
  cbn. apply NoDup_cons. split; [|apply NoDup_singleton].
  by intros ?%list_elem_of_singleton.
Qed.

(** What [sign_entry] returns once its library calls have succeeded: the
    timestamp it reports is the one inside the signed bytes. *)
Lemma sign_entry_Ok km data salt now info :
  sign_entry km data salt now = Ok info ->
  exists text sk signature,
    json_dumps (signed_structure data (VStr (now +:+ "Z"))) = Ok text /\
    private_key km = Some sk /\
    pss_sign sk salt (str_encode text) = Ok signature /\
    info = {[ "signature" := VStr (b64encode signature);
              "signed_timestamp" := VStr (now +:+ "Z");
              "cert_serial" := get_certificate_serial km ]}.
Proof.
  unfold sign_entry, _prepare_signed_data. intros H.
  inv_bind H as prepared Hprep. inv_bind Hprep as text Htext.
  injection Hprep as <-.
  inv_bind H as sk Hsk. inv_bind H as sg Hsg. inv_bind H as text' Hdec.
  inv_bind H as st Hst. inv_bind H as ts Hts.
  unfold need_private, get_private_key in Hsk.
  destruct (private_key km) as [sk'|] eqn:Esk; [|discriminate].
  injection Hsk as ->.
  rewrite bytes_decode_encode in Hdec. injection Hdec as <-.
  rewrite (json_loads_dumps _ _ (signed_structure_keys _ _) Htext) in Hst.
  injection Hst as <-.
  apply getitem_Ok in Hts. unfold signed_structure in Hts. cbn in Hts.
  rewrite lookup_insert_ne in Hts by done.
  rewrite lookup_insert_eq in Hts. injection Hts as <-.
  injection H as <-. eauto 10.
Qed.

(** The verdict on a signature made by [sk] over the same data and
    timestamp, checked against the public key of [sk], whichever way
    that key reaches [verify_signature]. *)
Lemma verify_signature_valid vkm ledger data ts serial pk_arg cert_arg
    sk salt text signature revoked :
  json_dumps (signed_structure data ts) = Ok text ->
  pss_sign sk salt (str_encode text) = Ok signature ->
  match cert_arg with
  | Some c => Some (cert_public_key c)
  | None => match pk_arg with Some pk => Some pk | None => get_public_key vkm end
  end = Some (public_key_of sk) ->
  (if truthy serial then Ledger.is_revoked ledger serial else Ok false) = Ok revoked ->
  verify_signature vkm ledger data (VStr (b64encode signature)) ts serial
    pk_arg cert_arg = (true, revoked).
Proof.
  intros Htext Hsig Hkey Hrev.
  unfold verify_signature, verify_signature_try.
  rewrite Hrev. cbn [bind]. rewrite Htext. cbn [bind].
  rewrite b64decode_encode. cbn [bind]. rewrite Hkey. cbn [need_public bind].
  by rewrite (pss_verify_sign _ _ _ _ Hsig).
Qed.

(** C2. Sign, then verify with the signature and timestamp [sign_entry]
    returned: the verdict is (valid, not revoked) while the ledger has no
    entry for the signer's certificate serial, and (valid, revoked) once
    [revoke_certificate] has run for that serial. Validity is [True] in
    both. *)
Theorem verify_signed_before_and_after_revocation
    km sk c ledger D salt now info :
  holds_key_pair km sk ->
  certificate km = Some c ->
  Ledger.reachable ledger ->
  sign_entry km D salt now = Ok info ->
  exists signature ts,
    info !! "signature" = Some signature /\
    info !! "signed_timestamp" = Some ts /\
    info !! "cert_serial" = Some (get_certificate_serial km) /\
    (Ledger.entries_for (get_certificate_serial km) ledger = [] ->
     verify_signature km ledger D signature ts (get_certificate_serial km)
       None None = (true, false)) /\
    (forall user rnow,
       Ledger.jsonable user ->
       verify_signature km
         (Ledger.revoke_certificate ledger (get_certificate_serial km) user rnow).2
         D signature ts (get_certificate_serial km) None None = (true, true)).
Proof.
  intros [Hsk Hpk] Hc Hreach Hsign.
  apply LedgerFacts.invariant_reachable in Hreach as Hinv.
  apply sign_entry_Ok in Hsign as (text & sk' & sg & Htext & Hsk' & Hsg & ->).
  rewrite Hsk in Hsk'. injection Hsk' as <-.
  exists (VStr (b64encode sg)), (VStr (now +:+ "Z")).
  split; [apply lookup_insert_eq|].
  split; [rewrite lookup_insert_ne by done; apply lookup_insert_eq|].
  split; [do 2 (rewrite lookup_insert_ne by done); apply lookup_insert_eq|].
  split.
  - intros Habsent. eapply verify_signature_valid; eauto.
    rewrite (serial_truthy _ _ Hc), (is_revoked_invariant _ _ Hinv), Habsent.
    by rewrite bool_decide_eq_false_2 by (intros ?; done).
  - intros user rnow Huser. eapply verify_signature_valid; eauto.
    rewrite (serial_truthy _ _ Hc). apply is_revoked_after_revoke; [done| |done].
    unfold get_certificate_serial. by rewrite Hc.
Qed.

(** C3. [verify_signature] always returns a pair (it is a total function
    into [bool * bool]): whenever the verification body raises, be it
    [InvalidSignature] from the signature check or anything else
    ([KeyError], [TypeError], a ledger that does not parse, ...), the
    pair is [(False, False)]. *)
Theorem verify_signature_failure_is_verdict
    km ledger data signature_b64 timestamp cert_serial pk cert e :
  verify_signature_try km ledger data signature_b64 timestamp cert_serial
    pk cert = Raise e ->
  verify_signature km ledger data signature_b64 timestamp cert_serial
    pk cert = (false, false).
Proof.
  intros H. unfold verify_signature. rewrite H. by destruct e.
Qed.

(** A signature that does not verify is reported as [(False, False)]
    even when the serial is in the ledger. *)
Lemma invalid_signature_hides_revocation
    km ledger data sig ts serial pk cert text signature pub :
  Ledger.is_revoked ledger serial = Ok true ->
  json_dumps (signed_structure data ts) = Ok text ->
  b64decode sig = Ok signature ->
  match cert with
  | Some c => Some (cert_public_key c)
  | None => match pk with Some pk => Some pk | None => get_public_key km end
  end = Some pub ->
  pss_verify pub signature (str_encode text) = Raise InvalidSignature ->
  verify_signature km ledger data sig ts serial pk cert = (false, false).
Proof.
  intros Hrev Htext Hsig Hkey Hver.
  unfold verify_signature, verify_signature_try.
  rewrite Hrev. destruct (truthy serial); cbn [bind];
    rewrite Htext; cbn [bind]; rewrite Hsig; cbn [bind];
    rewrite Hkey; cbn [need_public bind]; by rewrite Hver.
Qed.

End Signatures.

(** ** Verify-and-decrypt, failure text *)

Section Decryption.

Context {B : Backend}.

Lemma contains_false (d : gmap string value) k : d !! k = None -> contains d k = false.
Proof.
  intros H. unfold contains. apply bool_decide_eq_false_2.
  rewrite H. by intros [? ?].
Qed.

(** C10. An envelope without a ['signature'] or without a
    ['signed_timestamp'] is not verified at all: whatever the ledger and
    the other fields hold, [verify_and_decrypt] is [decrypt_entry] with
    [is_valid = False] and [is_revoked = False] attached; it raises only
    if decryption does. *)
Theorem verify_and_decrypt_unsigned km ledger env :
  env !! "signature" = None \/ env !! "signed_timestamp" = None ->
  verify_and_decrypt km ledger env =
    (plaintext <- decrypt_entry km env;; Ok (plaintext, false, false)).
Proof.
  intros H. unfold verify_and_decrypt.
  assert (Hskip : contains env "signature" && contains env "signed_timestamp" = false).
  { destruct H as [H|H]; rewrite (contains_false _ _ H);
      [reflexivity | apply andb_false_r]. }
  rewrite Hskip. reflexivity.
Qed.

(** C9, as the code has it. A failing [decrypt_entry] always raises a
    plain [Exception] whose text is ["Decryption failed: "] followed by
    the text of the exception the failing step raised; two failures read
    the same exactly when their steps' own texts do. *)
Theorem decrypt_entry_failure_text km env e :
  decrypt_entry km env = Raise e ->
  exists inner,
    decrypt_entry_try km env = Raise inner /\
    e = Exception ("Decryption failed: " +:+ exn_str inner) /\
    exn_str e = "Decryption failed: " +:+ exn_str inner.
Proof.
  unfold decrypt_entry. destruct (decrypt_entry_try km env) as [p|inner]; [done|].
  intros [= <-]. by exists inner.
Qed.

(** A missing field shows its name in the text. *)
Lemma decrypt_entry_missing_key km env :
  env !! "encrypted_key" = None ->
  decrypt_entry km env = Raise (Exception "Decryption failed: 'encrypted_key'").
Proof.
  intros H. unfold decrypt_entry, decrypt_entry_try, getitem. by rewrite H.
Qed.

(** An envelope whose ciphertext decrypts to nothing fails while
    stripping the padding, at [padded_plaintext[-1]]. *)
Lemma decrypt_entry_empty_padded km env ek iv ct sk aes_key :
  (v <- getitem env "encrypted_key";; b64decode v) = Ok ek ->
  (v <- getitem env "iv";; b64decode v) = Ok iv ->
  (v <- getitem env "ciphertext";; b64decode v) = Ok ct ->
  private_key km = Some sk ->
  oaep_decrypt sk ek = Ok aes_key ->
  aes_cbc_decrypt aes_key iv ct = Ok [] ->
  decrypt_entry km env = Raise (Exception "Decryption failed: index out of range").
Proof.
  intros Hek Hiv Hct Hsk Hkey Hpad.
  unfold decrypt_entry, decrypt_entry_try.
  rewrite Hek, Hiv, Hct. cbn [bind].
  unfold need_private, get_private_key. rewrite Hsk. cbn [bind].
  rewrite Hkey. cbn [bind]. by rewrite Hpad.
Qed.

End Decryption.

(** ** Key generation and the keystore *)

Section Keys.

Context {B : Backend} (L : BackendLaws B).

(** With a size the generator accepts, both keys are assigned. *)
Lemma generate_key_pair_Ok size entropy km :
  (1024 <= size <= 4096)%Z ->
  exists sk,
    generate_key_pair size entropy km =
      (Ok tt, {| private_key := Some sk;
                 public_key := Some (public_key_of sk);
                 certificate := certificate km |}) /\
    key_size (public_key_of sk) = size.
Proof.
  intros Hsize.
  unfold generate_key_pair, mbind, lift, set_private_key, set_public_key.
  destruct (rsa_generate_ok size entropy Hsize) as (sk & Hgen & Hsz).
  exists sk. rewrite Hgen. by split.
Qed.

(** C5, as the code has it. [generate_key_pair] has no minimum of its
    own: it hands [key_size] to the RSA generator with exponent 65537, and
    its outcome is the generator's at every size. For every size from 1024
    to 4096 bits, so also below 2048, it stores a key pair of that size;
    whenever the generator returns a key, whatever the size, the method
    stores that key with its public key and returns normally; when the
    generator raises, that exception comes out and the keys are
    untouched. *)
Theorem generate_key_pair_no_minimum size entropy km :
  ((1024 <= size <= 4096)%Z ->
   exists sk,
     generate_key_pair size entropy km =
       (Ok tt, {| private_key := Some sk;
                  public_key := Some (public_key_of sk);
                  certificate := certificate km |}) /\
     key_size (public_key_of sk) = size) /\
  (forall e,
     rsa_generate_private_key 65537 size entropy = Raise e ->
     generate_key_pair size entropy km = (Raise e, km)) /\
  (forall sk,
     rsa_generate_private_key 65537 size entropy = Ok sk ->
     generate_key_pair size entropy km =
       (Ok tt, {| private_key := Some sk;
                  public_key := Some (public_key_of sk);
                  certificate := certificate km |})).
Proof.
  split; [apply generate_key_pair_Ok|]. split.
  - intros e He.
    unfold generate_key_pair, mbind, lift. by rewrite He.
  - intros sk Hsk.
    unfold generate_key_pair, mbind, lift, set_private_key, set_public_key.
    by rewrite Hsk.
Qed.

(** Enrollment ([generate_key_pair], then
    [generate_self_signed_certificate] for a name of 1 to 64 bytes) leaves
    an identity whose certificate is issued for the key pair and names the
    subject. *)
Lemma enrollment_identity size e1 cn e2 now km :
  (1024 <= size <= 4096)%Z ->
  cn <> "" ->
  length (str_encode cn) <= 64 ->
  exists sk c km1 km2,
    generate_key_pair size e1 km = (Ok tt, km1) /\
    generate_self_signed_certificate cn e2 now km1 = (Ok tt, km2) /\
    holds_identity km2 sk c /\
    cert_common_names c = [cn] /\
    key_size (public_key_of sk) = size.
Proof.
  intros Hsize Hcn0 Hlen.
  destruct (generate_key_pair_Ok size e1 km Hsize) as (sk & -> & Hsz).
  destruct (x509_self_signed_ok cn (public_key_of sk) e2 now sk Hcn0 Hlen)
    as (c & Hc).
  destruct (x509_self_signed_fields _ _ _ _ _ _ Hc) as (Hpk & Hcn).
  eexists sk, c, _, _. split; [reflexivity|].
  unfold generate_self_signed_certificate, mbind, lift, set_certificate.
  cbn. rewrite Hc. split; [reflexivity|].
  repeat split; try done. by rewrite Hcn.
Qed.

End Keys.

Section Keystore.

Context {B : Backend}.

(** A failure before the first assignment leaves the manager as it was:
    no file, a file that is not JSON, a missing or undecodable field, a
    blob that does not decrypt to a JSON object (the usual outcome of a
    wrong password), or a private key that does not parse. *)
Lemma load_keystore_early_failure f password km :
  match f with
  | Stored keystore =>
      match read_keystore keystore password with
      | Ok payload =>
          exists e, (v <- getitem payload "private_key";;
                     private_pem <- b64decode v;;
                     load_pem_private_key private_pem) = Raise e
      | Raise _ => True
      end
  | _ => True
  end ->
  load_keystore f password km = (false, km).
Proof.
  destruct f as [| |keystore]; [done..|].
  unfold load_keystore, load_keystore_try, mbind, lift.
  destruct (read_keystore keystore password) as [payload|e]; [|done].
  intros (e & ->). done.
Qed.

(** C4, where the code departs from it. When the decrypted payload holds
    a private key that parses but no ['public_key'], [load_keystore]
    returns [False] with [self.private_key] already replaced: the new
    private key sits next to the old public key and certificate. *)
Theorem load_keystore_partial_update keystore password km payload sk :
  read_keystore keystore password = Ok payload ->
  (v <- getitem payload "private_key";;
   private_pem <- b64decode v;;
   load_pem_private_key private_pem) = Ok sk ->
  payload !! "public_key" = None ->
  load_keystore (Stored keystore) password km =
    (false, {| private_key := Some sk;
               public_key := public_key km;
               certificate := certificate km |}).
Proof.
  intros Hread Hsk Hpk.
  unfold load_keystore, load_keystore_try, mbind, lift, set_private_key.
  rewrite Hread, Hsk. unfold getitem. rewrite Hpk. reflexivity.
Qed.

End Keystore.

(** ** Export and import *)

Section Exchange.

Context {B : Backend} (L : BackendLaws B).

Lemma export_certificate_pem_Some km c :
  certificate km = Some c ->
  exists pem,
    bytes_decode (cert_public_bytes c) = Ok pem /\
    String.eqb pem "" = false /\
    export_certificate_pem km = Ok (Some pem).
Proof.
  intros Hc. destruct (cert_pem_text c) as (pem & Hpem & Hne).
  exists pem. split; [done|]. split; [by apply String.eqb_neq|].
  unfold export_certificate_pem. by rewrite Hc, Hpem.
Qed.

(** What [export_entry] returns for a manager that holds a certificate
    and metadata that has a title and a creation time. *)
Lemma export_entry_Ok km c id meta env t cr :
  certificate km = Some c ->
  meta !! "title" = Some t ->
  meta !! "created" = Some cr ->
  exists pem,
    bytes_decode (cert_public_bytes c) = Ok pem /\
    export_entry km id meta env =
      Ok {| entry_id := id; title := t; created := cr;
            encrypted_data := env; signer_certificate := pem |}.
Proof.
  intros Hc Ht Hcr.
  destruct (export_certificate_pem_Some km c Hc) as (pem & Hpem & Hne & Hexp).
  exists pem. split; [done|].
  unfold export_entry, getitem. rewrite Hexp. cbn [bind].
  by rewrite Hne, Ht, Hcr.
Qed.

(** C7. Without a certificate [export_entry] raises the code's
    no-certificate error, [ValueError("No certificate available to
    export.")], whatever the other arguments are; with one, and metadata
    carrying ['title'] and ['created'], it returns the package of entry
    id, title, creation time, the envelope as given, and the certificate
    in PEM text. *)
Theorem export_entry_needs_certificate km id meta env :
  (certificate km = None ->
   export_entry km id meta env =
     Raise (ValueError "No certificate available to export.")) /\
  (forall c t cr,
     certificate km = Some c ->
     meta !! "title" = Some t ->
     meta !! "created" = Some cr ->
     exists pem,
       bytes_decode (cert_public_bytes c) = Ok pem /\
       export_entry km id meta env =
         Ok {| entry_id := id; title := t; created := cr;
               encrypted_data := env; signer_certificate := pem |}).
Proof.
  split.
  - intros Hc. unfold export_entry, export_certificate_pem. by rewrite Hc.
  - intros c t cr. apply export_entry_Ok.
Qed.

(** What [encrypt_and_sign] returns: the envelope of [encrypt_entry]
    with the three fields of [sign_entry] over its ['ciphertext']. *)
Lemma encrypt_and_sign_Ok km P aes_key iv seed salt now1 now2 env :
  encrypt_and_sign km P aes_key iv seed salt now1 now2 = Ok env ->
  exists ct text sk signature,
    env !! "ciphertext" = Some (VStr ct) /\
    env !! "signature" = Some (VStr (b64encode signature)) /\
    env !! "signed_timestamp" = Some (VStr (now2 +:+ "Z")) /\
    env !! "cert_serial" = Some (get_certificate_serial km) /\
    json_dumps (signed_structure (VStr ct) (VStr (now2 +:+ "Z"))) = Ok text /\
    private_key km = Some sk /\
    pss_sign sk salt (str_encode text) = Ok signature.
Proof.
  unfold encrypt_and_sign. intros H.
  inv_bind H as enc Henc. inv_bind H as ctv Hct. inv_bind H as info Hinfo.
  inv_bind H as sg Hsg. inv_bind H as ts Hts. inv_bind H as cs Hcs.
  injection H as <-.
  apply encrypt_entry_Ok in Henc as (padded & c & pk & ek & _ & _ & _ & _ & ->).
  apply getitem_Ok in Hct.
  do 2 (rewrite lookup_insert_ne in Hct by done).
  rewrite lookup_insert_eq in Hct. injection Hct as <-.
  apply sign_entry_Ok in Hinfo as (text & sk & signature & Htext & Hsk & Hsig & ->);
    [|assumption].
  apply getitem_Ok in Hsg, Hts, Hcs.
  rewrite lookup_insert_eq in Hsg. injection Hsg as <-.
  rewrite lookup_insert_ne in Hts by done.
  rewrite lookup_insert_eq in Hts. injection Hts as <-.
  do 2 (rewrite lookup_insert_ne in Hcs by done).
  rewrite lookup_singleton_eq in Hcs. injection Hcs as <-.
  exists (b64encode c), text, sk, signature.
  split; [by repeat (rewrite lookup_insert_ne by done); rewrite lookup_insert_eq|].
  split; [by repeat (rewrite lookup_insert_ne by done); rewrite lookup_insert_eq|].
  split; [by repeat (rewrite lookup_insert_ne by done); rewrite lookup_insert_eq|].
  split; [by rewrite lookup_insert_eq|].
  done.
Qed.

(** C6. An envelope the exporter encrypted and signed, exported, then
    imported by any other manager (whatever keys it holds, or none):
    export succeeds, import succeeds, the signature is reported valid,
    the envelope comes back as sent, and the certificate returned is the
    exporter's, so its serial is the exporter's serial. The importer's
    own keys never enter: the statement holds for every [importer]. *)
Theorem import_export_fidelity
    exporter sk c importer ledger P aes_key iv seed salt now1 now2 env
    id meta t cr :
  holds_identity exporter sk c ->
  Ledger.reachable ledger ->
  encrypt_and_sign exporter P aes_key iv seed salt now1 now2 = Ok env ->
  meta !! "title" = Some t ->
  meta !! "created" = Some cr ->
  exists pkg metadata revoked cert,
    export_entry exporter id meta env = Ok pkg /\
    import_entry importer ledger pkg = Ok (metadata, env, true, revoked, cert) /\
    cert = c /\
    VStr (str_of_int (cert_serial_number cert)) = get_certificate_serial exporter /\
    Ledger.is_revoked ledger (get_certificate_serial exporter) = Ok revoked.
Proof.
  intros ((Hsk & Hpk) & Hc & Hbound & Hcn) Hreach Henv Ht Hcr.
  destruct (cert_common_names c) as [|cn others] eqn:Ecn; [done|].
  apply LedgerFacts.invariant_reachable in Hreach as Hinv.
  destruct (export_entry_Ok exporter c id meta env t cr Hc Ht Hcr)
    as (pem & Hpem & Hexp).
  apply encrypt_and_sign_Ok in Henv
    as (ct & text & sk' & sg & Hct & Hsg & Hts & _ & Htext & Hsk' & Hsign).
  rewrite Hsk in Hsk'. injection Hsk' as <-.
  assert (Hserial : get_certificate_serial exporter
                    = VStr (str_of_int (cert_serial_number c))).
  { unfold get_certificate_serial. by rewrite Hc. }
  pose proof (is_revoked_invariant ledger (get_certificate_serial exporter) Hinv)
    as Hrev.
  rewrite Hserial in Hrev |- *.
  eexists _, _, _, c. split; [exact Hexp|].
  unfold import_entry. cbn [signer_certificate encrypted_data title created].
  rewrite (str_encode_decode _ _ Hpem), load_cert_public_bytes. cbn [bind].
  rewrite Hrev. cbn [bind].
  unfold getitem. rewrite Hct, Hsg, Hts. cbn [bind].
  erewrite verify_signature_valid; eauto.
  - rewrite Ecn. cbn [bind]. repeat split; reflexivity.
  - cbn. by rewrite Hbound.
  - cbn [truthy].
    destruct (String.eqb _ "") eqn:E; [|exact Hrev].
    apply String.eqb_eq in E. by apply str_of_int_nonempty in E.
Qed.

End Exchange.

(** ** The reference backend meets the contracts *)

Module MockFacts.
Import Mock.

Lemma take_unary_unary n r : take_unary (unary n ++ r) = Some (n, r).
Proof.
  unfold unary. induction n as [|n IH]; [reflexivity|].
  cbn. cbn in IH. by rewrite IH.
Qed.

Lemma take_tally_tally n r : take_tally (tally n ++ r) = Some (n, r).
Proof.
  unfold tally. induction n as [|n IH]; [reflexivity|].
  cbn. cbn in IH. by rewrite IH.
Qed.

Lemma tally_length n : length (tally n) = S n.
Proof. unfold tally. rewrite length_app, repeat_length. cbn. lia. Qed.

Lemma take_str_put_str s r : take_str (put_str s ++ r) = Some (s, r).
Proof.
  unfold take_str, put_str. rewrite <- app_assoc, take_tally_tally.
  rewrite length_app.
  destruct (Nat.leb_spec (length (list_ascii_of_string s))
              (length (list_ascii_of_string s) + length r)) as [_|?]; [|lia].
  rewrite take_app_length, drop_app_length.
  by rewrite string_of_list_ascii_of_string.
Qed.

Lemma take_value_put_value v x r :
  put_value v = Ok x -> take_value (x ++ r) = Some (v, r).
Proof.
  destruct v as [|z|s|b]; cbn; intros [= <-]; cbn.
  - reflexivity.
  - destruct (Z.ltb_spec z 0); cbn; rewrite take_tally_tally;
      do 2 f_equal; f_equal; lia.
  - by rewrite take_str_put_str.
Qed.

Lemma put_items_length items xs :
  put_items items = Ok xs -> length items <= length xs.
Proof.
  revert xs. induction items as [|[k v] rest IH]; intros xs H; cbn in *.
  - lia.
  - inv_bind H as x Hx. inv_bind H as xs' Hxs. injection H as <-.
    specialize (IH _ Hxs). unfold put_str.
    rewrite !length_app, tally_length. lia.
Qed.

Lemma take_items_put_items fuel items xs :
  put_items items = Ok xs ->
  length items <= fuel ->
  take_items fuel xs = Some items.
Proof.
  revert items xs. induction fuel as [|fuel IH]; intros items xs H Hfuel.
  - destruct items; [|cbn in Hfuel; lia]. by injection H as <-.
  - destruct items as [|[k v] rest]; [by injection H as <-|].
    cbn in H, Hfuel.
    inv_bind H as x Hx. inv_bind H as xs' Hxs. injection H as <-.
    assert (Hstr := take_str_put_str k (x ++ xs')).
    assert (Hval := take_value_put_value v x xs' Hx).
    assert (Hrest : take_items fuel xs' = Some rest) by (apply IH; [done | lia]).
    destruct (put_str k ++ x ++ xs') as [|a l] eqn:E.
    + apply (f_equal length) in E. unfold put_str in E.
      rewrite !length_app, tally_length in E. cbn in E. lia.
    + cbn [take_items]. by rewrite Hstr, Hval, Hrest.
Qed.

Lemma loads_dumps items s :
  NoDup items.*1 ->
  dumps items = Ok s -> loads s = Ok (list_to_map items).
Proof.
  unfold dumps, loads. intros _ H. inv_bind H as xs Hxs. injection H as <-.
  rewrite list_ascii_of_string_of_list_ascii.
  by rewrite (take_items_put_items _ _ _ Hxs (put_items_length _ _ Hxs)).
Qed.

Lemma cbc_decrypt_encrypt k iv d c :
  cbc_encrypt k iv d = Ok c -> cbc_decrypt k iv c = Ok d.
Proof.
  unfold cbc_encrypt, cbc_decrypt.
  destruct (key_len_ok k) eqn:Ek; [|done].
  destruct (length iv =? 16) eqn:Eiv; [|done].
  destruct (length d mod 16 =? 0) eqn:Ed; [|done].
  cbv [negb]. intros [= <-].
  assert (Hk : length (take 16 k) = 16).
  { rewrite length_take. unfold key_len_ok in Ek.
    apply orb_true_iff in Ek as [Ek|Ek]; [apply orb_true_iff in Ek as [Ek|Ek]|];
      apply Nat.eqb_eq in Ek; lia. }
  apply Nat.eqb_eq in Ed.
  assert (Hlen : length (take 16 k ++ d) mod 16 = 0).
  { rewrite length_app, Hk.
    rewrite (Nat.div_mod_eq (length d) 16), Ed.
    replace (16 + (16 * (length d / 16) + 0)) with ((1 + length d / 16) * 16) by lia.
    apply Nat.Div0.mod_mul. }
  rewrite Hlen, Nat.eqb_refl.
  replace (take 16 (take 16 k ++ d)) with (take 16 k)
    by (rewrite <- Hk at 2; by rewrite take_app_length).
  rewrite bool_decide_eq_true_2 by done.
  rewrite <- Hk at 1. by rewrite drop_app_length.
Qed.

Lemma load_cert_pem c : load_cert (cert_pem c) = Ok c.
Proof.
  unfold load_cert, cert_pem. rewrite !take_unary_unary.
  rewrite string_of_list_byte_of_string. by destruct c as [? [? ?] ?].
Qed.

Lemma b64dec_encode b :
  b64dec (VStr (string_of_list_byte b)) = Ok b.
Proof. unfold b64dec. by rewrite list_byte_of_string_of_list_byte. Qed.

Lemma generate_ok size r :
  (1024 <= size <= 4096)%Z ->
  exists sk, generate 65537 size r = Ok sk /\ Z.of_nat (kbits sk) = size.
Proof.
  intros Hsize. unfold generate.
  destruct (Z.ltb_spec size 512); [lia|].
  eexists. split; [reflexivity|]. cbn. lia.
Qed.

Lemma encrypt_ok pk r m :
  (1024 <= Z.of_nat (kbits pk))%Z -> length m <= 62 ->
  exists c, encrypt pk r m = Ok c.
Proof.
  intros Hbits Hm. unfold encrypt.
  destruct (Nat.leb_spec (8 * (length m + 66)) (kbits pk)); [eauto | lia].
Qed.

Lemma decrypt_encrypt sk r m c : encrypt sk r m = Ok c -> decrypt sk c = Ok m.
Proof.
  unfold encrypt, decrypt. destruct (_ <=? _); [|done]. intros [= <-].
  by rewrite take_unary_unary, Nat.eqb_refl.
Qed.

Lemma verify_sign sk r m s : sign sk r m = Ok s -> verify sk s m = Ok tt.
Proof. intros [= <-]. unfold verify. by rewrite bool_decide_eq_true_2. Qed.

Lemma cbc_encrypt_ok k iv d :
  length k = 32 -> length iv = 16 -> length d mod 16 = 0 ->
  exists c, cbc_encrypt k iv d = Ok c.
Proof.
  intros Hk Hiv Hd. unfold cbc_encrypt, key_len_ok.
  rewrite Hk, Hiv, Hd. cbn. eauto.
Qed.

Lemma cert_pem_nonempty c :
  exists s, Ok (string_of_list_byte (cert_pem c)) = Ok s /\ s <> "".
Proof.
  eexists. split; [reflexivity|].
  unfold cert_pem, unary. by destruct (c_serial c).
Qed.

Lemma self_signed_ok cn pk r now sk :
  cn <> "" -> length (list_byte_of_string cn) <= 64 ->
  exists c, self_signed cn pk r now sk = Ok c.
Proof.
  intros Hcn Hlen. unfold self_signed.
  assert (H1 : 1 <= length (list_byte_of_string cn))
    by (destruct cn; [done | cbn; lia]).
  destruct (Nat.leb_spec 1 (length (list_byte_of_string cn))); [|lia].
  destruct (Nat.leb_spec (length (list_byte_of_string cn)) 64); [|lia].
  by eexists.
Qed.

Lemma laws : BackendLaws backend.
Proof.
  split.
  - exact generate_ok.
  - exact encrypt_ok.
  - exact decrypt_encrypt.
  - exact verify_sign.
  - exact cbc_encrypt_ok.
  - exact cbc_decrypt_encrypt.
  - exact b64dec_encode.
  - intros s. cbv [bytes_decode str_encode backend].
    by rewrite string_of_list_byte_of_string.
  - intros b s [= <-]. apply list_byte_of_string_of_list_byte.
  - exact loads_dumps.
  - exact cert_pem_nonempty.
  - exact load_cert_pem.
  - exact self_signed_ok.
  - intros cn pk r now sk c. cbv [x509_self_signed backend self_signed].
    destruct (_ && _); [|done]. intros [= <-]. by split.
Qed.

End MockFacts.

(** ** The statements on sample data *)

Module Witness.
Import Sample.

#[local] Existing Instance Mock.backend.

Lemma alice_pair : holds_key_pair alice alice_key.
Proof. by split. Qed.

Lemma alice_identity : holds_identity alice alice_key alice_cert.
Proof. by repeat split. Qed.

Lemma ledger_reachable : Ledger.reachable ledger.
Proof. eexists. split; [|reflexivity]. by repeat constructor. Qed.

(** The round trip at the block boundary: 0, 15, 16 and 17 bytes. *)
Example roundtrip_lengths :
  Forall (fun P =>
            (env <- encrypt_entry alice P key32 iv16 [] clock;;
             decrypt_entry alice env) = Ok P)
    [ ""; "fifteen bytes.."; "sixteen bytes ok"; "seventeen bytes !" ].
Proof. repeat constructor. Qed.

Lemma decrypt_encrypt_roundtrip_witness :
  holds_key_pair alice alice_key /\
  exists env,
    encrypt_entry alice "hello world" key32 iv16 [] clock = Ok env /\
    decrypt_entry alice env = Ok "hello world".
Proof.
  split; [exact alice_pair|].
  apply (decrypt_encrypt_roundtrip MockFacts.laws alice alice_key
           "hello world" key32 iv16 [] clock);
    [exact alice_pair | cbn; lia | reflexivity | reflexivity].
Defined.

(** Sign "hello", verify, revoke, verify again. *)
Lemma verify_signed_before_and_after_revocation_witness :
  sign_entry alice (VStr "hello") [] clock = Ok alices_signature /\
  exists signature ts,
    alices_signature !! "signature" = Some signature /\
    alices_signature !! "signed_timestamp" = Some ts /\
    alices_signature !! "cert_serial" = Some (get_certificate_serial alice) /\
    (Ledger.entries_for (get_certificate_serial alice) ledger = [] ->
     verify_signature alice ledger (VStr "hello") signature ts
       (get_certificate_serial alice) None None = (true, false)) /\
    (forall user rnow,
       Ledger.jsonable user ->
       verify_signature alice
         (Ledger.revoke_certificate ledger (get_certificate_serial alice) user rnow).2
         (VStr "hello") signature ts (get_certificate_serial alice) None None
       = (true, true)).
Proof.
  assert (H : sign_entry alice (VStr "hello") [] clock = Ok alices_signature)
    by reflexivity.
  split; [exact H|].
  exact (verify_signed_before_and_after_revocation MockFacts.laws
           alice alice_key alice_cert ledger (VStr "hello") [] clock
           alices_signature alice_pair eq_refl ledger_reachable H).
Defined.

(** The scenario of the specification, run: Bob, holding only Alice's
    certificate, gets (valid, not revoked); after Alice revokes her
    certificate he gets (valid, revoked). *)
Example alice_signs_bob_verifies :
  let info := or_empty (sign_entry alice (VStr "hello") [] clock) in
  let signature := default VNone (info !! "signature") in
  let ts := default VNone (info !! "signed_timestamp") in
  let serial := default VNone (info !! "cert_serial") in
  let ledger' := (Ledger.revoke_certificate ledger serial (VStr "alice") clock).2 in
  verify_signature bob ledger (VStr "hello") signature ts serial None (Some alice_cert)
    = (true, false) /\
  verify_signature bob ledger' (VStr "hello") signature ts serial None (Some alice_cert)
    = (true, true) /\
  verify_signature bob ledger' (VStr "hullo") signature ts serial None (Some alice_cert)
    = (false, false).
Proof. by vm_compute. Qed.

(** A signature that is not one, checked against a revoked-free ledger. *)
Lemma verify_signature_failure_is_verdict_witness :
  verify_signature_try alice ledger (VStr "hello") (VStr "AAAA")
    (VStr "2024-05-01T10:00:00Z") VNone None None = Raise InvalidSignature /\
  verify_signature alice ledger (VStr "hello") (VStr "AAAA")
    (VStr "2024-05-01T10:00:00Z") VNone None None = (false, false).
Proof.
  assert (H : verify_signature_try alice ledger (VStr "hello") (VStr "AAAA")
                (VStr "2024-05-01T10:00:00Z") VNone None None
              = Raise InvalidSignature) by reflexivity.
  split; [exact H|].
  exact (verify_signature_failure_is_verdict alice ledger (VStr "hello")
           (VStr "AAAA") (VStr "2024-05-01T10:00:00Z") VNone None None
           InvalidSignature H).
Defined.

(** Loading the keystore that lacks a public key, into Alice's manager:
    [False], and Alice now holds Bob's private key beside her own public
    key and certificate. *)
Lemma load_keystore_partial_update_witness :
  read_keystore broken_keystore "pw" = Ok (list_to_map payload_without_public_key) /\
  load_keystore (Stored broken_keystore) "pw" alice =
    (false, @Build_KeyManager Mock.backend (Some bob_key) (Some alice_key)
              (Some alice_cert)).
Proof.
  assert (H : read_keystore broken_keystore "pw"
              = Ok (list_to_map payload_without_public_key)) by reflexivity.
  split; [exact H|].
  apply (load_keystore_partial_update broken_keystore "pw" alice
           (list_to_map payload_without_public_key) bob_key H);
    by vm_compute.
Defined.

(** With the wrong password the same file is refused before anything is
    assigned. *)
Example wrong_password_keeps_state :
  load_keystore (Stored broken_keystore) "guess" alice = (false, alice).
Proof. by vm_compute. Qed.

(** C5, counterexample. A 1024-bit request is below 2048 and yet
    [generate_key_pair] returns normally with both keys set. *)
Lemma weak_key_generated :
  (1024 < 2048)%Z /\
  (generate_key_pair 1024 [] new_key_manager).1 = Ok tt /\
  ~ @rejects_weak_keys Mock.backend.
Proof.
  split; [lia|]. split; [reflexivity|].
  intros H.
  destruct (H 1024%Z [] new_key_manager ltac:(lia)) as (e & km' & He).
  apply (f_equal fst) in He. change (Ok tt = Raise e) in He. discriminate He.
Qed.

Lemma generate_key_pair_no_minimum_witness :
  (exists sk,
     generate_key_pair 1024 [] alice =
       (Ok tt, @Build_KeyManager Mock.backend (Some sk) (Some sk) (Some alice_cert)) /\
     key_size (public_key_of sk) = 1024%Z) /\
  generate_key_pair 256 [] alice =
    (Raise (ValueError "key_size must be at least 512-bits."), alice) /\
  generate_key_pair 600 [] alice =
    (Ok tt, @Build_KeyManager Mock.backend
              (Some {| Mock.kid := 0; Mock.kbits := 600 |})
              (Some {| Mock.kid := 0; Mock.kbits := 600 |})
              (Some alice_cert)).
Proof.
  destruct (generate_key_pair_no_minimum MockFacts.laws 1024 [] alice)
    as (Hok & _ & _).
  destruct (generate_key_pair_no_minimum MockFacts.laws 256 [] alice)
    as (_ & Hfail & _).
  destruct (generate_key_pair_no_minimum MockFacts.laws 600 [] alice)
    as (_ & _ & Hany).
  split; [apply Hok; lia|].
  split; [apply Hfail; reflexivity | apply Hany; reflexivity].
Defined.

(** Alice exports what she encrypted and signed; Bob imports it. *)
Lemma import_export_fidelity_witness :
  encrypt_and_sign alice "hello world" key32 iv16 [] [] clock clock
    = Ok alices_signed_envelope /\
  exists pkg metadata revoked cert,
    export_entry alice (VInt 1) meta alices_signed_envelope = Ok pkg /\
    import_entry bob ledger pkg
      = Ok (metadata, alices_signed_envelope, true, revoked, cert) /\
    cert = alice_cert /\
    VStr (str_of_int (cert_serial_number cert)) = get_certificate_serial alice /\
    Ledger.is_revoked ledger (get_certificate_serial alice) = Ok revoked.
Proof.
  assert (H : encrypt_and_sign alice "hello world" key32 iv16 [] [] clock clock
              = Ok alices_signed_envelope) by reflexivity.
  split; [exact H|].
  exact (import_export_fidelity MockFacts.laws alice alice_key alice_cert bob
           ledger "hello world" key32 iv16 [] [] clock clock
           alices_signed_envelope (VInt 1) meta
           (VStr "Monday") (VStr "2024-05-01T09:59:00Z")
           alice_identity ledger_reachable H eq_refl eq_refl).
Defined.

(** Bob has no certificate and cannot export; Alice can. *)
Lemma export_entry_needs_certificate_witness :
  export_entry bob (VInt 1) meta alices_envelope =
    Raise (ValueError "No certificate available to export.") /\
  exists pem,
    bytes_decode (cert_public_bytes alice_cert) = Ok pem /\
    export_entry alice (VInt 1) meta alices_envelope =
      Ok {| entry_id := VInt 1;
            title := VStr "Monday";
            created := VStr "2024-05-01T09:59:00Z";
            encrypted_data := alices_envelope;
            signer_certificate := pem |}.
Proof.
  destruct (export_entry_needs_certificate MockFacts.laws bob (VInt 1) meta
              alices_envelope) as [Hnone _].
  destruct (export_entry_needs_certificate MockFacts.laws alice (VInt 1) meta
              alices_envelope) as [_ Hsome].
  split; [apply Hnone; reflexivity | apply Hsome; reflexivity].
Defined.

(** Revoking serial 41 twice on the sample ledger. *)
Lemma revoke_twice_one_entry_witness :
  Ledger.reachable ledger /\
  exists b f1,
    Ledger.revoke_certificate ledger (VStr "41") (VStr "alice") clock = (Ok b, f1) /\
    Ledger.revoke_certificate f1 (VStr "41") VNone clock = (Ok false, f1) /\
    length (Ledger.entries_for (VStr "41") f1) = 1 /\
    Ledger.entries ledger `prefix_of` Ledger.entries f1 /\
    forall ops, Forall Ledger.op_ok ops ->
                Ledger.entries f1 `prefix_of` Ledger.entries (Ledger.run ops f1).
Proof.
  split; [exact ledger_reachable|].
  exact (LedgerFacts.revoke_twice_one_entry ledger (VStr "41") (VStr "alice")
           clock VNone clock ledger_reachable I I I).
Defined.

(** C9, counterexample. Presented to Alice, the envelope made for Bob
    fails at key unwrapping with the text
    ["Decryption failed: Decryption failed"], and the emptied envelope
    fails at padding removal with
    ["Decryption failed: index out of range"]. *)
Lemma failure_text_tells_the_step :
  fails_at_unwrap alice bobs_envelope /\
  fails_at_unpad alice emptied_envelope /\
  decrypt_entry alice bobs_envelope
    = Raise (Exception "Decryption failed: Decryption failed") /\
  decrypt_entry alice emptied_envelope
    = Raise (Exception "Decryption failed: index out of range") /\
  ~ same_failure_text alice.
Proof.
  assert (H1 : fails_at_unwrap alice bobs_envelope).
  { eexists _, _, _, _, _. repeat split; reflexivity. }
  assert (H2 : fails_at_unpad alice emptied_envelope).
  { eexists _, _, _, _, _, _, _. repeat split; reflexivity. }
  split; [exact H1|]. split; [exact H2|].
  split; [reflexivity|]. split; [reflexivity|].
  intros H.
  specialize (H bobs_envelope emptied_envelope
                (Exception "Decryption failed: Decryption failed")
                (Exception "Decryption failed: index out of range")
                H1 H2 eq_refl eq_refl).
  discriminate H.
Qed.

Lemma decrypt_entry_failure_text_witness :
  decrypt_entry alice bobs_envelope =
    Raise (Exception "Decryption failed: Decryption failed") /\
  exists inner,
    decrypt_entry_try alice bobs_envelope = Raise inner /\
    Exception "Decryption failed: Decryption failed"
      = Exception ("Decryption failed: " +:+ exn_str inner) /\
    exn_str (Exception "Decryption failed: Decryption failed")
      = "Decryption failed: " +:+ exn_str inner.
Proof.
  split; [reflexivity|].
  exact (decrypt_entry_failure_text alice bobs_envelope _ eq_refl).
Defined.

(** Alice's unsigned envelope: decrypted, reported unsigned. *)
Lemma verify_and_decrypt_unsigned_witness :
  alices_envelope !! "signature" = None /\
  verify_and_decrypt alice ledger alices_envelope =
    (plaintext <- decrypt_entry alice alices_envelope;; Ok (plaintext, false, false)).
Proof.
  split; [reflexivity|].
  apply (verify_and_decrypt_unsigned alice ledger alices_envelope).
  left. reflexivity.
Defined.

Example unsigned_envelope_verdict :
  verify_and_decrypt alice Garbled alices_envelope = Ok ("hello world", false, false).
Proof. by vm_compute. Qed.

End Witness.

(** * Further properties *)

(** ** The keystore: save, then load *)

Section KeystoreRoundTrip.

Context {B : Backend} {P : PemBackend B} (L : BackendLaws B) (PL : PemLaws B P).

Lemma keystore_items_keys private_pem public_pem cert_pem :
  NoDup (keystore_items private_pem public_pem cert_pem).*1.
Proof.
  unfold keystore_items.
  destruct cert_pem as [[|x pem]|]; simpl;
    apply (bool_decide_unpack _); by vm_compute.
Qed.

Lemma keystore_items_strings private_pem public_pem cert_pem :
  Forall (fun kv => exists s, kv.2 = VStr s)
    (keystore_items private_pem public_pem cert_pem).
Proof.
  unfold keystore_items.
  destruct cert_pem as [[|x pem]|]; cbn; repeat constructor; cbn; eauto.
Qed.

(** The payload read back from the items written. *)
Lemma keystore_items_lookup private_pem public_pem cert_pem :
  let payload : gmap string value :=
    list_to_map (keystore_items private_pem public_pem cert_pem) in
  payload !! "private_key" = Some (VStr (b64encode private_pem)) /\
  payload !! "public_key" = Some (VStr (b64encode public_pem)) /\
  payload !! "certificate" =
    match cert_pem with
    | Some (x :: pem) => Some (VStr (b64encode (x :: pem)))
    | _ => None
    end.
Proof.
  unfold keystore_items.
  destruct cert_pem as [[|x pem]|]; cbn; repeat split;
    repeat (rewrite lookup_insert_ne by done);
    first [apply lookup_insert_eq | apply lookup_empty].
Qed.

(** With both keys held and a 16-byte IV, [save_keystore] writes its files. *)
Lemma save_keystore_Ok password salt iv km disk sk pk :
  private_key km = Some sk ->
  public_key km = Some pk ->
  length iv = 16 ->
  let cert_pem := match certificate km with
                  | Some c => Some (cert_public_bytes c)
                  | None => None
                  end in
  exists text padded data,
    json_dumps (keystore_items (private_bytes sk) (public_bytes pk) cert_pem) = Ok text /\
    pad16 (str_encode text) = Ok padded /\
    unpad padded = Ok (str_encode text) /\
    aes_cbc_encrypt (_derive_key_from_password password salt) iv padded = Ok data /\
    save_keystore password salt iv km disk =
      (Ok tt,
       {| keystore_file :=
            Stored {[ "salt" := VStr (b64encode salt);
                      "iv" := VStr (b64encode iv);
                      "data" := VStr (b64encode data) ]};
          cert_file := match cert_pem with
                       | Some pem => Some pem
                       | None => cert_file disk
                       end |}).
Proof.
  intros Hsk Hpk Hiv cert_pem.
  destruct (json_dumps_strings _
              (keystore_items_strings (private_bytes sk) (public_bytes pk) cert_pem))
    as (text & Htext).
  destruct (pad16_spec (str_encode text)) as (tl & Hpad & _ & Hblocks & Hunpad).
  destruct (aes_cbc_encrypt_ok (_derive_key_from_password password salt) iv _
              (pbkdf2_length _ _) Hiv Hblocks) as (data & Hdata).
  exists text, (str_encode text ++ tl), data.
  repeat split; try done.
  unfold save_keystore. rewrite Hsk, Hpk. fold cert_pem.
  rewrite Htext. cbn [bind]. rewrite Hpad. cbn [bind]. by rewrite Hdata.
Qed.

(** Saving, then loading with the same password. *)
Lemma save_then_load password salt iv km disk sk pk km0 :
  private_key km = Some sk ->
  public_key km = Some pk ->
  length iv = 16 ->
  exists disk',
    save_keystore password salt iv km disk = (Ok tt, disk') /\
    load_keystore (keystore_file disk') password km0 =
      (true, {| private_key := Some sk;
                public_key := Some pk;
                certificate := certificate km |}).
Proof.
  intros Hsk Hpk Hiv.
  destruct (save_keystore_Ok password salt iv km disk sk pk Hsk Hpk Hiv)
    as (text & padded & data & Htext & Hpad & Hunpad & Hdata & Hsave).
  eexists. split; [exact Hsave|]. cbn [keystore_file].
  set (cert_pem := match certificate km with
                   | Some c => Some (cert_public_bytes c)
                   | None => None
                   end) in *.
  destruct (keystore_items_lookup (private_bytes sk) (public_bytes pk) cert_pem)
    as (Hpriv & Hpub & Hcert).
  assert (Hread : read_keystore
            {[ "salt" := VStr (b64encode salt);
               "iv" := VStr (b64encode iv);
               "data" := VStr (b64encode data) ]} password
          = Ok (list_to_map
                  (keystore_items (private_bytes sk) (public_bytes pk) cert_pem))).
  { unfold read_keystore, getitem.
    rewrite lookup_insert_eq. cbn [bind]. rewrite b64decode_encode. cbn [bind].
    rewrite lookup_insert_ne by done. rewrite lookup_insert_eq. cbn [bind].
    rewrite b64decode_encode. cbn [bind].
    do 2 (rewrite lookup_insert_ne by done). rewrite lookup_singleton_eq.
    cbn [bind]. rewrite b64decode_encode. cbn [bind].
    rewrite (aes_cbc_decrypt_encrypt _ _ _ _ Hdata). cbn [bind].
    rewrite Hunpad. cbn [bind]. rewrite bytes_decode_encode. cbn [bind].
    apply json_loads_dumps; [apply keystore_items_keys | exact Htext]. }
  unfold load_keystore, load_keystore_try, mbind, lift,
    set_private_key, set_public_key, set_certificate.
  rewrite Hread. unfold getitem. rewrite Hpriv. cbn [bind].
  rewrite b64decode_encode. cbn [bind]. rewrite load_private_bytes.
  cbn [private_key public_key certificate].
  rewrite Hpub. cbn [bind]. rewrite b64decode_encode. cbn [bind].
  rewrite load_public_bytes. cbn [private_key public_key certificate].
  rewrite Hcert. subst cert_pem.
  destruct (certificate km) as [c|]; [|reflexivity].
  destruct (cert_public_bytes c) as [|x pem] eqn:Epem;
    [by apply cert_pem_nonempty in Epem|].
  rewrite b64decode_encode. cbn [bind].
  by rewrite <- Epem, load_cert_public_bytes.
Qed.

(** X1. Keystore round trip. A manager that holds both keys saves its
    keystore successfully (any password, any salt, a 16-byte IV): the
    keystore file records the salt and the IV, and the certificate file is
    written when there is a certificate and left alone otherwise. Then
    [load_keystore] with the same password returns [True] into any
    manager, leaving it with exactly the saved private key, public key and
    certificate: a saved certificate comes back, and a manager saved
    without one comes back without one, whatever the loading manager held. *)
Theorem keystore_round_trip password salt iv km disk sk pk km0 :
  private_key km = Some sk ->
  public_key km = Some pk ->
  length iv = 16 ->
  exists disk' keystore,
    save_keystore password salt iv km disk = (Ok tt, disk') /\
    keystore_file disk' = Stored keystore /\
    keystore !! "salt" = Some (VStr (b64encode salt)) /\
    keystore !! "iv" = Some (VStr (b64encode iv)) /\
    cert_file disk' = match certificate km with
                      | Some c => Some (cert_public_bytes c)
                      | None => cert_file disk
                      end /\
    load_keystore (keystore_file disk') password km0 =
      (true, {| private_key := Some sk;
                public_key := Some pk;
                certificate := certificate km |}).
Proof.
  intros Hsk Hpk Hiv.
  destruct (save_keystore_Ok password salt iv km disk sk pk Hsk Hpk Hiv)
    as (text & padded & data & _ & _ & _ & _ & Hsave).
  destruct (save_then_load password salt iv km disk sk pk km0 Hsk Hpk Hiv)
    as (disk' & Hsave' & Hload).
  rewrite Hsave in Hsave'. injection Hsave' as <-.
  eexists _, _. split; [exact Hsave|]. cbn [keystore_file cert_file].
  split; [reflexivity|].
  split; [apply lookup_insert_eq|].
  split; [by rewrite lookup_insert_ne, lookup_insert_eq|].
  split; [by destruct (certificate km) | exact Hload].
Qed.

(** X2. What was encrypted before the keystore was saved decrypts after
    it is loaded again, into a fresh manager or any other: save, load
    with the same password, and [decrypt_entry] returns the plaintext. *)
Theorem decrypt_after_reload password salt iv km disk sk km0
    plain aes_key iv' seed now env :
  holds_key_pair km sk ->
  length iv = 16 ->
  encrypt_entry km plain aes_key iv' seed now = Ok env ->
  exists disk' km',
    save_keystore password salt iv km disk = (Ok tt, disk') /\
    load_keystore (keystore_file disk') password km0 = (true, km') /\
    decrypt_entry km' env = Ok plain.
Proof.
  intros [Hsk Hpk] Hiv Henc.
  destruct (save_then_load password salt iv km disk sk _ km0 Hsk Hpk Hiv)
    as (disk' & Hsave & Hload).
  eexists disk', _. split; [exact Hsave|]. split; [exact Hload|].
  apply encrypt_entry_Ok in Henc
    as (padded & c & pk & ek & Hpad & Hc & Hpk' & Hek & ->).
  rewrite Hpk in Hpk'. injection Hpk' as <-.
  eapply (decrypt_encrypted L _ sk plain aes_key iv' seed now).
  - by split.
  - unfold encrypt_entry. rewrite Hpad. cbn [bind]. rewrite Hc. cbn [bind].
    cbn [need_public get_public_key public_key bind]. by rewrite Hek.
Qed.

(** X3. [save_keystore] writes only after everything that can fail has
    succeeded: whenever it raises, both files are as they were. Without a
    private key it raises [ValueError], with a private key but no public
    key (the state a half-finished load leaves) [AttributeError]. *)
Theorem save_keystore_failure_writes_nothing password salt iv km disk :
  (forall e disk',
     save_keystore password salt iv km disk = (Raise e, disk') -> disk' = disk) /\
  (private_key km = None ->
   save_keystore password salt iv km disk =
     (Raise (ValueError "No keys to save. Generate keys first."), disk)) /\
  (forall sk,
     private_key km = Some sk -> public_key km = None ->
     exists msg, save_keystore password salt iv km disk = (Raise (AttributeError msg), disk)).
Proof.
  unfold save_keystore. repeat split.
  - intros e disk'.
    destruct (private_key km); [|by intros [= _ <-]].
    destruct (public_key km); [|by intros [= _ <-]].
    destruct (bind _ _); [discriminate | by intros [= _ <-]].
  - by intros ->.
  - intros sk -> ->. eauto.
Qed.

End KeystoreRoundTrip.

(** ** Keys and certificates *)

Section KeyLifecycle.

Context {B : Backend} {P : PemBackend B} (L : BackendLaws B) (PL : PemLaws B P).

(** X4. Enrollment as [register_user] runs it: [generate_key_pair] with a
    size from 1024 to 4096 bits, then
    [generate_self_signed_certificate] for a name of 1 to 64 bytes (what
    X.509 allows a common name; the method itself does not bound the
    name), both succeed from any state and leave a key pair of that size
    with a certificate issued for its public key and naming the subject.
    Nothing of what the manager held before is left: with the same random
    draws every starting state ends in the same one. *)
Theorem enrollment_leaves_identity size e1 cn e2 now km :
  (1024 <= size <= 4096)%Z ->
  cn <> "" ->
  length (str_encode cn) <= 64 ->
  exists sk c km1 km2,
    generate_key_pair size e1 km = (Ok tt, km1) /\
    generate_self_signed_certificate cn e2 now km1 = (Ok tt, km2) /\
    holds_identity km2 sk c /\
    cert_common_names c = [cn] /\
    key_size (public_key_of sk) = size /\
    forall km0,
      exists km1',
        generate_key_pair size e1 km0 = (Ok tt, km1') /\
        generate_self_signed_certificate cn e2 now km1' = (Ok tt, km2).
Proof.
  intros Hsize Hcn Hlen.
  destruct (rsa_generate_ok size e1 Hsize) as (sk & Hgen & Hsz).
  destruct (x509_self_signed_ok cn (public_key_of sk) e2 now sk Hcn Hlen)
    as (c & Hc).
  destruct (x509_self_signed_fields _ _ _ _ _ _ Hc) as (Hpk & Hcns).
  assert (Hrun : forall km0,
    generate_key_pair size e1 km0 =
      (Ok tt, {| private_key := Some sk;
                 public_key := Some (public_key_of sk);
                 certificate := certificate km0 |}) /\
    generate_self_signed_certificate cn e2 now
        {| private_key := Some sk;
           public_key := Some (public_key_of sk);
           certificate := certificate km0 |} =
      (Ok tt, {| private_key := Some sk;
                 public_key := Some (public_key_of sk);
                 certificate := Some c |})).
  { intros km0.
    unfold generate_key_pair, generate_self_signed_certificate, mbind, lift,
      set_private_key, set_public_key, set_certificate.
    rewrite Hgen. cbn. by rewrite Hc. }
  destruct (Hrun km) as (Hkeys & Hcert).
  eexists sk, c, _, _. split; [exact Hkeys|]. split; [exact Hcert|].
  split; [|split; [done|split; [done|]]].
  - repeat split; try done. by rewrite Hcns.
  - intros km0. destruct (Hrun km0) as (Hkeys0 & Hcert0). by eexists.
Qed.

(** X5. [generate_self_signed_certificate] never touches the keys: after
    it, private and public key are what they were, whatever it returned.
    If it raises, the certificate is unchanged as well, and without a
    private key it raises [ValueError("Generate key pair first.")]. *)
Theorem generate_self_signed_certificate_keeps_keys cn e now km r km' :
  generate_self_signed_certificate cn e now km = (r, km') ->
  private_key km' = private_key km /\
  public_key km' = public_key km /\
  (forall err, r = Raise err -> km' = km) /\
  (private_key km = None -> r = Raise (ValueError "Generate key pair first.")).
Proof.
  unfold generate_self_signed_certificate, mbind, lift, set_certificate.
  destruct (private_key km) as [sk|] eqn:Esk.
  - destruct (public_key km) as [pk|] eqn:Epk.
    + destruct (x509_self_signed cn pk e now sk) as [c|err0].
      * intros [= <- <-]. cbn. by repeat split.
      * intros [= <- <-]. by repeat split.
    + intros [= <- <-]. by repeat split.
  - intros [= <- <-]. by repeat split.
Qed.

(** X6. A successful [load_keystore] replaces the whole key state: the
    manager it leaves depends on the file and the password only, not on
    what the manager held before. In particular no certificate survives a
    load of a keystore that has none. *)
Theorem load_keystore_success_forgets f password km1 km2 loaded :
  load_keystore f password km1 = (true, loaded) ->
  load_keystore f password km2 = (true, loaded).
Proof.
  unfold load_keystore, load_keystore_try, mbind, lift,
    set_private_key, set_public_key, set_certificate.
  destruct f as [| |keystore]; [done | done |].
  destruct (read_keystore keystore password) as [payload|]; [|done].
  destruct (bind (getitem payload "private_key") _) as [sk|]; [|done].
  destruct (bind (getitem payload "public_key") _) as [pk|]; [|done].
  destruct (payload !! "certificate") as [v|].
  - destruct (bind (b64decode v) _) as [c|]; [|done].
    cbn. by intros [= <-].
  - cbn. by intros [= <-].
Qed.

(** X7. What a failing [load_keystore] can leave behind. When it returns
    [False] the manager is as it was, or has a new private key beside the
    old public key, or has both keys new; the certificate is never
    touched. It is as it was whenever the file is missing or unparsable or
    the payload cannot be read (a missing or undecodable field, a blob
    that does not decrypt to JSON, as after a wrong password). *)
Theorem load_keystore_failure_shapes f password km km' :
  load_keystore f password km = (false, km') ->
  (km' = km \/
   (exists sk, km' = {| private_key := Some sk;
                        public_key := public_key km;
                        certificate := certificate km |}) \/
   (exists sk pk, km' = {| private_key := Some sk;
                           public_key := Some pk;
                           certificate := certificate km |})) /\
  certificate km' = certificate km /\
  (match f with
   | Stored keystore =>
       exists e, read_keystore keystore password = Raise e
   | _ => True
   end -> km' = km).
Proof.
  intros Hload.
  assert (Hshape :
    (km' = km \/
     (exists sk, km' = {| private_key := Some sk;
                          public_key := public_key km;
                          certificate := certificate km |}) \/
     (exists sk pk, km' = {| private_key := Some sk;
                             public_key := Some pk;
                             certificate := certificate km |})) /\
    (match f with
     | Stored keystore =>
         exists e, read_keystore keystore password = Raise e
     | _ => True
     end -> km' = km)).
  { revert Hload.
    unfold load_keystore, load_keystore_try, mbind, lift,
      set_private_key, set_public_key, set_certificate.
    destruct f as [| |keystore]; [by intros [= <-]; split; [left|]..|].
    destruct (read_keystore keystore password) as [payload|e0].
    2: { intros [= <-]. split; [by left | done]. }
    split; [|by intros (e & ?)]. revert Hload.
    destruct (bind (getitem payload "private_key") _) as [sk|e1];
      [|intros [= <-]; by left].
    cbn [private_key public_key certificate].
    destruct (bind (getitem payload "public_key") _) as [pk|e2];
      [|intros [= <-]; right; left; by exists sk].
    cbn [private_key public_key certificate].
    destruct (payload !! "certificate") as [v|]; [|done].
    destruct (bind (b64decode v) _) as [c|e3]; [done|].
    intros [= <-]. right. right. by exists sk, pk. }
  destruct Hshape as (Hshape & Hearly). split; [exact Hshape|]. split; [|exact Hearly].
  destruct Hshape as [->|[(sk & ->)|(sk & pk & ->)]]; reflexivity.
Qed.

(** X8. The PEM text each export method returns parses back to what the
    manager holds: the public key, the private key (exported without a
    password) and the certificate. A manager that lacks the item gets
    [None]. *)
Theorem exported_pem_parses_back km entropy :
  match public_key km with
  | Some pk =>
      exists pem, export_public_key_pem km = Ok (Some pem) /\
                  load_pem_public_key (str_encode pem) = Ok pk
  | None => export_public_key_pem km = Ok None
  end /\
  match private_key km with
  | Some sk =>
      exists pem, export_private_key_pem km VNone entropy = Ok (Some pem) /\
                  load_pem_private_key (str_encode pem) = Ok sk
  | None => forall password, export_private_key_pem km password entropy = Ok None
  end /\
  match certificate km with
  | Some c =>
      exists pem, export_certificate_pem km = Ok (Some pem) /\
                  load_pem_x509_certificate (str_encode pem) = Ok c
  | None => export_certificate_pem km = Ok None
  end.
Proof.
  unfold export_public_key_pem, export_private_key_pem, export_certificate_pem.
  repeat split.
  - destruct (public_key km) as [pk|]; [|done].
    destruct (public_pem_text pk) as (pem & Hpem). exists pem.
    rewrite Hpem. split; [done|].
    by rewrite (str_encode_decode _ _ Hpem), load_public_bytes.
  - destruct (private_key km) as [sk|]; [|done].
    destruct (private_pem_text sk) as (pem & Hpem). exists pem.
    cbn [truthy]. rewrite Hpem. split; [done|].
    by rewrite (str_encode_decode _ _ Hpem), load_private_bytes.
  - destruct (certificate km) as [c|]; [|done].
    destruct (cert_pem_text c) as (pem & Hpem & _). exists pem.
    rewrite Hpem. split; [done|].
    by rewrite (str_encode_decode _ _ Hpem), load_cert_public_bytes.
Qed.

End KeyLifecycle.

(** ** Signed envelopes *)

Section SignedEnvelopes.

Context {B : Backend} (L : BackendLaws B).

(** [decrypt_entry] reads three fields and nothing else. *)
Lemma decrypt_entry_fields km env1 env2 :
  env1 !! "encrypted_key" = env2 !! "encrypted_key" ->
  env1 !! "iv" = env2 !! "iv" ->
  env1 !! "ciphertext" = env2 !! "ciphertext" ->
  decrypt_entry km env1 = decrypt_entry km env2.
Proof.
  intros H1 H2 H3. unfold decrypt_entry, decrypt_entry_try, getitem.
  by rewrite H1, H2, H3.
Qed.

(** [encrypt_and_sign], taken apart. *)
Lemma encrypt_and_sign_parts km plain aes_key iv seed salt now1 now2 env :
  encrypt_and_sign km plain aes_key iv seed salt now1 now2 = Ok env ->
  exists enc ct text sk signature,
    encrypt_entry km plain aes_key iv seed now1 = Ok enc /\
    enc !! "ciphertext" = Some (VStr ct) /\
    json_dumps (signed_structure (VStr ct) (VStr (now2 +:+ "Z"))) = Ok text /\
    private_key km = Some sk /\
    pss_sign sk salt (str_encode text) = Ok signature /\
    env = <["cert_serial" := get_certificate_serial km]>
            (<["signed_timestamp" := VStr (now2 +:+ "Z")]>
               (<["signature" := VStr (b64encode signature)]> enc)).
Proof.
  unfold encrypt_and_sign. intros H.
  inv_bind H as enc Henc. inv_bind H as ctv Hct. inv_bind H as info Hinfo.
  inv_bind H as sg Hsg. inv_bind H as ts Hts. inv_bind H as cs Hcs.
  injection H as <-.
  pose proof Henc as Henc'.
  apply encrypt_entry_Ok in Henc' as (padded & c & pk & ek & _ & _ & _ & _ & Eenc).
  apply getitem_Ok in Hct. pose proof Hct as Hct'. rewrite Eenc in Hct'.
  do 2 (rewrite lookup_insert_ne in Hct' by done).
  rewrite lookup_insert_eq in Hct'. injection Hct' as <-.
  apply sign_entry_Ok in Hinfo as (text & sk & signature & Htext & Hsk & Hsig & ->);
    [|assumption].
  apply getitem_Ok in Hsg, Hts, Hcs.
  rewrite lookup_insert_eq in Hsg. injection Hsg as <-.
  rewrite lookup_insert_ne in Hts by done.
  rewrite lookup_insert_eq in Hts. injection Hts as <-.
  do 2 (rewrite lookup_insert_ne in Hcs by done).
  rewrite lookup_singleton_eq in Hcs. injection Hcs as <-.
  eexists enc, _, text, sk, signature. by repeat split.
Qed.

(** X9. Reading back one's own entry: for an envelope the manager made
    with [encrypt_and_sign], [verify_and_decrypt] returns the plaintext
    with [is_valid = True], and [is_revoked] says whether the ledger has an
    entry for the manager's certificate serial ([False] for a manager
    without certificate). *)
Theorem verify_and_decrypt_own km sk ledger plain aes_key iv seed salt now1 now2 env :
  holds_key_pair km sk ->
  Ledger.reachable ledger ->
  encrypt_and_sign km plain aes_key iv seed salt now1 now2 = Ok env ->
  verify_and_decrypt km ledger env =
    Ok (plain, true,
        match certificate km with
        | Some _ =>
            bool_decide (Ledger.entries_for (get_certificate_serial km) ledger <> [])
        | None => false
        end).
Proof.
  intros Hkm Hreach Henv.
  apply LedgerFacts.invariant_reachable in Hreach as Hinv.
  apply encrypt_and_sign_parts in Henv
    as (enc & ct & text & sk' & sg & Henc & Hct & Htext & Hsk' & Hsig & ->).
  destruct Hkm as [Hsk Hpk]. rewrite Hsk in Hsk'. injection Hsk' as <-.
  assert (Hdec : decrypt_entry km
            (<["cert_serial" := get_certificate_serial km]>
               (<["signed_timestamp" := VStr (now2 +:+ "Z")]>
                  (<["signature" := VStr (b64encode sg)]> enc))) = Ok plain).
  { rewrite (decrypt_entry_fields km _ enc);
      [by eapply decrypt_encrypted | ..];
      by repeat (rewrite lookup_insert_ne by done). }
  unfold verify_and_decrypt. rewrite Hdec.
  unfold contains.
  rewrite !bool_decide_eq_true_2
    by (repeat (rewrite lookup_insert_ne by done); rewrite lookup_insert_eq;
        by eexists).
  cbn [andb]. unfold getitem.
  rewrite lookup_insert_eq. cbn [default from_option]. unfold id.
  do 3 (rewrite lookup_insert_ne by done). rewrite Hct. cbn [bind].
  do 2 (rewrite lookup_insert_ne by done). rewrite lookup_insert_eq. cbn [bind].
  rewrite lookup_insert_ne by done. rewrite lookup_insert_eq. cbn [bind].
  assert (Hrev :
    (if truthy (get_certificate_serial km)
     then Ledger.is_revoked ledger (get_certificate_serial km)
     else Ok false)
    = Ok match certificate km with
         | Some _ =>
             bool_decide
               (Ledger.entries_for (get_certificate_serial km) ledger <> [])
         | None => false
         end).
  { pose proof (is_revoked_invariant ledger (get_certificate_serial km) Hinv) as Hl.
    unfold get_certificate_serial in *.
    destruct (certificate km) as [c|]; cbn [truthy]; [|reflexivity].
    destruct (String.eqb _ "") eqn:E; [|exact Hl].
    apply String.eqb_eq in E. by apply str_of_int_nonempty in E. }
  by rewrite (verify_signature_valid L km ledger (VStr ct) (VStr (now2 +:+ "Z"))
                (get_certificate_serial km) None None sk salt text sg _
                Htext Hsig Hpk Hrev).
Qed.

(** X10. A ledger file that does not parse. [verify_signature] answers
    [(False, False)] for every check made with a serial, whatever the
    signature; [import_entry] lets the parse error out once the package's
    certificate has loaded. *)
Theorem unreadable_ledger km data signature_b64 timestamp cert_serial pk cert p c :
  truthy cert_serial = true ->
  load_pem_x509_certificate (str_encode (signer_certificate p)) = Ok c ->
  verify_signature km Garbled data signature_b64 timestamp cert_serial pk cert
    = (false, false) /\
  import_entry km Garbled p = Raise (JSONDecodeError "Expecting value").
Proof.
  intros Hs Hc. split.
  - unfold verify_signature, verify_signature_try. by rewrite Hs.
  - unfold import_entry. by rewrite Hc.
Qed.

(** On the packages [export_entry] builds, the dict-level method is
    [import_entry]. *)
Lemma import_entry_dict_package km ledger p :
  import_entry_dict km ledger (package_dict p) =
    (out <- import_entry km ledger p;;
     let '(metadata, enc, valid, revoked, c) := out in
     Ok (Scalar <$> metadata, enc, valid, revoked, c)).
Proof.
  unfold import_entry_dict, import_entry, package_dict, member_of.
  assert (Hcert : ({[ "entry_id" := Scalar (entry_id p);
                      "title" := Scalar (title p);
                      "created" := Scalar (created p);
                      "encrypted_data" := Object (encrypted_data p);
                      "signer_certificate" := Scalar (VStr (signer_certificate p)) ]}
                   : gmap string member) !! "signer_certificate"
                  = Some (Scalar (VStr (signer_certificate p)))).
  { repeat (rewrite lookup_insert_ne by done). apply lookup_singleton_eq. }
  assert (Henc : ({[ "entry_id" := Scalar (entry_id p);
                     "title" := Scalar (title p);
                     "created" := Scalar (created p);
                     "encrypted_data" := Object (encrypted_data p);
                     "signer_certificate" := Scalar (VStr (signer_certificate p)) ]}
                  : gmap string member) !! "encrypted_data"
                 = Some (Object (encrypted_data p))).
  { repeat (rewrite lookup_insert_ne by done). apply lookup_insert_eq. }
  assert (Htitle : ({[ "entry_id" := Scalar (entry_id p);
                       "title" := Scalar (title p);
                       "created" := Scalar (created p);
                       "encrypted_data" := Object (encrypted_data p);
                       "signer_certificate" := Scalar (VStr (signer_certificate p)) ]}
                    : gmap string member) !! "title" = Some (Scalar (title p))).
  { repeat (rewrite lookup_insert_ne by done). apply lookup_insert_eq. }
  assert (Hcreated : ({[ "entry_id" := Scalar (entry_id p);
                         "title" := Scalar (title p);
                         "created" := Scalar (created p);
                         "encrypted_data" := Object (encrypted_data p);
                         "signer_certificate" := Scalar (VStr (signer_certificate p)) ]}
                      : gmap string member) !! "created" = Some (Scalar (created p))).
  { repeat (rewrite lookup_insert_ne by done). apply lookup_insert_eq. }
  rewrite Hcert, Henc, Htitle, Hcreated. cbn [bind encode_member as_dict].
  destruct (load_pem_x509_certificate _) as [c|]; [|reflexivity]. cbn [bind].
  destruct (Ledger.is_revoked _ _) as [revoked|]; [|reflexivity]. cbn [bind].
  destruct (getitem (encrypted_data p) "ciphertext") as [ct|]; [|reflexivity].
  cbn [bind].
  destruct (getitem (encrypted_data p) "signature") as [sg|]; [|reflexivity].
  cbn [bind].
  destruct (getitem (encrypted_data p) "signed_timestamp") as [ts|]; [|reflexivity].
  cbn [bind].
  destruct (verify_signature _ _ _ _ _ _ _ _) as [valid r].
  destruct (cert_common_names c) as [|cn cns]; [reflexivity|]. cbn [bind].
  by rewrite !fmap_insert, map_fmap_singleton.
Qed.

(** X11. What [import_entry] does with any dict read from a file, on a
    ledger the program wrote. It raises [KeyError] for the first member
    that is missing, in the order ['signer_certificate'],
    ['encrypted_data'], then the envelope's ['ciphertext'], ['signature'],
    ['signed_timestamp'], then ['title'], ['created']: the last two only
    after the certificate has loaded, the ledger has been read and the
    signature checked. With all of them there it returns (or raises
    [IndexError] for a certificate that names no subject): the metadata are
    the package's title and creation time with the certificate's common
    name, the envelope is handed on as it is, and [is_revoked] is the
    ledger's answer for the certificate's serial, whether or not the
    signature verifies. *)
Theorem import_entry_verdict km ledger (p : gmap string member) :
  Ledger.reachable ledger ->
  (p !! "signer_certificate" = None ->
   import_entry_dict km ledger p = Raise (KeyError "signer_certificate")) /\
  (forall pem c,
     p !! "signer_certificate" = Some (Scalar (VStr pem)) ->
     load_pem_x509_certificate (str_encode pem) = Ok c ->
     let serial := VStr (str_of_int (cert_serial_number c)) in
     (p !! "encrypted_data" = None ->
      import_entry_dict km ledger p = Raise (KeyError "encrypted_data")) /\
     (forall env,
        p !! "encrypted_data" = Some (Object env) ->
        (env !! "ciphertext" = None ->
         import_entry_dict km ledger p = Raise (KeyError "ciphertext")) /\
        (forall ct,
           env !! "ciphertext" = Some ct ->
           (env !! "signature" = None ->
            import_entry_dict km ledger p = Raise (KeyError "signature")) /\
           (forall sg,
              env !! "signature" = Some sg ->
              (env !! "signed_timestamp" = None ->
               import_entry_dict km ledger p = Raise (KeyError "signed_timestamp")) /\
              (forall ts,
                 env !! "signed_timestamp" = Some ts ->
                 (p !! "title" = None ->
                  import_entry_dict km ledger p = Raise (KeyError "title")) /\
                 (forall t,
                    p !! "title" = Some t ->
                    (p !! "created" = None ->
                     import_entry_dict km ledger p = Raise (KeyError "created")) /\
                    (forall cr,
                       p !! "created" = Some cr ->
                       import_entry_dict km ledger p =
                         match cert_common_names c with
                         | cn :: _ =>
                             Ok ({[ "title" := t;
                                    "created" := cr;
                                    "imported_from" := Scalar (VStr cn) ]},
                                 env,
                                 (verify_signature km ledger ct sg ts serial
                                    None (Some c)).1,
                                 bool_decide (Ledger.entries_for serial ledger <> []),
                                 c)
                         | [] => Raise (IndexError "list index out of range")
                         end))))))).
Proof.
  intros Hreach.
  apply LedgerFacts.invariant_reachable in Hreach as Hinv.
  unfold import_entry_dict, member_of. split.
  { by intros ->. }
  intros pem c -> Hc. cbn [bind encode_member]. rewrite Hc. cbn [bind].
  set (serial := VStr (str_of_int (cert_serial_number c))).
  rewrite (is_revoked_invariant _ _ Hinv). cbn [bind]. split.
  { by intros ->. }
  intros env ->. cbn [bind as_dict]. unfold getitem. split.
  { by intros ->. }
  intros ct ->. cbn [bind]. split.
  { by intros ->. }
  intros sg ->. cbn [bind]. split.
  { by intros ->. }
  intros ts ->. cbn [bind].
  destruct (verify_signature km ledger ct sg ts serial None (Some c)) as [valid r].
  cbn [fst]. split.
  { by intros ->. }
  intros t ->. cbn [bind]. split.
  { by intros ->. }
  intros cr ->. cbn [bind].
  by destruct (cert_common_names c) as [|cn cns].
Qed.

(** X12. What [verify_signature] does not look at. Given a certificate,
    the verdict is the same for every manager and every [public_key]
    argument: the verifier's own keys play no part. Given a serial that is
    [None] or empty, the ledger is not read: the verdict is the same for
    every ledger and never says revoked. *)
Theorem verify_signature_independence
    km km' ledger ledger' data sg ts serial pk pk' c cert :
  verify_signature km ledger data sg ts serial pk (Some c)
    = verify_signature km' ledger data sg ts serial pk' (Some c) /\
  (truthy serial = false ->
   verify_signature km ledger data sg ts serial pk cert
     = verify_signature km ledger' data sg ts serial pk cert /\
   (verify_signature km ledger data sg ts serial pk cert).2 = false).
Proof.
  split; [reflexivity|].
  intros Hs. unfold verify_signature, verify_signature_try. rewrite Hs.
  split; [reflexivity|]. cbn [bind].
  destruct (json_dumps _) as [text|[]]; cbn [bind]; try done.
  destruct (b64decode sg) as [s|[]]; cbn [bind]; try done.
  destruct (need_public _ _) as [k|[]]; cbn [bind]; try done.
  by destruct (pss_verify _ _ _) as [|[]].
Qed.

End SignedEnvelopes.

(** ** More on the ledger *)

Section LedgerMore.

Import Ledger.

(** X13. Every ledger file the program writes parses, gives every entry a
    ['serial'], and holds at most one entry per serial. *)
Theorem reachable_ledger_invariant f :
  reachable f ->
  f <> Garbled /\
  Forall (fun e => is_Some (e !! "serial")) (entries f) /\
  forall s, length (entries_for s f) <= 1.
Proof.
  intros Hreach. destruct (LedgerFacts.invariant_reachable _ Hreach)
    as (Hg & Hwf & _ & Hone). by repeat split.
Qed.

(** X14. Revoking one serial does not change the answer for another:
    [is_revoked] for every other serial is what it was. *)
Theorem revoke_leaves_other_serials f s u now s' :
  reachable f -> jsonable s -> jsonable u -> s <> s' ->
  is_revoked (revoke_certificate f s u now).2 s' = is_revoked f s'.
Proof.
  intros Hreach Hs Hu Hne.
  apply LedgerFacts.invariant_reachable in Hreach as Hinv.
  rewrite (is_revoked_invariant _ _ (LedgerFacts.invariant_revoke _ s u now Hinv Hs Hu)).
  rewrite (is_revoked_invariant _ _ Hinv).
  rewrite (LedgerFacts.revoke_certificate_spec _ _ _ _ Hinv Hs Hu).
  destruct (bool_decide (entries_for s f <> [])); cbn [snd]; [done|].
  unfold entries_for. cbn [entries].
  by rewrite LedgerFacts.for_serial_snoc_other.
Qed.

(** X15. The first revocation of a serial returns [True] and appends one
    entry, after all earlier ones: the serial, who revoked it (["unknown"]
    when no user name, or an empty one, is given) and the time with a
    [Z]; [get_revoked_certificates] lists the old entries in their order,
    then the new one. *)
Theorem first_revocation_appends f s u now :
  reachable f -> jsonable s -> jsonable u ->
  entries_for s f = [] ->
  exists f' e,
    revoke_certificate f s u now = (Ok true, f') /\
    get_revoked_certificates f' = Ok (entries f ++ [e]) /\
    e !! "serial" = Some s /\
    e !! "revoked_by" = Some (if truthy u then u else VStr "unknown") /\
    e !! "timestamp" = Some (VStr (now +:+ "Z")) /\
    is_revoked f' s = Ok true.
Proof.
  intros Hreach Hs Hu Hfresh.
  apply LedgerFacts.invariant_reachable in Hreach as Hinv.
  pose proof (is_revoked_after_revoke f s u now Hinv Hs Hu) as Hrev.
  rewrite (LedgerFacts.revoke_certificate_spec _ _ _ _ Hinv Hs Hu) in Hrev |- *.
  assert (Hb : bool_decide (entries_for s f <> []) = false).
  { apply bool_decide_eq_false_2. rewrite Hfresh. by intros H. }
  rewrite Hb in Hrev |- *.
  eexists _, _. split; [reflexivity|]. split; [reflexivity|].
  cbn [snd] in Hrev. by repeat split.
Qed.

End LedgerMore.

(** ** Accounts *)

Section Accounts.

Context {B : Backend} {P : PemBackend B} {T : TextBackend} {F : PathBackend}
        (L : BackendLaws B) (PL : PemLaws B P).

(** A failing [save_keystore] has written nothing. *)
Lemma save_keystore_Raise password salt_bytes iv km disk e disk' :
  save_keystore password salt_bytes iv km disk = (Raise e, disk') -> disk' = disk.
Proof.
  unfold save_keystore.
  destruct (private_key km); [|by intros [= _ <-]].
  destruct (public_key km); [|by intros [= _ <-]].
  destruct (bind _ _); [discriminate | by intros [= _ <-]].
Qed.

Lemma username_exists_false users name :
  existsb (fun u => same_name u name) users = false ->
  Forall (fun u => same_name u name = false) users.
Proof.
  induction users as [|u users IH]; cbn; [constructor|].
  intros [Hu Hrest]%orb_false_iff. constructor; auto.
Qed.

Lemma no_same_name users name :
  Forall (fun u => same_name u name = false) users ->
  existsb (fun u => same_name u name) users = false.
Proof.
  induction 1 as [|u users Hu _ IH]; [reflexivity|]. cbn. by rewrite Hu.
Qed.

(** Records under other names do not matter to [authenticate_user]. *)
Lemma authenticate_in_skip users rest name password :
  Forall (fun u => same_name u name = false) users ->
  authenticate_in (users ++ rest) name password = authenticate_in rest name password.
Proof.
  induction 1 as [|u users Hu _ IH]; [reflexivity|].
  cbn. by rewrite Hu.
Qed.

(** A record made from a password and a salt accepts that password. *)
Lemma authenticate_in_head u rest name password salt_bytes :
  same_name u name = true ->
  salt u = b64encode salt_bytes ->
  password_hash u = b64encode (_hash_password password salt_bytes) ->
  authenticate_in (u :: rest) name password = Ok (Some u).
Proof.
  intros Hname Hsalt Hhash. cbn. rewrite Hname, Hsalt, Hhash.
  rewrite !b64decode_encode. cbn [bind].
  by rewrite bool_decide_eq_true_2.
Qed.

Lemma same_name_refl u : same_name u (username u) = true.
Proof. unfold same_name. by apply bool_decide_eq_true_2. Qed.

(** What [load_keystore] leaves when it returns [True]. *)
Lemma load_keystore_true_keys f password km0 km :
  load_keystore f password km0 = (true, km) ->
  exists sk pk, private_key km = Some sk /\ public_key km = Some pk.
Proof.
  unfold load_keystore, load_keystore_try, mbind, lift,
    set_private_key, set_public_key, set_certificate.
  destruct f as [| |keystore]; [done | done |].
  destruct (read_keystore keystore password) as [payload|]; [|done].
  destruct (bind (getitem payload "private_key") _) as [sk|]; [|done].
  destruct (bind (getitem payload "public_key") _) as [pk|]; [|done].
  destruct (payload !! "certificate") as [v|].
  - destruct (bind (b64decode v) _) as [c|]; [|done].
    cbn. intros [= <-]. by eexists _, _.
  - cbn. intros [= <-]. by eexists _, _.
Qed.

Lemma update_first_spec users name f :
  (forall u, username (f u) = username u) ->
  match update_first users name f with
  | Some users' =>
      exists before u after,
        users = before ++ u :: after /\
        users' = before ++ f u :: after /\
        Forall (fun x => same_name x name = false) before /\
        same_name u name = true
  | None => Forall (fun x => same_name x name = false) users
  end.
Proof.
  intros Hf. induction users as [|x users IH]; cbn; [constructor|].
  destruct (same_name x name) eqn:Ex.
  - exists [], x, users. by repeat split.
  - destruct (update_first users name f) as [users'|].
    + destruct IH as (before & u & after & -> & -> & Hbefore & Hu).
      exists (x :: before), u, after. repeat split; try done. by constructor.
    + by constructor.
Qed.

Lemma authenticate_in_Some users name password u :
  authenticate_in users name password = Ok (Some u) ->
  existsb (fun x => same_name x name) users = true.
Proof.
  induction users as [|x users IH]; cbn; [done|].
  destruct (same_name x name); [done|]. exact IH.
Qed.

(** X16. A registered user can log in. With a name of at least 3
    characters and at most 64 bytes that no record has yet (compared in
    lower case), a password of at least 6, a 16-byte keystore IV, and a
    file system that lets the user's directory be made and [users.json]
    be written, [register_user] returns [True], appends one record under
    that name, saves [users.json] and writes the keystore in the user's
    directory. Then [authenticate_user] with the same name and password
    returns that record, and [load_keystore] with the same password opens
    the keystore: a 2048-bit key pair with a certificate issued for it and
    naming the user. *)
Theorem registered_user_logs_in self here name password fullname d km0 :
  3 <= String.length name ->
  username_exists self name = false ->
  6 <= String.length password ->
  length (str_encode name) <= 64 ->
  length (d_keystore_iv d) = 16 ->
  d_mkdir d = Ok tt ->
  d_save_users d = Ok tt ->
  exists self' here' r sk c km,
    register_user self here name password fullname d = (Ok Yes, self', here') /\
    users_db self' = users_db self ++ [r] /\
    users_file self' = Stored (users_db self') /\
    username r = name /\ full_name r = fullname /\
    authenticate_user self' name password = Ok (Some r) /\
    load_keystore (keystore_file here') password km0 = (true, km) /\
    holds_identity km sk c /\
    cert_common_names c = [name] /\
    key_size (public_key_of sk) = 2048%Z.
Proof.
  intros Hname Hfresh Hpw Hbytes Hiv Hmkdir Hsave_users.
  assert (Hne : name <> "") by (intros ->; cbn in Hname; lia).
  destruct (enrollment_identity L 2048 (d_key d) name (d_serial d) (d_now d)
              new_key_manager ltac:(lia) Hne Hbytes)
    as (sk & c & km1 & km2 & Hgen & Hcert & Hid & Hcn & Hsize).
  destruct Hid as ((Hsk & Hpk) & Hc & Hbound & Hcns).
  destruct (save_then_load L PL password (d_keystore_salt d) (d_keystore_iv d)
              km2 here sk _ km0 Hsk Hpk Hiv)
    as (files & Hsave & Hload).
  unfold register_user.
  destruct (Nat.ltb_spec (String.length name) 3); [lia|].
  rewrite Hfresh.
  destruct (Nat.ltb_spec (String.length password) 6); [lia|].
  rewrite Hmkdir, Hgen, Hcert, Hsave, Hsave_users.
  eexists _, _, _, sk, c,
    {| private_key := Some sk;
       public_key := Some (public_key_of sk);
       certificate := certificate km2 |}.
  split; [reflexivity|].
  unfold _save_users. cbn [users_db users_file username full_name].
  split; [reflexivity|]. split; [reflexivity|].
  split; [reflexivity|]. split; [reflexivity|]. split; [|split].
  - unfold authenticate_user. cbn [users_db].
    rewrite authenticate_in_skip by (by apply username_exists_false).
    eapply authenticate_in_head; [apply same_name_refl | reflexivity..].
  - exact Hload.
  - rewrite Hc. by repeat split.
Qed.

(** X17. When [register_user] does not return [True]. It refuses a name
    shorter than 3, then a name already taken in any letter case, then a
    password shorter than 6, each with its message and nothing changed.
    When [mkdir] fails its error comes out with nothing changed. In every
    case but [True] the file [users.json] is as it was, and either
    nothing at all has changed, or the failure was that of opening
    [users.json]: then its error comes out with the key files already
    written and the new record appended in memory only. *)
Theorem register_user_failure_states self here name password fullname d :
  (String.length name < 3 ->
   register_user self here name password fullname d =
     (Ok (No "Username must be at least 3 characters"), self, here)) /\
  (3 <= String.length name -> username_exists self name = true ->
   register_user self here name password fullname d =
     (Ok (No "Username already exists"), self, here)) /\
  (3 <= String.length name -> username_exists self name = false ->
   String.length password < 6 ->
   register_user self here name password fullname d =
     (Ok (No "Password must be at least 6 characters"), self, here)) /\
  (forall e,
     3 <= String.length name -> username_exists self name = false ->
     6 <= String.length password ->
     d_mkdir d = Raise e ->
     register_user self here name password fullname d = (Raise e, self, here)) /\
  (forall r self' here',
     register_user self here name password fullname d = (r, self', here') ->
     r <> Ok Yes ->
     users_file self' = users_file self /\
     ((self' = self /\ here' = here) \/
      exists e new_record km,
        d_save_users d = Raise e /\ r = Raise e /\
        users_db self' = users_db self ++ [new_record] /\
        username new_record = name /\
        save_keystore password (d_keystore_salt d) (d_keystore_iv d) km here
          = (Ok tt, here'))).
Proof.
  unfold register_user. split; [|split; [|split; [|split]]].
  - intros H. by destruct (Nat.ltb_spec (String.length name) 3); [|lia].
  - intros H ->. by destruct (Nat.ltb_spec (String.length name) 3); [lia|].
  - intros H -> Hp. destruct (Nat.ltb_spec (String.length name) 3); [lia|].
    by destruct (Nat.ltb_spec (String.length password) 6); [|lia].
  - intros e H -> Hp ->. destruct (Nat.ltb_spec (String.length name) 3); [lia|].
    by destruct (Nat.ltb_spec (String.length password) 6); [lia|].
  - intros res self' here'.
    destruct (_ <? 3); [intros [= <- <- <-]; split; [done | by left]|].
    destruct (username_exists self name);
      [intros [= <- <- <-]; split; [done | by left]|].
    destruct (_ <? 6); [intros [= <- <- <-]; split; [done | by left]|].
    destruct (d_mkdir d) as [[]|e0];
      [|intros [= <- <- <-]; split; [done | by left]].
    destruct (generate_key_pair _ _ _) as [[|] km1];
      [|intros [= <- <- <-]; split; [done | by left]].
    destruct (generate_self_signed_certificate _ _ _ _) as [[|] km2];
      [|intros [= <- <- <-]; split; [done | by left]].
    destruct (save_keystore _ _ _ _ _) as [[[]|e1] files] eqn:Hsave.
    2: { intros [= <- <- <-] _. apply save_keystore_Raise in Hsave as ->.
         split; [done | by left]. }
    destruct (d_save_users d) as [[]|e2]; [by intros [= <- <- <-]|].
    intros [= <- <- <-] _. split; [done|]. right.
    eexists e2, _, km2. by repeat split.
Qed.

(** X18. Changing the password. For a user who authenticates with the old
    password and a new password of at least 6 characters,
    [change_password] returns [True]; afterwards [authenticate_user]
    accepts the new password; and if the keystore in the directory of that
    name opened with the old password it now opens with the new one, with
    the same keys and certificate. If it did not open, it is left as it
    was. *)
Theorem change_password_moves_both self disk name old_password new_password
    new_salt ks_salt ks_iv r0 :
  authenticate_user self name old_password = Ok (Some r0) ->
  6 <= String.length new_password ->
  length ks_iv = 16 ->
  exists self' disk' r,
    change_password self disk name old_password new_password new_salt ks_salt ks_iv
      = (Ok Yes, self', disk') /\
    users_file self' = Stored (users_db self') /\
    authenticate_user self' name new_password = Ok (Some r) /\
    match load_keystore (keystore_file (files_of disk name)) old_password
            new_key_manager with
    | (true, km) =>
        forall km0,
          load_keystore (keystore_file (files_of disk' name)) new_password km0
            = (true, km)
    | (false, _) => disk' = disk
    end.
Proof.
  intros Hauth Hlen Hiv. unfold change_password. rewrite Hauth.
  destruct (Nat.ltb_spec (String.length new_password) 6); [lia|].
  set (set_password := fun u : user =>
         {| username := username u; full_name := full_name u;
            password_hash := b64encode (_hash_password new_password new_salt);
            salt := b64encode new_salt;
            user_dir := user_dir u; created_at := created_at u |}).
  pose proof (update_first_spec (users_db self) name set_password
                ltac:(done)) as Hupd.
  destruct (update_first (users_db self) name set_password) as [users'|].
  2: { apply authenticate_in_Some in Hauth.
       by rewrite (no_same_name _ _ Hupd) in Hauth. }
  destruct Hupd as (before & u & after & Husers & -> & Hbefore & Hu).
  assert (Hnew : authenticate_user (_save_users (before ++ set_password u :: after))
                   name new_password = Ok (Some (set_password u))).
  { unfold authenticate_user, _save_users. cbn [users_db].
    rewrite authenticate_in_skip by done.
    eapply authenticate_in_head; [exact Hu | reflexivity..]. }
  destruct (load_keystore (keystore_file (files_of disk name)) old_password
              new_key_manager) as [[|] km] eqn:Hload.
  - destruct (load_keystore_true_keys _ _ _ _ Hload) as (sk & pk & Hsk & Hpk).
    destruct (save_then_load L PL new_password ks_salt ks_iv km
                (files_of disk name) sk pk new_key_manager Hsk Hpk Hiv)
      as (files & Hsave & _).
    rewrite Hsave. eexists _, _, _. split; [reflexivity|].
    split; [reflexivity|]. split; [exact Hnew|].
    intros km0.
    destruct (save_then_load L PL new_password ks_salt ks_iv km
                (files_of disk name) sk pk km0 Hsk Hpk Hiv)
      as (files' & Hsave' & Hload').
    rewrite Hsave in Hsave'. injection Hsave' as <-.
    unfold files_of at 1. rewrite lookup_insert_eq. cbn [default from_option].
    unfold id. rewrite Hload'. f_equal.
    destruct km. cbn in *. by subst.
  - eexists _, _, _. split; [reflexivity|]. by repeat split.
Qed.

(** X19. Deleting an account. After [delete_user] returns [True] no record
    has the name in any letter case, so the name can be registered again
    and nobody authenticates under it; the records under other names are
    kept, in their order. *)
Theorem delete_user_removes_name self name password r :
  authenticate_user self name password = Ok (Some r) ->
  exists self',
    delete_user self name password = (Ok Yes, self') /\
    users_file self' = Stored (users_db self') /\
    username_exists self' name = false /\
    (forall pw, authenticate_user self' name pw = Ok None) /\
    users_db self' = List.filter (fun u => negb (same_name u name)) (users_db self).
Proof.
  intros Hauth. unfold delete_user. rewrite Hauth.
  eexists. split; [reflexivity|]. split; [reflexivity|].
  unfold _save_users. cbn [users_db].
  assert (Hnone : Forall (fun u => same_name u name = false)
                    (List.filter (fun u => negb (same_name u name)) (users_db self))).
  { apply Forall_forall. intros u Hu.
    apply list_elem_of_In, filter_In in Hu as [_ Hu].
    by apply negb_true_iff. }
  split; [|split; [|reflexivity]].
  - unfold username_exists. cbn [users_db]. by apply no_same_name.
  - intros pw. unfold authenticate_user. cbn [users_db].
    rewrite <- (app_nil_r (List.filter _ _)).
    by rewrite authenticate_in_skip.
Qed.

Lemma update_first_names users name f users' :
  (forall u, username (f u) = username u) ->
  update_first users name f = Some users' ->
  map (fun u => str_lower (username u)) users'
    = map (fun u => str_lower (username u)) users.
Proof.
  intros Hf. revert users'. induction users as [|x users IH]; cbn; [done|].
  intros users'. destruct (same_name x name).
  - intros [= <-]. cbn. by rewrite Hf.
  - destruct (update_first users name f) as [rest|]; [|done].
    intros [= <-]. cbn. by rewrite (IH rest).
Qed.

Lemma filter_names_unique (keep : user -> bool) users :
  unique_names users -> unique_names (List.filter keep users).
Proof.
  unfold unique_names. induction users as [|x users IH]; cbn; [done|].
  intros [Hx Hrest]%NoDup_cons. destruct (keep x); cbn; [|by apply IH].
  apply NoDup_cons. split; [|by apply IH].
  intros Hin. apply Hx.
  apply list_elem_of_fmap in Hin as (y & Hy & Hin).
  apply list_elem_of_fmap. exists y. split; [done|].
  apply list_elem_of_In. apply list_elem_of_In, filter_In in Hin. tauto.
Qed.

(** X20. The accounts never hold two records whose names agree up to
    letter case: whatever [register_user], [update_user_info],
    [change_password] and [delete_user] return or raise, they keep this
    true. *)
Theorem accounts_keep_names_unique self here disk name password fullname d
    new_name old_password new_password new_salt ks_salt ks_iv :
  unique_names (users_db self) ->
  unique_names (users_db (register_user self here name password fullname d).1.2) /\
  unique_names (users_db (update_user_info self name new_name).2) /\
  unique_names (users_db (change_password self disk name old_password
                            new_password new_salt ks_salt ks_iv).1.2) /\
  unique_names (users_db (delete_user self name password).2).
Proof.
  intros Huniq. split; [|split; [|split]].
  - unfold register_user.
    destruct (_ <? 3); [done|].
    destruct (username_exists self name) eqn:Hex; [done|].
    destruct (_ <? 6); [done|].
    destruct (d_mkdir d) as [[]|e0]; [|done].
    destruct (generate_key_pair _ _ _) as [[|] km1]; [|done].
    destruct (generate_self_signed_certificate _ _ _ _) as [[|] km2]; [|done].
    destruct (save_keystore _ _ _ _ _) as [[|] files]; [|done].
    assert (Hnew : forall rec, username rec = name ->
                     unique_names (users_db self ++ [rec])).
    { intros rec Hrec. unfold unique_names. rewrite map_app. cbn.
      apply NoDup_app. split; [done|]. split; [|apply NoDup_singleton].
      intros x Hx ->%list_elem_of_singleton.
      apply list_elem_of_fmap in Hx as (u & Hu & Hin).
      apply username_exists_false in Hex.
      rewrite Forall_forall in Hex. specialize (Hex u Hin).
      unfold same_name in Hex. apply bool_decide_eq_false in Hex.
      apply Hex. by rewrite Hrec in Hu. }
    destruct (d_save_users d) as [[]|e2]; cbn; by apply Hnew.
  - unfold update_user_info.
    destruct (update_first _ _ _) as [users'|] eqn:Hupd; [|done].
    cbn. unfold unique_names.
    erewrite update_first_names; [done | | exact Hupd].
    intros u. by destruct new_name.
  - unfold change_password.
    destruct (authenticate_user _ _ _) as [[r|]|]; [|done..].
    destruct (_ <? 6); [done|].
    destruct (update_first _ _ _) as [users'|] eqn:Hupd; [|done].
    assert (Hnew : unique_names users').
    { unfold unique_names.
      erewrite update_first_names; [done | | exact Hupd]. done. }
    destruct (load_keystore _ _ _) as [[|] km]; [|done].
    by destruct (save_keystore _ _ _ _ _) as [[|] files].
  - unfold delete_user.
    destruct (authenticate_user _ _ _) as [[r|]|]; [|done..].
    cbn. by apply filter_names_unique.
Qed.

End Accounts.

(** ** The diary *)

Module DiaryFacts.
Import Diary.

Lemma list_ascii_of_append s t :
  list_ascii_of_string (s +:+ t) = list_ascii_of_string s ++ list_ascii_of_string t.
Proof. induction s as [|a s IH]; [reflexivity|]. cbn. by rewrite <- IH. Qed.

Lemma append_inv_tail s1 s2 t : s1 +:+ t = s2 +:+ t -> s1 = s2.
Proof.
  intros H. apply (f_equal list_ascii_of_string) in H.
  rewrite !list_ascii_of_append in H. apply app_inv_tail in H.
  apply (f_equal string_of_list_ascii) in H.
  by rewrite !string_of_list_ascii_of_string in H.
Qed.

Lemma find_id_spec entries entry_id e :
  List.find (fun x => String.eqb (id x) entry_id) entries = Some e ->
  e ∈ entries /\ id e = entry_id.
Proof.
  intros H. apply find_some in H as [Hin Hid].
  split; [by apply list_elem_of_In | by apply String.eqb_eq].
Qed.

Lemma find_id_None entries entry_id :
  List.find (fun x => String.eqb (id x) entry_id) entries = None <->
  Forall (fun x => id x <> entry_id) entries.
Proof.
  induction entries as [|x entries IH]; cbn.
  - split; [constructor | done].
  - destruct (String.eqb_spec (id x) entry_id) as [Heq|Hne].
    + split; [done|]. by intros [? _]%Forall_cons.
    + rewrite IH. split; [by constructor | by intros [_ ?]%Forall_cons].
Qed.

Lemma find_id_app entries rest entry_id :
  List.find (fun x => String.eqb (id x) entry_id) (entries ++ rest) =
  match List.find (fun x => String.eqb (id x) entry_id) entries with
  | Some e => Some e
  | None => List.find (fun x => String.eqb (id x) entry_id) rest
  end.
Proof.
  induction entries as [|x entries IH]; [reflexivity|]. cbn.
  by destruct (String.eqb (id x) entry_id).
Qed.

Lemma well_named_file entries e :
  well_named entries -> e ∈ entries -> filename e = id e +:+ ".json".
Proof. unfold well_named. rewrite Forall_forall. auto. Qed.

(** X21. Save, then load. Saving an envelope whose values JSON can hold
    returns the new id, appends one index entry, keeps [index.json] equal
    to the index in memory, and [load_entry] with that id returns the
    envelope just saved. The metadata returned are the new entry's unless an
    older entry already has the id (two saves in one microsecond), in which
    case they are the older entry's. *)
Theorem save_then_load_entry self the_title data the_tags stamp t1 t2 :
  well_named (index self) ->
  Ledger.entry_jsonable data ->
  let new_entry := {| id := stamp; title := the_title; created := t1;
                      modified := t2; tags := default [] the_tags;
                      filename := stamp +:+ ".json" |} in
  exists self' m,
    save_entry self the_title data the_tags stamp t1 t2 = (Ok stamp, self') /\
    index self' = index self ++ [new_entry] /\
    index_file self' = Stored (index self') /\
    well_named (index self') /\
    load_entry self' stamp = Ok (Some (m, data)) /\
    id m = stamp /\
    (Forall (fun e => id e <> stamp) (index self) -> m = new_entry).
Proof.
  intros Hnamed Hjson new_entry.
  unfold save_entry, write_entry. rewrite bool_decide_eq_true_2 by done.
  fold new_entry. cbn [filename new_entry].
  assert (Hfind : exists m,
    List.find (fun x => String.eqb (id x) stamp) (index self ++ [new_entry]) = Some m /\
    filename m = stamp +:+ ".json" /\ id m = stamp /\
    (Forall (fun e => id e <> stamp) (index self) -> m = new_entry)).
  { rewrite find_id_app.
    destruct (List.find _ (index self)) as [e|] eqn:Efind.
    - apply find_id_spec in Efind as [Hin Hid]. exists e.
      split; [done|]. split; [|split; [done|]].
      + rewrite (well_named_file _ _ Hnamed Hin). by rewrite Hid.
      + intros Hnone. rewrite Forall_forall in Hnone. by destruct (Hnone e Hin).
    - exists new_entry. cbn. rewrite String.eqb_refl. by repeat split. }
  destruct Hfind as (m & Hfind & Hfile & Hid & Hfresh).
  eexists _, m. split; [reflexivity|]. cbn [index index_file entry_files].
  split; [reflexivity|]. split; [reflexivity|]. split; [|split; [|done]].
  - apply Forall_app. split; [done|]. by apply Forall_singleton.
  - unfold load_entry. cbn [index entry_files]. rewrite Hfind, Hfile.
    by rewrite lookup_insert_eq.
Qed.

Lemma pop_first_spec entries entry_id :
  match pop_first entries entry_id with
  | Some (m, rest) =>
      exists before after,
        entries = before ++ m :: after /\ rest = before ++ after /\
        id m = entry_id /\ Forall (fun x => id x <> entry_id) before
  | None => Forall (fun x => id x <> entry_id) entries
  end.
Proof.
  induction entries as [|x entries IH]; cbn; [constructor|].
  destruct (String.eqb_spec (id x) entry_id) as [Heq|Hne].
  - exists [], entries. by repeat split.
  - destruct (pop_first entries entry_id) as [[m rest]|].
    + destruct IH as (before & after & -> & -> & Hid & Hbefore).
      exists (x :: before), after. repeat split; try done. by constructor.
    + by constructor.
Qed.

(** X22. Delete. An id the index does not have gives [False] and changes
    nothing. Otherwise the first entry with the id (no entry before it has
    the id) leaves the index, its file is removed, [index.json] equals the
    index in memory, every other entry stays in place, and [load_entry]
    with that id returns [(None, None)]. *)
Theorem delete_entry_removes self entry_id :
  well_named (index self) ->
  match delete_entry self entry_id with
  | (false, self') =>
      self' = self /\ Forall (fun e => id e <> entry_id) (index self)
  | (true, self') =>
      exists before m after,
        index self = before ++ m :: after /\
        Forall (fun e => id e <> entry_id) before /\
        index self' = before ++ after /\
        id m = entry_id /\
        index_file self' = Stored (index self') /\
        entry_files self' = delete (entry_id +:+ ".json") (entry_files self) /\
        load_entry self' entry_id = Ok None
  end.
Proof.
  intros Hnamed. unfold delete_entry.
  pose proof (pop_first_spec (index self) entry_id) as Hpop.
  destruct (pop_first (index self) entry_id) as [[m rest]|]; [|done].
  destruct Hpop as (before & after & Hindex & -> & Hid & Hbefore).
  assert (Hfile : filename m = entry_id +:+ ".json").
  { rewrite <- Hid. apply (well_named_file (index self)); [done|].
    rewrite Hindex. apply elem_of_app. right. by left. }
  exists before, m, after. rewrite Hfile. cbn [index index_file entry_files].
  repeat split; try done.
  unfold load_entry. cbn [index entry_files].
  destruct (List.find _ (before ++ after)) as [e|] eqn:Efind; [|done].
  apply find_id_spec in Efind as [Hin Hide].
  assert (He : filename e = entry_id +:+ ".json").
  { rewrite <- Hide. apply (well_named_file (index self)); [done|].
    rewrite Hindex. apply elem_of_app in Hin as [Hin|Hin];
      apply elem_of_app; [by left | right; by right]. }
  by rewrite He, lookup_delete_eq.
Qed.

Lemma update_first_entry_spec entries entry_id f :
  match update_first entries entry_id f with
  | Some (m, entries') =>
      exists before e after,
        entries = before ++ e :: after /\
        entries' = before ++ f e :: after /\
        m = f e /\ id e = entry_id /\
        Forall (fun x => id x <> entry_id) before
  | None => Forall (fun x => id x <> entry_id) entries
  end.
Proof.
  induction entries as [|x entries IH]; cbn; [constructor|].
  destruct (String.eqb_spec (id x) entry_id) as [Heq|Hne].
  - exists [], x, entries. by repeat split.
  - destruct (update_first entries entry_id f) as [[m rest]|].
    + destruct IH as (before & e & after & -> & -> & -> & Hid & Hbefore).
      exists (x :: before), e, after. repeat split; try done. by constructor.
    + by constructor.
Qed.

Lemma find_id_skip before rest entry_id :
  Forall (fun x => id x <> entry_id) before ->
  List.find (fun x => String.eqb (id x) entry_id) (before ++ rest)
    = List.find (fun x => String.eqb (id x) entry_id) rest.
Proof.
  intros H. rewrite find_id_app.
  by apply find_id_None in H as ->.
Qed.

(** X23. Update. An id the index does not have gives [False] and changes
    nothing. For an id it has, updating with a new envelope returns
    [True], rewrites the first entry with that id in place (title and tags
    only where given, [modified] always, id, [created] and file name
    never), keeps [index.json] equal to the index, and [load_entry] then
    returns the new envelope with the rewritten metadata. *)
Theorem update_entry_then_load self entry_id new_title data new_tags now :
  well_named (index self) ->
  Ledger.entry_jsonable data ->
  match List.find (fun x => String.eqb (id x) entry_id) (index self) with
  | None =>
      update_entry self entry_id new_title (Some data) new_tags now = (Ok false, self)
  | Some e =>
      let m := {| id := id e;
                  title := default (title e) new_title;
                  created := created e;
                  modified := now;
                  tags := default (tags e) new_tags;
                  filename := filename e |} in
      exists self' before after,
        update_entry self entry_id new_title (Some data) new_tags now = (Ok true, self') /\
        index self = before ++ e :: after /\
        index self' = before ++ m :: after /\
        index_file self' = Stored (index self') /\
        well_named (index self') /\
        load_entry self' entry_id = Ok (Some (m, data))
  end.
Proof.
  intros Hnamed Hjson. unfold update_entry.
  set (change := fun e : meta =>
         {| id := id e; title := default (title e) new_title;
            created := created e; modified := now;
            tags := default (tags e) new_tags; filename := filename e |}).
  pose proof (update_first_entry_spec (index self) entry_id change) as Hupd.
  destruct (update_first (index self) entry_id change) as [[m entries']|].
  - destruct Hupd as (before & e & after & Hindex & -> & -> & Hid & Hbefore).
    rewrite Hindex, find_id_skip by done. cbn [List.find].
    rewrite (proj2 (String.eqb_eq _ _) Hid).
    unfold write_entry. rewrite bool_decide_eq_true_2 by done.
    eexists _, before, after. split; [reflexivity|].
    cbn [index index_file entry_files].
    split; [reflexivity|]. split; [reflexivity|]. split; [reflexivity|].
    assert (Hnamed' : well_named (before ++ change e :: after)).
    { unfold well_named in *. rewrite Hindex in Hnamed.
      apply Forall_app in Hnamed as [Hb [He Ha]%Forall_cons].
      apply Forall_app. split; [done|]. by constructor. }
    split; [done|].
    unfold load_entry. cbn [index entry_files].
    rewrite find_id_skip by done. cbn [List.find change id].
    rewrite (proj2 (String.eqb_eq _ _) Hid).
    cbn [filename]. by rewrite lookup_insert_eq.
  - by apply find_id_None in Hupd as ->.
Qed.

(** X24. Saving under a new id leaves every other entry as it was:
    [load_entry] for any other id returns what it returned before. *)
Theorem save_entry_leaves_others self the_title data the_tags stamp t1 t2 other :
  well_named (index self) ->
  other <> stamp ->
  load_entry (save_entry self the_title data the_tags stamp t1 t2).2 other
    = load_entry self other.
Proof.
  intros Hnamed Hne. unfold save_entry, write_entry.
  assert (Hfiles : forall v e,
    e ∈ index self -> id e = other ->
    <[stamp +:+ ".json" := v]> (entry_files self) !! filename e
      = entry_files self !! filename e).
  { intros v e Hin Hid. apply lookup_insert_ne.
    rewrite (well_named_file _ _ Hnamed Hin), Hid.
    intros Heq. by apply append_inv_tail in Heq. }
  destruct (bool_decide _); cbn [snd filename]; unfold load_entry;
    cbn [index entry_files].
  - rewrite find_id_app. cbn [List.find id].
    destruct (List.find _ (index self)) as [e|] eqn:Efind.
    + apply find_id_spec in Efind as [Hin Hid]. by rewrite Hfiles.
    + by rewrite (proj2 (String.eqb_neq _ _)) by congruence.
  - destruct (List.find _ (index self)) as [e|] eqn:Efind; [|done].
    apply find_id_spec in Efind as [Hin Hid]. by rewrite Hfiles.
Qed.

Lemma insert_newest_perm e l : Permutation (insert_newest e l) (e :: l).
Proof.
  induction l as [|x l IH]; cbn; [done|].
  destruct (String.ltb _ _); [|done].
  rewrite IH. apply perm_swap.
Qed.

Lemma ltb_asym s t : String.ltb s t = true -> String.ltb t s = false.
Proof.
  unfold String.ltb. rewrite (String.compare_antisym t s).
  by destruct (String.compare s t).
Qed.

Lemma insert_newest_sorted e l :
  Sorted not_older l -> Sorted not_older (insert_newest e l).
Proof.
  induction 1 as [|x l Hl IH Hx]; cbn; [by repeat constructor|].
  destruct (String.ltb (created e) (created x)) eqn:Hlt.
  - constructor; [exact IH|].
    destruct Hx as [|y l Hxy]; cbn.
    + constructor. by apply ltb_asym.
    + destruct (String.ltb (created e) (created y)); constructor;
        [done | by apply ltb_asym].
  - constructor; [by constructor | by constructor].
Qed.

Lemma insert_newest_same_time t e l :
  List.filter (fun x => String.eqb (created x) t) (insert_newest e l)
    = List.filter (fun x => String.eqb (created x) t) (e :: l).
Proof.
  induction l as [|x l IH]; [reflexivity|]. cbn [insert_newest].
  destruct (String.ltb (created e) (created x)) eqn:Hlt; [|reflexivity].
  cbn [List.filter] in *. rewrite IH.
  destruct (String.eqb_spec (created e) t) as [He|]; [|reflexivity].
  destruct (String.eqb_spec (created x) t) as [Hx|]; [|reflexivity].
  rewrite He, Hx in Hlt. unfold String.ltb in Hlt.
  assert (Hrefl : String.compare t t = Eq).
  { pose proof (String.compare_antisym t t) as Ha.
    destruct (String.compare t t); cbn in Ha; congruence. }
  by rewrite Hrefl in Hlt.
Qed.

(** X25. [list_entries] returns the index rearranged, nothing lost and
    nothing added, each entry at least as new as the next by ['created'],
    and entries created at the same instant in index order. *)
Theorem list_entries_newest_first self :
  Permutation (list_entries self) (index self) /\
  Sorted not_older (list_entries self) /\
  forall t,
    List.filter (fun x => String.eqb (created x) t) (list_entries self)
      = List.filter (fun x => String.eqb (created x) t) (index self).
Proof.
  unfold list_entries, newest_first.
  induction (index self) as [|e l (IHp & IHs & IHt)]; cbn [foldr].
  - by repeat split; constructor.
  - split; [|split].
    + rewrite insert_newest_perm. by constructor.
    + by apply insert_newest_sorted.
    + intros t. rewrite insert_newest_same_time. cbn [List.filter].
      by rewrite IHt.
Qed.

End DiaryFacts.

(** ** Searching *)

Section SearchFacts.

Context {T : TextBackend}.

Lemma prefix_spec needle hay :
  starts_with needle hay = true <-> exists after, hay = needle +:+ after.
Proof.
  revert hay. induction needle as [|a needle IH]; intros hay.
  - split; [by exists hay | done].
  - destruct hay as [|b hay]; cbn [starts_with].
    { split; [done | by intros (? & ?)]. }
    rewrite andb_true_iff, Ascii.eqb_eq, IH. split.
    + intros (-> & after & ->). by exists after.
    + intros (after & [= -> ->]). split; [done | by exists after].
Qed.

Lemma is_infix_spec needle hay :
  is_infix needle hay = true <-> contains_text needle hay.
Proof.
  unfold contains_text. split.
  - induction hay as [|c hay IH]; cbn [is_infix].
    + rewrite orb_false_r. intros (after & ->)%prefix_spec. by exists "", after.
    + intros [(after & ->)%prefix_spec | Hrest]%orb_true_iff.
      * by exists "", after.
      * destruct (IH Hrest) as (before & after & ->).
        by exists (String c before), after.
  - intros (before & after & ->).
    induction before as [|c before IH].
    + change ("" +:+ needle +:+ after) with (needle +:+ after).
      assert (Hp : starts_with needle (needle +:+ after) = true)
        by (apply prefix_spec; by exists after).
      destruct (needle +:+ after); cbn [is_infix]; by rewrite Hp.
    + change (String c before +:+ needle +:+ after)
        with (String c (before +:+ needle +:+ after)).
      cbn [is_infix]. apply orb_true_iff. by right.
Qed.

Lemma some_tag_matches_spec q tags :
  some_tag_matches q tags = true <->
  exists tag, tag ∈ tags /\ contains_text q (str_lower tag).
Proof.
  induction tags as [|tag tags IH]; cbn.
  - split; [done|]. intros (? & ?%elem_of_nil & _). done.
  - destruct (is_infix q (str_lower tag)) eqn:E.
    + split; [|done]. intros _. exists tag. split; [by left|].
      by apply is_infix_spec.
    + rewrite IH. split.
      * intros (t & Hin & Ht). exists t. split; [by right | done].
      * intros (t & [->|Hin]%elem_of_cons & Ht).
        -- apply is_infix_spec in Ht. congruence.
        -- by exists t.
Qed.

(** The two loops keep an entry exactly when its title or a tag matches,
    once, in index order. *)
Lemma matching_entries_filter q entries :
  matching_entries q entries =
    List.filter (fun e => is_infix q (str_lower (Diary.title e))
                          || some_tag_matches q (Diary.tags e)) entries.
Proof.
  induction entries as [|e entries IH]; [reflexivity|]. cbn.
  rewrite IH. destruct (is_infix _ _); [reflexivity|]. cbn.
  by destruct (some_tag_matches _ _).
Qed.

Lemma newest_first_perm l : Permutation (Diary.newest_first l) l.
Proof.
  unfold Diary.newest_first. induction l as [|e l IH]; cbn [foldr]; [done|].
  rewrite DiaryFacts.insert_newest_perm. by constructor.
Qed.

Lemma newest_first_sorted l : Sorted Diary.not_older (Diary.newest_first l).
Proof.
  unfold Diary.newest_first. induction l as [|e l IH]; cbn [foldr]; [constructor|].
  by apply DiaryFacts.insert_newest_sorted.
Qed.

(** X26. [search_entries] returns exactly the index entries whose title,
    or one of whose tags, contains the query, both sides in lower case
    (an empty query matches every entry). No entry comes back twice, even
    when its title and several tags match, and the result is newest
    first. *)
Theorem search_entries_finds self query :
  let q := str_lower query in
  (forall e,
     e ∈ search_entries self query <->
     e ∈ Diary.index self /\
     (contains_text q (str_lower (Diary.title e)) \/
      exists tag, tag ∈ Diary.tags e /\ contains_text q (str_lower tag))) /\
  (NoDup (Diary.index self) -> NoDup (search_entries self query)) /\
  Sorted Diary.not_older (search_entries self query).
Proof.
  intros q. unfold search_entries. fold q.
  split; [|split].
  - intros e. rewrite (newest_first_perm _), matching_entries_filter.
    rewrite list_elem_of_In, filter_In, <- list_elem_of_In.
    rewrite orb_true_iff, is_infix_spec, some_tag_matches_spec. done.
  - intros Hnd. rewrite (newest_first_perm _), matching_entries_filter.
    apply NoDup_ListNoDup, List.NoDup_filter, NoDup_ListNoDup, Hnd.
  - apply newest_first_sorted.
Qed.

End SearchFacts.

(** ** Padding at the edges *)

Lemma pad16_tail (data : bytes) :
  exists b,
    Byte.to_nat b = 16 - length data mod 16 /\
    pad16 data = Ok (data ++ repeat b (16 - length data mod 16)).
Proof.
  assert (Hr : length data mod 16 < 16) by (apply Nat.mod_upper_bound; lia).
  destruct (small_byte (16 - length data mod 16)) as (b & Hb & Hto); [lia|].
  exists b. split; [exact Hto|].
  unfold pad16. by rewrite (py_bytes_repeat _ _ _ Hb).
Qed.

Lemma unpad_snoc (body : bytes) x :
  unpad (body ++ [x]) =
    Ok (if Byte.to_nat x =? 0 then []
        else take (length body + 1 - Byte.to_nat x) body).
Proof.
  unfold unpad. rewrite last_byte_snoc. cbn [bind]. f_equal.
  unfold drop_tail. destruct (Byte.to_nat x) as [|n]; [reflexivity|].
  cbn [Nat.eqb]. rewrite length_app. cbn [length].
  rewrite take_app_le by lia. reflexivity.
Qed.

(** X27. The padding of [encrypt_entry] and [save_keystore], and its
    removal in [decrypt_entry] and [load_keystore]. Padding always
    succeeds and appends between 1 and 16 bytes, each equal to their
    number, up to a whole number of 16-byte blocks; removal gives the data
    back. Removal never checks what it strips: it raises only on an empty
    input ([IndexError]), and on any other input returns a proper prefix,
    which is empty when the last byte is 0 or exceeds what stands before
    it. *)
Theorem padding_is_never_checked :
  (forall data, exists tail,
     pad16 data = Ok (data ++ tail) /\
     1 <= length tail <= 16 /\
     Forall (fun b => Byte.to_nat b = length tail) tail /\
     length (data ++ tail) mod 16 = 0 /\
     unpad (data ++ tail) = Ok data) /\
  unpad [] = Raise (IndexError "index out of range") /\
  (forall padded, padded <> [] ->
     exists out, unpad padded = Ok out /\
                 out `prefix_of` padded /\ length out < length padded) /\
  (forall body x,
     Byte.to_nat x = 0 \/ length body < Byte.to_nat x ->
     unpad (body ++ [x]) = Ok []).
Proof.
  split; [|split; [reflexivity|split]].
  - intros data.
    destruct (pad16_spec data) as (tail & Hpad & Hlen & Hblocks & Hunpad).
    destruct (pad16_tail data) as (b & Hb & Hpad').
    exists tail. repeat split; try done; try lia.
    assert (Htail : data ++ tail = data ++ repeat b (16 - length data mod 16))
      by congruence.
    apply app_inv_head in Htail.
    rewrite Htail, repeat_length. rewrite <- Hb. apply Forall_forall.
    by intros x ->%list_elem_of_In%repeat_spec.
  - intros padded Hne.
    destruct (exists_last Hne) as (body & x & ->).
    rewrite unpad_snoc. eexists. split; [reflexivity|].
    rewrite length_app. cbn [length].
    destruct (Byte.to_nat x =? 0) eqn:E.
    + split; [apply prefix_nil | cbn; lia].
    + apply Nat.eqb_neq in E. split.
      * etrans; [apply prefix_take | by apply prefix_app_r].
      * rewrite length_take. lia.
  - intros body x Hx. rewrite unpad_snoc.
    destruct (Byte.to_nat x =? 0) eqn:E; [reflexivity|].
    apply Nat.eqb_neq in E. destruct Hx as [Hx|Hx]; [done|].
    f_equal. replace (length body + 1 - Byte.to_nat x) with 0 by lia.
    reflexivity.
Qed.

(** ** The reference backend writes what it reads *)

Module MockMoreFacts.
Import Mock MockMore.

Lemma load_key_pem k : load_key (key_pem k) = Ok k.
Proof.
  unfold load_key, key_pem. rewrite MockFacts.take_unary_unary.
  rewrite <- (app_nil_r (unary (kbits k))), MockFacts.take_unary_unary.
  by destruct k.
Qed.

Lemma dumps_strings items :
  Forall (fun kv : string * value => exists s, kv.2 = VStr s) items ->
  exists text, dumps items = Ok text.
Proof.
  intros H. unfold dumps.
  assert (Hput : exists l, put_items items = Ok l).
  { induction H as [|[k v] rest (s & Hs) _ (l & Hl)]; [by eexists|].
    cbn in Hs. subst v. cbn. rewrite Hl. by eexists. }
  destruct Hput as (l & ->). by eexists.
Qed.

Lemma derive_length pw salt : length (derive pw salt) = 32.
Proof.
  unfold derive. rewrite length_take, !length_app, repeat_length. lia.
Qed.

Lemma pem_laws : PemLaws backend pem.
Proof.
  split.
  - exact load_key_pem.
  - exact load_key_pem.
  - intros sk. by eexists.
  - intros sk pw r. by eexists.
  - intros pk. by eexists.
  - intros c. unfold cert_public_bytes, backend, cert_pem, unary.
    by destruct (c_serial c).
  - exact derive_length.
  - exact dumps_strings.
Qed.

End MockMoreFacts.

(** ** The further statements on sample data *)

Module Scenes.
Import Sample Scenario.

#[local] Existing Instance Mock.backend.
#[local] Existing Instance MockMore.pem.
#[local] Existing Instance MockMore.text.
#[local] Existing Instance MockMore.paths.

Lemma diary_well_named : Diary.well_named (Diary.index diary).
Proof. by repeat constructor. Qed.

Lemma envelope_jsonable : Ledger.entry_jsonable alices_envelope.
Proof. apply (bool_decide_unpack _). by vm_compute. Qed.

Lemma signed_envelope_jsonable : Ledger.entry_jsonable alices_signed_envelope.
Proof. apply (bool_decide_unpack _). by vm_compute. Qed.

(** Alice saves under "secret"; the file opens into Bob's manager and
    leaves it as Alice's. *)
Lemma keystore_round_trip_witness :
  length iv16 = 16 /\
  exists disk' keystore,
    save_keystore "secret" salt16 iv16 alice no_files = (Ok tt, disk') /\
    keystore_file disk' = Stored keystore /\
    keystore !! "salt" = Some (VStr (b64encode salt16)) /\
    keystore !! "iv" = Some (VStr (b64encode iv16)) /\
    cert_file disk' = Some (cert_public_bytes alice_cert) /\
    load_keystore (keystore_file disk') "secret" bob = (true, alice).
Proof.
  split; [reflexivity|].
  exact (keystore_round_trip MockFacts.laws MockMoreFacts.pem_laws
           "secret" salt16 iv16 alice no_files alice_key alice_key bob
           eq_refl eq_refl eq_refl).
Defined.

Lemma decrypt_after_reload_witness :
  encrypt_entry alice "hello world" key32 iv16 [] clock = Ok alices_envelope /\
  exists disk' km',
    save_keystore "secret" salt16 iv16 alice no_files = (Ok tt, disk') /\
    load_keystore (keystore_file disk') "secret" new_key_manager = (true, km') /\
    decrypt_entry km' alices_envelope = Ok "hello world".
Proof.
  assert (H : encrypt_entry alice "hello world" key32 iv16 [] clock
              = Ok alices_envelope) by reflexivity.
  split; [exact H|].
  exact (decrypt_after_reload MockFacts.laws MockMoreFacts.pem_laws
           "secret" salt16 iv16 alice no_files alice_key new_key_manager
           "hello world" key32 iv16 [] clock alices_envelope
           Witness.alice_pair eq_refl H).
Defined.

Lemma enrollment_leaves_identity_witness :
  exists sk c km1 km2,
    generate_key_pair 2048 [] new_key_manager = (Ok tt, km1) /\
    generate_self_signed_certificate "alice" [] clock km1 = (Ok tt, km2) /\
    holds_identity km2 sk c /\
    cert_common_names c = ["alice"] /\
    key_size (public_key_of sk) = 2048%Z /\
    forall km0,
      exists km1',
        generate_key_pair 2048 [] km0 = (Ok tt, km1') /\
        generate_self_signed_certificate "alice" [] clock km1' = (Ok tt, km2).
Proof.
  apply (enrollment_leaves_identity MockFacts.laws 2048 [] "alice" [] clock
           new_key_manager); [lia | discriminate | cbn; lia].
Defined.

Lemma generate_self_signed_certificate_keeps_keys_witness :
  generate_self_signed_certificate "bob" [] clock bob = (Ok tt, bob_certified) /\
  private_key bob_certified = private_key bob /\
  public_key bob_certified = public_key bob /\
  (forall err, Ok tt = Raise err -> bob_certified = bob) /\
  (private_key bob = None -> Ok tt = Raise (ValueError "Generate key pair first.")).
Proof.
  assert (H : generate_self_signed_certificate "bob" [] clock bob
              = (Ok tt, bob_certified)) by reflexivity.
  split; [exact H|].
  exact (generate_self_signed_certificate_keeps_keys "bob" [] clock bob
           (Ok tt) bob_certified H).
Defined.

(** Bob's keystore has no certificate: loaded into Alice's manager it
    leaves no certificate there either. *)
Lemma load_keystore_success_forgets_witness :
  load_keystore (keystore_file bobs_files) "hunter22" alice = (true, bob) /\
  load_keystore (keystore_file bobs_files) "hunter22" new_key_manager = (true, bob).
Proof.
  assert (H : load_keystore (keystore_file bobs_files) "hunter22" alice = (true, bob))
    by reflexivity.
  split; [exact H|].
  exact (load_keystore_success_forgets (keystore_file bobs_files) "hunter22"
           alice new_key_manager bob H).
Defined.

(** The keystore without a public key, loaded into Alice's manager:
    Bob's private key beside Alice's public key and certificate. *)
Lemma load_keystore_failure_shapes_witness :
  let mixed := @Build_KeyManager Mock.backend (Some bob_key) (Some alice_key)
                 (Some alice_cert) in
  load_keystore (Stored broken_keystore) "pw" alice = (false, mixed) /\
  (mixed = alice \/
   (exists sk, mixed = {| private_key := Some sk;
                          public_key := public_key alice;
                          certificate := certificate alice |}) \/
   (exists sk pk, mixed = {| private_key := Some sk;
                             public_key := Some pk;
                             certificate := certificate alice |})) /\
  certificate mixed = certificate alice /\
  ((exists e, read_keystore broken_keystore "pw" = Raise e) -> mixed = alice).
Proof.
  intros mixed.
  assert (H : load_keystore (Stored broken_keystore) "pw" alice = (false, mixed))
    by reflexivity.
  split; [exact H|].
  exact (load_keystore_failure_shapes (Stored broken_keystore) "pw" alice mixed H).
Defined.

(** A wrong password on Alice's keystore. *)
Example wrong_password_on_saved_keystore :
  load_keystore (keystore_file alices_files) "guess" bob = (false, bob).
Proof. reflexivity. Qed.

Lemma exported_pem_parses_back_witness :
  (exists pem, export_public_key_pem alice = Ok (Some pem) /\
               load_pem_public_key (str_encode pem) = Ok alice_key) /\
  (exists pem, export_private_key_pem alice VNone [] = Ok (Some pem) /\
               load_pem_private_key (str_encode pem) = Ok alice_key) /\
  (exists pem, export_certificate_pem alice = Ok (Some pem) /\
               load_pem_x509_certificate (str_encode pem) = Ok alice_cert).
Proof.
  exact (exported_pem_parses_back MockFacts.laws MockMoreFacts.pem_laws alice []).
Defined.

Lemma verify_and_decrypt_own_witness :
  encrypt_and_sign alice "hello world" key32 iv16 [] [] clock clock
    = Ok alices_signed_envelope /\
  verify_and_decrypt alice ledger alices_signed_envelope =
    Ok ("hello world", true,
        bool_decide (Ledger.entries_for (get_certificate_serial alice) ledger <> [])).
Proof.
  assert (H : encrypt_and_sign alice "hello world" key32 iv16 [] [] clock clock
              = Ok alices_signed_envelope) by reflexivity.
  split; [exact H|].
  exact (verify_and_decrypt_own MockFacts.laws alice alice_key ledger
           "hello world" key32 iv16 [] [] clock clock alices_signed_envelope
           Witness.alice_pair Witness.ledger_reachable H).
Defined.

Lemma unreadable_ledger_witness :
  load_pem_x509_certificate (str_encode (signer_certificate alices_package))
    = Ok alice_cert /\
  verify_signature bob Garbled (VStr "hello") (VStr "AAAA")
    (VStr "2024-05-01T10:00:00Z") (VStr "41") None (Some alice_cert)
    = (false, false) /\
  import_entry bob Garbled alices_package = Raise (JSONDecodeError "Expecting value").
Proof.
  assert (H : load_pem_x509_certificate
                (str_encode (signer_certificate alices_package)) = Ok alice_cert)
    by reflexivity.
  split; [exact H|].
  exact (unreadable_ledger bob (VStr "hello") (VStr "AAAA")
           (VStr "2024-05-01T10:00:00Z") (VStr "41") None (Some alice_cert)
           alices_package alice_cert eq_refl H).
Defined.

(** Bob imports Alice's package as read from a file. *)
Lemma import_entry_verdict_witness :
  let env := alices_signed_envelope in
  let ct := default VNone (env !! "ciphertext") in
  let sg := default VNone (env !! "signature") in
  let ts := default VNone (env !! "signed_timestamp") in
  let serial := VStr (str_of_int (cert_serial_number alice_cert)) in
  Ledger.reachable ledger /\
  import_entry_dict bob ledger (package_dict alices_package) =
    Ok ({[ "title" := Scalar (VStr "Monday");
           "created" := Scalar (VStr "2024-05-01T09:59:00Z");
           "imported_from" := Scalar (VStr "alice") ]},
        alices_signed_envelope,
        (verify_signature bob ledger ct sg ts serial None (Some alice_cert)).1,
        bool_decide (Ledger.entries_for serial ledger <> []),
        alice_cert) /\
  import_entry_dict bob ledger (delete "title" (package_dict alices_package))
    = Raise (KeyError "title").
Proof.
  intros env ct sg ts serial. split; [exact Witness.ledger_reachable|].
  destruct (import_entry_verdict bob ledger (package_dict alices_package)
              Witness.ledger_reachable) as (_ & Hfull).
  destruct (Hfull (signer_certificate alices_package) alice_cert eq_refl eq_refl)
    as (_ & Henv).
  destruct (Henv env eq_refl) as (_ & Hct).
  destruct (Hct ct eq_refl) as (_ & Hsg).
  destruct (Hsg sg eq_refl) as (_ & Hts).
  destruct (Hts ts eq_refl) as (_ & Htitle).
  destruct (Htitle (Scalar (VStr "Monday")) eq_refl) as (_ & Hcreated).
  split; [exact (Hcreated (Scalar (VStr "2024-05-01T09:59:00Z")) eq_refl)|].
  destruct (import_entry_verdict bob ledger
              (delete "title" (package_dict alices_package))
              Witness.ledger_reachable) as (_ & Hfull').
  destruct (Hfull' (signer_certificate alices_package) alice_cert eq_refl eq_refl)
    as (_ & Henv').
  destruct (Henv' env eq_refl) as (_ & Hct').
  destruct (Hct' ct eq_refl) as (_ & Hsg').
  destruct (Hsg' sg eq_refl) as (_ & Hts').
  destruct (Hts' ts eq_refl) as (Hnotitle & _).
  exact (Hnotitle eq_refl).
Defined.

(** Other things a file can hold in place of a package. *)
Example import_entry_on_other_dicts :
  import_entry_dict bob ledger ∅ = Raise (KeyError "signer_certificate") /\
  import_entry_dict bob ledger {[ "signer_certificate" := Scalar (VInt 1) ]}
    = Raise (AttributeError "'int' object has no attribute 'encode'") /\
  import_entry_dict bob ledger
    (<["encrypted_data" := Scalar (VStr "hello")]> (package_dict alices_package))
    = Raise (TypeError "string indices must be integers").
Proof. by vm_compute. Qed.

Lemma reachable_ledger_invariant_witness :
  Ledger.reachable ledger /\
  ledger <> Garbled /\
  Forall (fun e => is_Some (e !! "serial")) (Ledger.entries ledger) /\
  forall s, length (Ledger.entries_for s ledger) <= 1.
Proof.
  split; [exact Witness.ledger_reachable|].
  exact (reachable_ledger_invariant ledger Witness.ledger_reachable).
Defined.

(** Revoking Alice's serial 41 leaves the answer for serial 7. *)
Lemma revoke_leaves_other_serials_witness :
  Ledger.is_revoked
    (Ledger.revoke_certificate ledger (VStr "41") (VStr "alice") clock).2 (VStr "7")
  = Ledger.is_revoked ledger (VStr "7").
Proof.
  apply (revoke_leaves_other_serials ledger (VStr "41") (VStr "alice") clock
           (VStr "7") Witness.ledger_reachable I I).
  discriminate.
Defined.

Lemma first_revocation_appends_witness :
  Ledger.entries_for (VStr "41") ledger = [] /\
  exists f' e,
    Ledger.revoke_certificate ledger (VStr "41") VNone clock = (Ok true, f') /\
    Ledger.get_revoked_certificates f' = Ok (Ledger.entries ledger ++ [e]) /\
    e !! "serial" = Some (VStr "41") /\
    e !! "revoked_by" = Some (VStr "unknown") /\
    e !! "timestamp" = Some (VStr (clock +:+ "Z")) /\
    Ledger.is_revoked f' (VStr "41") = Ok true.
Proof.
  split; [reflexivity|].
  exact (first_revocation_appends ledger (VStr "41") VNone clock
           Witness.ledger_reachable I I eq_refl).
Defined.

(** "bobby" registers beside "alice". *)
Lemma registered_user_logs_in_witness :
  username_exists alices_accounts "bobby" = false /\
  exists self' here' r sk c km,
    register_user alices_accounts no_files "bobby" "hunter22" "Bob B." first_draws
      = (Ok Yes, self', here') /\
    users_db self' = users_db alices_accounts ++ [r] /\
    users_file self' = Stored (users_db self') /\
    username r = "bobby" /\ full_name r = "Bob B." /\
    authenticate_user self' "bobby" "hunter22" = Ok (Some r) /\
    load_keystore (keystore_file here') "hunter22" new_key_manager = (true, km) /\
    holds_identity km sk c /\
    cert_common_names c = ["bobby"] /\
    key_size (public_key_of sk) = 2048%Z.
Proof.
  split; [reflexivity|].
  apply (registered_user_logs_in MockFacts.laws MockMoreFacts.pem_laws
           alices_accounts no_files "bobby" "hunter22" "Bob B." first_draws
           new_key_manager);
    [cbn; lia | reflexivity | cbn; lia | cbn; lia | reflexivity
    | reflexivity | reflexivity].
Defined.

(** A first registration under the name of [users.json]: the directory
    is made in the file's place, the key files are written, the record is
    appended, and then [users.json] cannot be opened. *)
Example register_under_the_name_of_the_users_file :
  exists e self' here',
    register_user no_users no_files "users.json" "hunter22" "" draws_no_users_file
      = (Raise (OSError e), self', here') /\
    users_file self' = Missing /\
    map username (users_db self') = ["users.json"] /\
    keystore_file here' <> Missing.
Proof. eexists _, _, _. split; [reflexivity|]. by vm_compute. Qed.

(** A name that leads below a directory that is not there: [mkdir] fails
    and nothing has happened. *)
Example register_without_parent_directory :
  exists e,
    register_user alices_accounts no_files "bob/by" "hunter22" "" draws_no_parent
      = (Raise (OSError e), alices_accounts, no_files).
Proof. by eexists. Qed.

(** A name of 65 bytes: the certificate is refused, nothing is written. *)
Example register_with_a_long_name :
  let name := "a234567890b234567890c234567890d234567890e234567890f234567890g2345" in
  exists e,
    register_user alices_accounts no_files name "hunter22" "" first_draws
      = (Raise (ValueError e), alices_accounts, no_files).
Proof. by eexists. Qed.

(** Alice changes her password. *)
Lemma change_password_moves_both_witness :
  authenticate_user alices_accounts "alice" "secret1" = Ok (Some alices_record) /\
  exists self' disk' r,
    change_password alices_accounts alices_disk "alice" "secret1" "newsecret"
        salt16 salt16 iv16
      = (Ok Yes, self', disk') /\
    users_file self' = Stored (users_db self') /\
    authenticate_user self' "alice" "newsecret" = Ok (Some r) /\
    match load_keystore (keystore_file (files_of alices_disk "alice")) "secret1"
            new_key_manager with
    | (true, km) =>
        forall km0,
          load_keystore (keystore_file (files_of disk' "alice")) "newsecret" km0
            = (true, km)
    | (false, _) => disk' = alices_disk
    end.
Proof.
  assert (H : authenticate_user alices_accounts "alice" "secret1"
              = Ok (Some alices_record)) by reflexivity.
  split; [exact H|].
  apply (change_password_moves_both MockFacts.laws MockMoreFacts.pem_laws
           alices_accounts alices_disk "alice" "secret1" "newsecret"
           salt16 salt16 iv16 alices_record H); [cbn; lia | reflexivity].
Defined.

(** Alice deletes her account, giving her name in capitals. *)
Lemma delete_user_removes_name_witness :
  authenticate_user alices_accounts "ALICE" "secret1" = Ok (Some alices_record) /\
  exists self',
    delete_user alices_accounts "ALICE" "secret1" = (Ok Yes, self') /\
    users_file self' = Stored (users_db self') /\
    username_exists self' "ALICE" = false /\
    (forall pw, authenticate_user self' "ALICE" pw = Ok None) /\
    users_db self' =
      List.filter (fun u => negb (same_name u "ALICE")) (users_db alices_accounts).
Proof.
  assert (H : authenticate_user alices_accounts "ALICE" "secret1"
              = Ok (Some alices_record)) by reflexivity.
  split; [exact H|].
  exact (delete_user_removes_name alices_accounts "ALICE" "secret1" alices_record H).
Defined.

Lemma accounts_keep_names_unique_witness :
  unique_names (users_db alices_accounts) /\
  unique_names (users_db (register_user alices_accounts no_files "bobby"
                            "hunter22" "" first_draws).1.2) /\
  unique_names (users_db (update_user_info alices_accounts "bobby" (Some "B.")).2) /\
  unique_names (users_db (change_password alices_accounts alices_disk "bobby"
                            "secret1" "newsecret" salt16 salt16 iv16).1.2) /\
  unique_names (users_db (delete_user alices_accounts "bobby" "hunter22").2).
Proof.
  assert (H : unique_names (users_db alices_accounts))
    by exact (NoDup_singleton "alice").
  split; [exact H|].
  exact (accounts_keep_names_unique alices_accounts no_files alices_disk "bobby"
           "hunter22" "" first_draws (Some "B.") "secret1" "newsecret"
           salt16 salt16 iv16 H).
Defined.

(** A third entry saved into the sample diary. *)
Lemma save_then_load_entry_witness :
  let stamp := "20240503_070000_000001" in
  let new_entry :=
    {| Diary.id := stamp; Diary.title := "Wednesday";
       Diary.created := "2024-05-03T07:00:00.000002";
       Diary.modified := "2024-05-03T07:00:00.000003";
       Diary.tags := ["work"];
       Diary.filename := stamp +:+ ".json" |} in
  exists self' m,
    Diary.save_entry diary "Wednesday" alices_envelope (Some ["work"]) stamp
      "2024-05-03T07:00:00.000002" "2024-05-03T07:00:00.000003" = (Ok stamp, self') /\
    Diary.index self' = Diary.index diary ++ [new_entry] /\
    Diary.index_file self' = Stored (Diary.index self') /\
    Diary.well_named (Diary.index self') /\
    Diary.load_entry self' stamp = Ok (Some (m, alices_envelope)) /\
    Diary.id m = stamp /\
    (Forall (fun e => Diary.id e <> stamp) (Diary.index diary) -> m = new_entry).
Proof.
  exact (DiaryFacts.save_then_load_entry diary "Wednesday" alices_envelope
           (Some ["work"]) "20240503_070000_000001"
           "2024-05-03T07:00:00.000002" "2024-05-03T07:00:00.000003"
           diary_well_named envelope_jsonable).
Defined.

(** Monday's entry deleted. *)
Lemma delete_entry_removes_witness :
  Diary.well_named (Diary.index diary) /\
  let out := Diary.delete_entry diary "20240501_100000_000001" in
  exists before m after,
    out.1 = true /\
    Diary.index diary = before ++ m :: after /\
    Forall (fun e => Diary.id e <> "20240501_100000_000001") before /\
    Diary.index out.2 = before ++ after /\
    Diary.id m = "20240501_100000_000001" /\
    Diary.load_entry out.2 "20240501_100000_000001" = Ok None.
Proof.
  split; [exact diary_well_named|].
  destruct (DiaryFacts.delete_entry_removes diary "20240501_100000_000001"
              diary_well_named)
    as (before & m & after & H1 & H2 & H3 & H4 & _ & _ & H7).
  exists before, m, after. split; [reflexivity|]. by repeat split.
Defined.

(** Two entries under one id: the first of them is the one deleted. *)
Example delete_takes_the_first_of_two :
  let twin := {| Diary.id := Diary.id monday; Diary.title := "Twin";
                 Diary.created := Diary.created tuesday;
                 Diary.modified := Diary.modified tuesday;
                 Diary.tags := [];
                 Diary.filename := Diary.filename monday |} in
  let twice := {| Diary.index := [monday; tuesday; twin];
                  Diary.index_file := Stored [monday; tuesday; twin];
                  Diary.entry_files := Diary.entry_files diary |} in
  Diary.index (Diary.delete_entry twice (Diary.id monday)).2 = [tuesday; twin].
Proof. reflexivity. Qed.

(** Monday's entry updated with a new envelope, title and tags kept. *)
Lemma update_entry_then_load_witness :
  let m := {| Diary.id := Diary.id monday;
              Diary.title := "Monday, again";
              Diary.created := Diary.created monday;
              Diary.modified := "2024-05-04T09:00:00.000001";
              Diary.tags := Diary.tags monday;
              Diary.filename := Diary.filename monday |} in
  exists self' before after,
    Diary.update_entry diary "20240501_100000_000001" (Some "Monday, again")
      (Some alices_signed_envelope) None "2024-05-04T09:00:00.000001" = (Ok true, self') /\
    Diary.index diary = before ++ monday :: after /\
    Diary.index self' = before ++ m :: after /\
    Diary.index_file self' = Stored (Diary.index self') /\
    Diary.well_named (Diary.index self') /\
    Diary.load_entry self' "20240501_100000_000001"
      = Ok (Some (m, alices_signed_envelope)).
Proof.
  exact (DiaryFacts.update_entry_then_load diary "20240501_100000_000001"
           (Some "Monday, again") alices_signed_envelope None
           "2024-05-04T09:00:00.000001" diary_well_named signed_envelope_jsonable).
Defined.

Lemma save_entry_leaves_others_witness :
  Diary.load_entry
    (Diary.save_entry diary "Wednesday" alices_envelope None "20240503_070000_000001"
       "2024-05-03T07:00:00.000002" "2024-05-03T07:00:00.000003").2
    "20240501_100000_000001"
  = Diary.load_entry diary "20240501_100000_000001".
Proof.
  apply (DiaryFacts.save_entry_leaves_others diary "Wednesday" alices_envelope None
           "20240503_070000_000001" "2024-05-03T07:00:00.000002"
           "2024-05-03T07:00:00.000003" "20240501_100000_000001" diary_well_named).
  discriminate.
Defined.

(** A search in other letter case, by title and by tag. *)
Example search_by_title_and_tag :
  search_entries diary "MON" = [monday] /\
  search_entries diary "work" = [monday] /\
  search_entries diary "day" = [tuesday; monday] /\
  search_entries diary "" = [tuesday; monday] /\
  search_entries diary "friday" = [].
Proof. by vm_compute. Qed.

End Scenes.
